(* ===== verification/_CoqProject ===== *)
-Q . S2P
Prelude.v
JsString.v
JsNumber.v
JsRegExp.v
DayParser.v
Request.v
Stream.v
JsonText.v
Frames.v
Catalog.v
Fallback.v
Orchestrator.v
Schema.v
Router.v
Startup.v
