(* ===== verification/Prelude.v ===== *)
(** * Smart Trip Planner backend: a verification development

    ** The program

    [src/backend/server.js] is an Express 4 server.  At start-up it
    loads [.env] into [process.env] (line 4), chooses its port (line 7),
    constructs the Gemini client (line 10), registers [cors()] and
    [express.json()] (lines 13-14), eight routes, an error handler and a
    404 handler, and listens (lines 482-486).  The route with logic is
    [POST /generate-itinerary] (lines 27-221): it sets four streaming
    headers, destructures the JSON body, computes
    [finalDestination = destination || prompt || 'Unknown Destination'],
    answers 400 when neither [destination] nor [prompt] is truthy, and
    otherwise logs a message rendering the destination (line 44) and,
    inside a [try], either runs the fallback
    [generateDemoItinerary] (no Gemini key) or streams the chunks of
    Gemini's [generateContentStream] as token frames, then sends an
    itinerary whose days come from [extractDaysFromText] (lines
    223-258) and a metrics estimate, and ends the response; the
    [catch] runs the fallback.  The other seven routes answer fixed
    JSON, the search routes echoing the request body.

    ** Files, from the bottom up

    - [Prelude] (this file): the hint databases [trip] and [trip_rw],
      the tactics [inv], [destr_goal] and [zbool], list lemmas
      ([take_while], [drop_while], [skipn]), the exception-keeping
      state monad [st] with its notation in [st_scope] (a raised
      exception keeps the writes done, as in JavaScript), [preserves]:
      invariants of states kept by every combinator, with the tactic
      [solve_preserves], and the rounding lemma of the metrics.
    - [JsString]: JavaScript strings as lists of UTF-16 code units
      ([jsstr]); [js] decodes a literal of the UTF-8 source as Node
      does; [trim], [split], [join], [substring], the digits
      [parseInt] reads, decimal rendering.
    - [JsNumber]: numbers as doubles on integers: [round_double]
      (nearest, ties to even, overflow to [Infinity]), [parseInt]
      returning [NaN], a finite double or an infinity, and
      [Number::toString] of an integral double ([number_to_js]: the
      shortest digits that read back, the exponent form from 10^21 on);
      below 2^53 it is the plain decimal rendering.
    - [JsRegExp]: the regular-expression fragment of the source with the
      ECMAScript backtracking matcher in continuation-passing style,
      [scan] and [exec] with its [lastIndex] state.
    - [DayParser] (TextSegmentParser): [extractDaysFromText], its loop
      [extract_loop] over the [RegExp] object state, the activity
      pipeline [activities_of], the skeleton; [days_spec] is the
      specification's single-pass algorithm.
    - [Request] (RequestValidator): JSON values (integral doubles
      [JNum], infinities [JInf], decimals [JDec]), truthiness, [||],
      [ToString] as template literals use it, which throws a
      [TypeError] on an object with an own [toString] ([to_js_string],
      [renders]), [interests?.join(', ')] with its [TypeError], the
      destructured [request], [finalDestination], the guard [rejected].
    - [Stream] (StreamDispatcher): frames, the log of response
      operations, the handler monad [H], the operations of lines 31-59,
      and the specification's per-request state machine ([step],
      [next], [run]).
    - [JsonText]: [JSON.stringify] after ECMA-262 ([null] for an
      infinity) and a reference reader [parse_json];
      [parse_json (stringify v) = Some v] on the values whose numbers
      are below 2^53.
    - [Frames]: the frame objects of lines 47-59 and the body of the
      stream as newline-terminated JSON texts.
    - [Catalog] (static endpoints): [GET /health], [/destinations],
      [/tips] and the four [POST /search-*] handlers, literal by literal.
    - [Fallback] (FallbackGenerator): the 32 fragments of lines 131-171
      with their fallible holes, the hardcoded itinerary and metrics,
      [generateDemoItinerary].
    - [Orchestrator] (AIStreamAdapter, MetricsEstimator,
      GenerationOrchestrator): the Gemini client as the typeclass
      [GeminiClient] (a stream that may throw at once or after any
      number of chunks), the key check, the log template of line 44,
      the prompt of lines 73-88, [estimate_metrics], [ai_generate] and
      the handler [generate_itinerary]; the theorems hold for every
      client.
    - [Schema]: the data model of sections 3 and 6 of the specification
      as JSON types [jtype] with the checker [has_typeb].
    - [Router] (the Express application): the layer stack of lines
      13-480 and Express's [next] loop [run_layers], the error and 404
      handlers, and the reference dispatch [app_spec].
    - [Startup]: dotenv's [config] without override, [PORT || 8080], the
      key of line 10, the lines [app.listen] prints, and [boot], the
      environment the handlers read.

    ** What the theorems show (claims C1-C29)

    - The generation handler (C1, C2, C5, C8, C11-C13, C17, C22-C25):
      every request that passes validation and whose rendered values
      render ([request_renders]: no object with an own [toString], an
      [interests] nullish or an array of such values) gets headers,
      tokens, one itinerary, one metrics frame and the end, for every
      client behaviour (C1); its log is a run of the specification's
      state machine to [Closed] (C2, a refinement); the exact log of
      each branch (C5); rejected requests get 400 and no frame (C8); a
      non-array [interests] (C11) or a destination, duration or budget
      that does not render (C12) makes a [TypeError] escape with only
      the headers written and the response never ended (bugs); the
      [close] listener is registered after [end] or never (C13); every
      itinerary frame carries the resolved destination, duration and
      budget, an invariant of the log (C17); the fallback's
      determinism and its [TypeError] cases (C22, C23); the metrics
      bounds (C24); a prompt-only request (C25).
    - Types and the wire (C4, C14): when the request has the
      specification's request type and the AI text numbers its days
      within the doubles, every frame written has the frame type, an
      invariant of the log (C4); a client that splits the body on line
      feeds and parses each line gets the frames back when their
      numbers are below 2^53 (C14).
    - The parser (C6, C7, C15, C16, C21, C26-C29): the loop terminates
      (C7) and computes the single-pass algorithm (C6); every day is
      well formed (C15) and numbered by [parseInt] of its digits, never
      [NaN] (C16); activities line by line (C21); the skeleton (C26);
      indented bullets keep their marker (C27), emoji bullets are never
      markers (C28); the fallback's day narrative never mentions the
      destination (C29).
    - The application (C3, C9, C10, C18-C20): the layer-by-layer
      dispatch equals the reference dispatch (C3, an equivalence); a
      malformed JSON body gets 500 on every route (C9); unmatched
      requests get 404 with their URL (C10); a server without a key
      never calls the Gemini client, composing start-up, routing and
      generation (C18); no request reaches Express's final handler
      (C19); the generation route ignores case, trailing slash and
      query (C20).

    ** Bounds and fuel

    [extract_loop] runs with fuel [S (length text)]: each iteration
    moves [lastIndex] to the end of a match at least 9 code units long
    ([min_len_dayRegex]), so that many iterations always reach the
    [exec] that returns [null] (C7).  [scan] tries at most
    [length + 1] start indices, every index ECMAScript tries; a greedy
    star over a class iterates at most [length] times.  [parse_json]
    runs with fuel one more than the text's length, which bounds the
    size [jsize v] of every value it must read back ([jsize_le]).
    [shortest] tries at most as many digit counts as the number has
    digits: at the last one the number itself reads back.  Lengths are
    UTF-16 code units.

    ** Not modelled

    Console logging ([console.log], [console.error]): the messages are
    not modelled, the rendering of the template literal of line 44,
    which may throw, is; the body of the [close] listener is a log
    line, so its registration is the event [OnClose].  The 200 ms
    pauses; the headers [cors()] adds and Express's [Content-Type] of
    [res.json]; the sockets behind [app.listen]; the Gemini client
    object of line 10, which is the abstract [GeminiClient]; decimals
    outside 15 significant and 6 fraction digits and numbers written
    with an exponent in the body (the [JDec] values are those
    [Number::toString] writes as [d.ddd]); [new Date()] and
    [toISOString()], which are inputs ([clock], [iso_now]).  A
    [BodyParsed] body is one that body-parser's strict mode accepts (an
    object or an array); any other text is the [BodyMalformed] case.
    The dotenv library is modelled for [boot], not mapped to the
    repository's lines. *)

From Stdlib Require Import List ZArith Lia Bool.
Import ListNotations.

(** ** Shared automation *)

Create HintDb trip.
Create Rewrite HintDb trip_rw.

Ltac inv H := inversion H; subst; clear H.

(** Case on the scrutinee of the first [match] or [if] in the goal,
    keeping the equation. *)
Ltac destr_goal :=
  match goal with
  | |- context [match ?x with _ => _ end] =>
      let E := fresh "E" in destruct x eqn:E
  end.

(** ** Generic lemmas on lists *)

Lemma Forall_firstn {A} (P : A -> Prop) n (l : list A) :
  Forall P l -> Forall P (firstn n l).
Proof.
  intros H. rewrite <- (firstn_skipn n l) in H. apply Forall_app in H. tauto.
Qed.

Lemma Forall_filter_true {A} (f : A -> bool) (l : list A) :
  Forall (fun x => f x = true) (filter f l).
Proof.
  apply Forall_forall. intros x Hx. apply filter_In in Hx. tauto.
Qed.

Lemma Forall_map_iff {A B} (P : B -> Prop) (f : A -> B) (l : list A) :
  Forall P (map f l) <-> Forall (fun x => P (f x)) l.
Proof.
  induction l as [|a l IH]; simpl; split; intros H; auto;
    inv H; constructor; auto; apply IH; auto.
Qed.

Lemma app_cons_not_nil' {A} (l : list A) x : l ++ [x] <> [].
Proof. destruct l; discriminate. Qed.

#[export] Hint Resolve Forall_firstn Forall_filter_true firstn_le_length : trip.
#[export] Hint Resolve app_cons_not_nil' : trip.

(** ** Dropping a prefix that satisfies a test

    [drop_while] is the building block of JavaScript's [trim]. *)

Fixpoint drop_while {A} (p : A -> bool) (l : list A) : list A :=
  match l with
  | [] => []
  | x :: r => if p x then drop_while p r else l
  end.

Fixpoint take_while {A} (p : A -> bool) (l : list A) : list A :=
  match l with
  | [] => []
  | x :: r => if p x then x :: take_while p r else []
  end.

Lemma take_drop_while {A} (p : A -> bool) l : take_while p l ++ drop_while p l = l.
Proof. induction l as [|x l IH]; simpl; [reflexivity|]. destruct (p x); simpl; congruence. Qed.

Lemma take_while_app_stop {A} (p : A -> bool) l c m :
  Forall (fun x => p x = true) l -> p c = false -> take_while p (l ++ c :: m) = l.
Proof. induction 1 as [|x l Hx _ IH]; simpl; intros Hc; [now rewrite Hc|now rewrite Hx, IH]. Qed.

Lemma drop_while_all_app {A} (p : A -> bool) l m :
  Forall (fun x => p x = true) l -> drop_while p (l ++ m) = drop_while p m.
Proof. induction 1 as [|x l Hx _ IH]; simpl; [reflexivity|now rewrite Hx]. Qed.

Lemma take_while_all_app {A} (p : A -> bool) l m :
  Forall (fun x => p x = true) l -> take_while p (l ++ m) = l ++ take_while p m.
Proof. induction 1 as [|x l Hx _ IH]; simpl; [reflexivity|now rewrite Hx, IH]. Qed.

Lemma drop_while_app_stop {A} (p : A -> bool) l c m :
  p c = false -> drop_while p (l ++ c :: m) = drop_while p l ++ c :: m.
Proof.
  intros Hc. induction l as [|x l IH]; simpl.
  - now rewrite Hc.
  - destruct (p x); auto.
Qed.

Lemma drop_while_head {A} (p : A -> bool) l :
  match drop_while p l with [] => True | c :: _ => p c = false end.
Proof.
  induction l as [|x l IH]; simpl; auto.
  destruct (p x) eqn:E; simpl; auto.
Qed.

Lemma drop_while_id {A} (p : A -> bool) c l :
  p c = false -> drop_while p (c :: l) = c :: l.
Proof. simpl. now intros ->. Qed.

Lemma drop_while_suffix {A} (p : A -> bool) l :
  exists pre, l = pre ++ drop_while p l /\ Forall (fun x => p x = true) pre.
Proof.
  induction l as [|x l [pre [Hpre Hall]]]; simpl.
  - exists []. auto.
  - destruct (p x) eqn:E.
    + exists (x :: pre). split; [simpl; congruence | constructor; auto].
    + exists []. auto.
Qed.

Lemma length_drop_while {A} (p : A -> bool) l : length (drop_while p l) <= length l.
Proof. induction l as [|x l IH]; simpl; [lia|]. destruct (p x); simpl; lia. Qed.

#[export] Hint Resolve length_drop_while : trip.

(** ** [skipn] and [nth_error] *)

Lemma skipn_nth_error_cons {A} (l : list A) i c :
  nth_error l i = Some c -> skipn i l = c :: skipn (S i) l.
Proof.
  revert i. induction l as [|x l IH]; intros [|i] H; simpl in *; try discriminate.
  - now inv H.
  - now apply IH.
Qed.

Lemma skipn_nth_error_none {A} (l : list A) i :
  nth_error l i = None -> skipn i l = [].
Proof. intros H. apply skipn_all2. now apply nth_error_None. Qed.

(** ** A state monad with exceptions that keep the state

    [st S E A] runs on a state [S] and either returns an [A] or raises
    an [E]; a raise keeps the state reached so far, as a JavaScript
    exception leaves the writes already done in place.  [catch] is
    [try ... catch]. *)

Inductive outcome (E A : Type) := Ok (a : A) | Raise (e : E).
Arguments Ok {E A} a.
Arguments Raise {E A} e.

Definition st (S E A : Type) := S -> outcome E A * S.

Definition ret {S E A} (a : A) : st S E A := fun s => (Ok a, s).

Definition bind {S E A B} (c : st S E A) (k : A -> st S E B) : st S E B :=
  fun s => match c s with
           | (Ok a, s') => k a s'
           | (Raise e, s') => (Raise e, s')
           end.

Definition raise {S E A} (e : E) : st S E A := fun s => (Raise e, s).

(** A pure computation that may throw, evaluated in place: an
    expression such as a template literal. *)
Definition of_sum {S E A} (m : E + A) : st S E A :=
  fun s => match m with inl e => (Raise e, s) | inr a => (Ok a, s) end.

Definition catch {S E A} (c : st S E A) (h : E -> st S E A) : st S E A :=
  fun s => match c s with
           | (Raise e, s') => h e s'
           | r => r
           end.

Declare Scope st_scope.
Delimit Scope st_scope with st.
Notation "x <- c ;; k" := (bind c (fun x => k))
  (at level 61, c at next level, right associativity) : st_scope.
Notation "c ;; k" := (bind c (fun _ => k))
  (at level 61, right associativity) : st_scope.

(** Run an effect on every element, in order ([for ... of]). *)
Fixpoint for_each {S E A} (f : A -> st S E unit) (l : list A) : st S E unit :=
  match l with
  | [] => ret tt
  | x :: r => bind (f x) (fun _ => for_each f r)
  end.

Lemma bind_ok {S E A B} (c : st S E A) (k : A -> st S E B) s a s' :
  c s = (Ok a, s') -> bind c k s = k a s'.
Proof. unfold bind. now intros ->. Qed.

Lemma bind_raise {S E A B} (c : st S E A) (k : A -> st S E B) s e s' :
  c s = (Raise e, s') -> bind c k s = (Raise e, s').
Proof. unfold bind. now intros ->. Qed.

Lemma catch_ok {S E A} (c : st S E A) h s a s' :
  c s = (Ok a, s') -> catch c h s = (Ok a, s').
Proof. unfold catch. now intros ->. Qed.

Lemma catch_raise {S E A} (c : st S E A) h s e s' :
  c s = (Raise e, s') -> catch c h s = h e s'.
Proof. unfold catch. now intros ->. Qed.

(** ** State invariants of computations

    [preserves I c]: from any state satisfying [I], [c] ends in a state
    satisfying [I], whether it returns or raises.  The combinators
    preserve invariants, so a program's invariant is proved operation
    by operation. *)
Section Preserves.
Context {S E : Type} (I : S -> Prop).

Definition preserves {A} (c : st S E A) : Prop := forall s, I s -> I (snd (c s)).

Lemma ret_preserves {A} (a : A) : preserves (ret a).
Proof. intros s Hs. exact Hs. Qed.

Lemma raise_preserves {A} (e : E) : preserves (@raise S E A e).
Proof. intros s Hs. exact Hs. Qed.

Lemma of_sum_preserves {A} (m : E + A) : preserves (of_sum m).
Proof. intros s Hs. destruct m; exact Hs. Qed.

Lemma bind_preserves {A B} (c : st S E A) (k : A -> st S E B) :
  preserves c -> (forall a, preserves (k a)) -> preserves (bind c k).
Proof.
  intros Hc Hk s Hs. unfold bind. specialize (Hc s Hs).
  destruct (c s) as [[a|e] s']; [apply Hk|]; exact Hc.
Qed.

Lemma catch_preserves {A} (c : st S E A) (h : E -> st S E A) :
  preserves c -> (forall e, preserves (h e)) -> preserves (catch c h).
Proof.
  intros Hc Hh s Hs. unfold catch. specialize (Hc s Hs).
  destruct (c s) as [[a|e] s']; [|apply Hh]; exact Hc.
Qed.

Lemma for_each_preserves {A} (f : A -> st S E unit) (l : list A) :
  (forall x, preserves (f x)) -> preserves (for_each f l).
Proof.
  intros Hf. induction l as [|x l IH]; simpl; [apply ret_preserves|].
  apply bind_preserves; auto.
Qed.

End Preserves.

#[export] Hint Resolve ret_preserves raise_preserves of_sum_preserves bind_preserves catch_preserves
  for_each_preserves : trip.

(** Prove [preserves] of a program by its structure: combinators,
    then the branches of its [if]s and [match]es. *)
Ltac solve_preserves :=
  repeat first
    [ apply bind_preserves; intros
    | apply catch_preserves; intros
    | apply for_each_preserves; intros
    | apply ret_preserves
    | apply raise_preserves
    | apply of_sum_preserves
    | match goal with |- preserves _ (match ?x with _ => _ end) => destruct x end ].

(** ** Rounded-down quarters *)

Lemma div4_add_bounds (a b : Z) :
  (0 <= a -> 0 <= b -> a / 4 + b / 4 <= (a + b) / 4 <= a / 4 + b / 4 + 1)%Z.
Proof.
  intros Ha Hb.
  pose proof (Z.div_mod a 4 ltac:(lia)). pose proof (Z.mod_pos_bound a 4 ltac:(lia)).
  pose proof (Z.div_mod b 4 ltac:(lia)). pose proof (Z.mod_pos_bound b 4 ltac:(lia)).
  pose proof (Z.div_mod (a + b) 4 ltac:(lia)). pose proof (Z.mod_pos_bound (a + b) 4 ltac:(lia)).
  lia.
Qed.

(** ** Sums *)

Lemma list_sum_map_le {A} (f g : A -> nat) l :
  Forall (fun x => f x <= g x)%nat l -> (list_sum (map f l) <= list_sum (map g l))%nat.
Proof. induction 1; simpl; lia. Qed.

(** ** Deciding comparisons of integers in a goal *)

(** Case on every [Z.eqb], [Z.ltb] and [Z.leb] of the goal, with the
    corresponding fact in the context. *)
Ltac zbool :=
  repeat (match goal with
          | |- context [Z.eqb ?a ?b] => destruct (Z.eqb_spec a b)
          | |- context [Z.ltb ?a ?b] => destruct (Z.ltb_spec a b)
          | |- context [Z.leb ?a ?b] => destruct (Z.leb_spec a b)
          end; cbn [andb orb negb]; try (exfalso; lia)).

(** ** Splitting a list at an element *)

(** If [x] does not occur in [l1], any split of [l1 ++ l2] at an [x]
    has [l1] as a prefix of its left part. *)
Lemma prefix_before_absent {A} (x : A) (l1 l2 pre post : list A) :
  ~ In x l1 -> l1 ++ l2 = pre ++ x :: post -> exists q, pre = l1 ++ q.
Proof.
  revert pre. induction l1 as [|y l1 IH]; intros pre Hn E; [now exists pre|].
  destruct pre as [|z pre]; simpl in E; injection E as <- E.
  - exfalso. apply Hn. now left.
  - destruct (IH pre) as [q ->]; [intros H; apply Hn; now right|exact E|].
    now exists q.
Qed.
