(* ===== verification/JsString.v ===== *)
(** * JavaScript strings

    A JavaScript string is a sequence of UTF-16 code units; [jsstr] is a
    list of them, each a [Z] in [0, 65536).  Node reads [server.js] as
    UTF-8, so a string literal of the source denotes the UTF-16 encoding
    of the UTF-8 text written between its quotes: [js] performs that
    decoding on a Rocq string literal holding the same bytes as the
    source.  The file also gives the string methods the handler and
    [extractDaysFromText] call: [String.prototype.trim], [split] on a
    one-code-unit separator, [substring], [Array.prototype.join] and the
    decimal rendering of integral numbers in template literals. *)

From Stdlib Require Import String Ascii List ZArith Lia Bool.
From S2P Require Import Prelude.
Import ListNotations.
Local Open Scope Z_scope.

Definition jsstr := list Z.

(** ** Source literals: UTF-8 bytes to UTF-16 code units *)

Definition bytes_of_string (s : string) : list Z :=
  map (fun a => Z.of_N (N_of_ascii a)) (list_ascii_of_string s).

(** Decoding of well-formed UTF-8 into code points; a truncated
    sequence at the end is dropped (the source file is well formed). *)
Fixpoint utf8_decode (l : list Z) : list Z :=
  match l with
  | [] => []
  | b1 :: r1 =>
      if b1 <? 128 then b1 :: utf8_decode r1
      else match r1 with
      | [] => []
      | b2 :: r2 =>
          if b1 <? 224 then (Z.land b1 31 * 64 + Z.land b2 63) :: utf8_decode r2
          else match r2 with
          | [] => []
          | b3 :: r3 =>
              if b1 <? 240 then
                (Z.land b1 15 * 4096 + Z.land b2 63 * 64 + Z.land b3 63) :: utf8_decode r3
              else match r3 with
              | [] => []
              | b4 :: r4 =>
                  (Z.land b1 7 * 262144 + Z.land b2 63 * 4096
                   + Z.land b3 63 * 64 + Z.land b4 63) :: utf8_decode r4
              end
          end
      end
  end.

(** UTF-16 encoding of one code point: a surrogate pair above the BMP. *)
Definition utf16_of_code_point (cp : Z) : list Z :=
  if cp <? 65536 then [cp]
  else [55296 + (cp - 65536) / 1024; 56320 + (cp - 65536) mod 1024].

Definition js (s : string) : jsstr :=
  flat_map utf16_of_code_point (utf8_decode (bytes_of_string s)).

(** The code units the development names. *)
Definition LF : Z := 10.
Definition ASTERISK : Z := 42.

(** ** [String.prototype.trim]

    ECMAScript's WhiteSpace and LineTerminator code points (TAB, VT, FF,
    SP, NBSP, ZWNBSP, the Zs category, LF, CR, LS, PS). *)
Definition is_space (c : Z) : bool :=
  (c =? 9) || (c =? 10) || (c =? 11) || (c =? 12) || (c =? 13)
  || (c =? 32) || (c =? 160) || (c =? 5760)
  || ((8192 <=? c) && (c <=? 8202))
  || (c =? 8232) || (c =? 8233) || (c =? 8239) || (c =? 8287)
  || (c =? 12288) || (c =? 65279).

Definition trim_start (s : jsstr) : jsstr := drop_while is_space s.
Definition trim_end (s : jsstr) : jsstr := rev (drop_while is_space (rev s)).
Definition trim (s : jsstr) : jsstr := trim_end (trim_start s).

(** A string is [trimmed] when it neither starts nor ends with a space. *)
Definition trimmed (s : jsstr) : Prop :=
  match s with
  | [] => True
  | c :: _ => is_space c = false /\ is_space (last s 0) = false
  end.

Definition trimmedb (s : jsstr) : bool :=
  match s with
  | [] => true
  | c :: _ => negb (is_space c) && negb (is_space (last s 0))
  end.

Lemma trimmedb_spec s : trimmedb s = true -> trimmed s.
Proof.
  destruct s as [|c r]; simpl; [auto|]. intros H.
  apply andb_true_iff in H as [H1 H2]. apply negb_true_iff in H1, H2. auto.
Qed.

(** ** [split] on a one-code-unit separator, [join], [substring] *)

Fixpoint split_on (sep : Z) (s : jsstr) : list jsstr :=
  match s with
  | [] => [[]]
  | c :: r =>
      if c =? sep then [] :: split_on sep r
      else match split_on sep r with
           | x :: xs => (c :: x) :: xs
           | [] => [[c]]
           end
  end.

Fixpoint join (sep : jsstr) (l : list jsstr) : jsstr :=
  match l with
  | [] => []
  | [x] => x
  | x :: r => x ++ sep ++ join sep r
  end.

(** [s.substring(a, b)]: the arguments are clamped to [0, length] and
    swapped when [a > b], as the ECMAScript algorithm does. *)
Definition substring (s : jsstr) (a b : nat) : jsstr :=
  let a' := Nat.min a (length s) in
  let b' := Nat.min b (length s) in
  let from := Nat.min a' b' in
  let to := Nat.max a' b' in
  firstn (to - from) (skipn from s).

(** ** Decimal rendering of an integer ([Number.prototype.toString]) *)

Fixpoint digits_of_pos (fuel : nat) (n : Z) (acc : jsstr) : jsstr :=
  match fuel with
  | O => acc
  | S f =>
      let acc' := (48 + n mod 10) :: acc in
      if n <? 10 then acc' else digits_of_pos f (n / 10) acc'
  end.

Definition number_to_string (z : Z) : jsstr :=
  if z <? 0 then 45 :: digits_of_pos (Z.to_nat (Z.log2 (- z)) + 1) (- z) []
  else digits_of_pos (Z.to_nat (Z.log2 z) + 1) z [].

(** The last [k] decimal digits of [r], leading zeros included. *)
Fixpoint pad_digits (k : nat) (r : Z) : jsstr :=
  match k with
  | O => []
  | S k' => pad_digits k' (r / 10) ++ [48 + r mod 10]
  end.

(** [Number::toString] of the decimal [m * 10^-e] for [e > 0] and [m]
    not a multiple of 10 (so the fraction has no trailing zero): the
    integer part, a point and the [e] fraction digits.  JavaScript uses
    this form for every such value of at most 21 integer digits and
    with [e <= 6]. *)
Definition decimal_to_string (m : Z) (e : nat) : jsstr :=
  (if m <? 0 then [45] else [])
  ++ number_to_string (Z.abs m / 10 ^ Z.of_nat e) ++ 46 :: pad_digits e (Z.abs m mod 10 ^ Z.of_nat e).

(** ** The mathematical value [parseInt(s)] reads (no radix)

    Leading spaces are skipped, one sign is read, a [0x]/[0X] prefix
    selects radix 16, and the longest prefix of digits of the radix is
    read; no digit gives [NaN] ([None]).  The value is the exact
    integer; [JsNumber.parseInt] rounds it to a double. *)
Definition digit_val (c : Z) : option Z :=
  if (48 <=? c) && (c <=? 57) then Some (c - 48)
  else if (97 <=? c) && (c <=? 122) then Some (c - 87)
  else if (65 <=? c) && (c <=? 90) then Some (c - 55)
  else None.

Fixpoint digits_prefix (radix : Z) (s : jsstr) : list Z :=
  match s with
  | [] => []
  | c :: r =>
      match digit_val c with
      | Some d => if d <? radix then d :: digits_prefix radix r else []
      | None => []
      end
  end.

Definition value_of_digits (radix : Z) (ds : list Z) : Z :=
  fold_left (fun acc d => acc * radix + d) ds 0.

Definition parseInt_value (s : jsstr) : option Z :=
  let s1 := trim_start s in
  let '(sign, s2) :=
    match s1 with
    | c :: r => if c =? 45 then (-1, r) else if c =? 43 then (1, r) else (1, s1)
    | [] => (1, s1)
    end in
  let '(radix, s3) :=
    match s2 with
    | c :: x :: r => if (c =? 48) && ((x =? 120) || (x =? 88)) then (16, r) else (10, s2)
    | _ => (10, s2)
    end in
  match digits_prefix radix s3 with
  | [] => None
  | ds => Some (sign * value_of_digits radix ds)
  end.

(** ** Properties of [trim] *)

Lemma trim_end_cons_stop c r :
  is_space c = false -> trim_end (c :: r) = c :: trim_end r.
Proof.
  intros Hc. unfold trim_end. simpl.
  rewrite (drop_while_app_stop _ _ _ [] Hc), rev_app_distr. reflexivity.
Qed.

Lemma trim_end_last s :
  trim_end s = [] \/ is_space (last (trim_end s) 0) = false.
Proof.
  unfold trim_end. pose proof (drop_while_head is_space (rev s)) as H.
  destruct (drop_while is_space (rev s)) as [|c l]; [now left|right].
  simpl. rewrite last_last. exact H.
Qed.


(** [trim] removes every leading and trailing space. *)
Lemma trim_trimmed s : trimmed (trim s).
Proof.
  unfold trim, trim_start.
  pose proof (drop_while_head is_space s) as H.
  destruct (drop_while is_space s) as [|c r]; [exact I|].
  rewrite (trim_end_cons_stop c r H). simpl trimmed. split; [exact H|].
  destruct (trim_end r) as [|d t] eqn:E; [exact H|].
  rewrite <- E.
  destruct (trim_end_last r) as [E'|E']; [congruence|exact E'].
Qed.

Lemma trimmed_trim_id s : trimmed s -> trim s = s.
Proof.
  destruct s as [|c r]; [reflexivity|]. intros [Hc Hl].
  unfold trim, trim_start. rewrite (drop_while_id _ _ _ Hc).
  unfold trim_end. destruct (rev (c :: r)) as [|d t] eqn:E.
  - apply (f_equal (@rev Z)) in E. rewrite rev_involutive in E. discriminate.
  - assert (Hd : d = last (c :: r) 0).
    { rewrite <- (rev_involutive (c :: r)), E. simpl. now rewrite last_last. }
    subst d. rewrite (drop_while_id _ _ _ Hl), <- E. apply rev_involutive.
Qed.

Lemma trim_idem s : trim (trim s) = trim s.
Proof. apply trimmed_trim_id, trim_trimmed. Qed.

(** ** [split] and [join] *)

Lemma split_on_nonnil sep s : split_on sep s <> [].
Proof.
  destruct s as [|c r]; simpl; [discriminate|].
  destruct (c =? sep); [discriminate|]. destruct (split_on sep r); discriminate.
Qed.

(** Joining the pieces of a split with the separator gives the string back. *)
Lemma join_split sep s : join [sep] (split_on sep s) = s.
Proof.
  induction s as [|c r IH]; [reflexivity|]. simpl.
  pose proof (split_on_nonnil sep r) as Hn.
  destruct (c =? sep) eqn:E.
  - apply Z.eqb_eq in E. subst c.
    destruct (split_on sep r) as [|x xs]; [congruence|]. now rewrite <- IH.
  - destruct (split_on sep r) as [|x xs]; [congruence|].
    rewrite <- IH. destruct xs; reflexivity.
Qed.

(** No piece of a split contains the separator. *)
Lemma split_on_no_sep sep s :
  Forall (fun piece => ~ In sep piece) (split_on sep s).
Proof.
  induction s as [|c r IH]; simpl.
  - repeat constructor. auto.
  - destruct (c =? sep) eqn:E.
    + constructor; auto.
    + destruct (split_on sep r) as [|x xs]; [repeat constructor; simpl; lia|].
      inv IH. constructor; auto. simpl. intros [H|H]; [subst; lia|auto].
Qed.

#[export] Hint Resolve trim_trimmed split_on_nonnil : trip.
#[export] Hint Rewrite trim_idem join_split : trip_rw.

(** ** Substrings *)

Definition contains (hay needle : jsstr) : Prop := exists pre post, hay = pre ++ needle ++ post.

Lemma contains_here needle post : contains (needle ++ post) needle.
Proof. exists [], post. reflexivity. Qed.

Lemma contains_cons c hay needle : contains hay needle -> contains (c :: hay) needle.
Proof. intros (pre & post & ->). exists (c :: pre), post. reflexivity. Qed.

Lemma contains_app_l x hay needle : contains hay needle -> contains (x ++ hay) needle.
Proof. intros (pre & post & ->). exists (x ++ pre), post. now rewrite app_assoc. Qed.

(** Peel code units and other strings off the front until the needle. *)
Ltac solve_contains :=
  repeat first [ apply contains_here | apply contains_cons | apply contains_app_l ].

(** ** [parseInt_value] on digit strings *)

Definition is_ascii_digit (c : Z) : bool := (48 <=? c) && (c <=? 57).

Lemma ascii_digit_cases c : is_ascii_digit c = true ->
  c = 48 \/ c = 49 \/ c = 50 \/ c = 51 \/ c = 52 \/ c = 53 \/ c = 54 \/ c = 55 \/ c = 56 \/ c = 57.
Proof. unfold is_ascii_digit. intros H. apply andb_true_iff in H as [H1 H2]. lia. Qed.

Lemma digit_not_space c : is_ascii_digit c = true -> is_space c = false.
Proof. intros H. apply ascii_digit_cases in H. repeat destruct H as [->|H]; try reflexivity. now subst. Qed.

Lemma digits_prefix_all s :
  Forall (fun c => is_ascii_digit c = true) s -> digits_prefix 10 s = map (fun c => c - 48) s.
Proof.
  induction 1 as [|c s Hc _ IH]; [reflexivity|]. simpl.
  apply ascii_digit_cases in Hc. rewrite IH.
  repeat destruct Hc as [->|Hc]; try reflexivity. now subst.
Qed.

Lemma value_of_digits_nonneg radix ds :
  0 <= radix -> Forall (fun d => 0 <= d) ds -> 0 <= value_of_digits radix ds.
Proof.
  intros Hr Hds. unfold value_of_digits.
  assert (Hgen : forall acc, 0 <= acc -> 0 <= fold_left (fun acc d => acc * radix + d) ds acc).
  { induction Hds as [|d ds Hd _ IH]; intros acc Hacc; simpl; [exact Hacc|].
    apply IH. nia. }
  apply Hgen. lia.
Qed.

Lemma digit_eqb_false c d : is_ascii_digit c = true -> (d < 48 \/ 57 < d) -> (c =? d) = false.
Proof. unfold is_ascii_digit. intros H Hd. apply andb_true_iff in H as [H1 H2]. apply Z.eqb_neq. lia. Qed.

(** A non-empty string of ASCII digits parses to a non-negative number. *)
Lemma parseInt_value_digits s :
  s <> [] -> Forall (fun c => is_ascii_digit c = true) s ->
  exists v, parseInt_value s = Some v /\ 0 <= v.
Proof.
  intros Hne Hall. destruct s as [|c r]; [congruence|].
  pose proof Hall as Hall'. inv Hall'.
  assert (Hv : 0 <= value_of_digits 10 (map (fun c => c - 48) (c :: r))).
  { apply value_of_digits_nonneg; [lia|]. apply Forall_map_iff.
    eapply Forall_impl; [|exact Hall]. simpl. intros x Hx.
    apply ascii_digit_cases in Hx. lia. }
  unfold parseInt_value, trim_start. rewrite (drop_while_id _ _ _ (digit_not_space _ H1)).
  rewrite (digit_eqb_false c 45), (digit_eqb_false c 43) by (auto; lia).
  destruct r as [|x r'].
  - exists (1 * value_of_digits 10 (map (fun c => c - 48) [c])). split; [|lia].
    cbv iota beta zeta. rewrite (digits_prefix_all [c]) by exact Hall. reflexivity.
  - inv H2. rewrite (digit_eqb_false x 120), (digit_eqb_false x 88) by (auto; lia).
    rewrite andb_false_r.
    exists (1 * value_of_digits 10 (map (fun c => c - 48) (c :: x :: r'))). split; [|lia].
    cbv iota beta zeta. rewrite (digits_prefix_all (c :: x :: r')) by exact Hall. reflexivity.
Qed.

Lemma In_drop_while {A} (p : A -> bool) x l : In x (drop_while p l) -> In x l.
Proof.
  destruct (drop_while_suffix p l) as (pre & Hl & _). intros H.
  rewrite Hl. apply in_or_app. now right.
Qed.

(** [trim] keeps only code units of its argument. *)
Lemma In_trim x s : In x (trim s) -> In x s.
Proof.
  unfold trim, trim_end, trim_start. intros H.
  apply in_rev in H. apply In_drop_while in H. apply in_rev in H.
  eapply In_drop_while; eauto.
Qed.

(** ** Decimal rendering *)

(** [digits_of_pos] with enough fuel prepends the decimal digits of [n]:
    at least one, no leading zero, and their value is [n]. *)
Lemma digits_of_pos_spec fuel n acc :
  (0 < fuel)%nat -> 0 <= n < 10 ^ Z.of_nat fuel ->
  exists ds, digits_of_pos fuel n acc = ds ++ acc /\ ds <> []
    /\ Forall (fun c => is_ascii_digit c = true) ds
    /\ value_of_digits 10 (map (fun c => c - 48) ds) = n
    /\ (0 < n -> hd 0 ds <> 48) /\ (n = 0 -> ds = [48]).
Proof.
  revert n acc. induction fuel as [|f IH]; intros n acc Hf Hn; [lia|].
  pose proof (Z.mod_pos_bound n 10 ltac:(lia)) as Hm.
  assert (Hd : is_ascii_digit (48 + n mod 10) = true)
    by (unfold is_ascii_digit; apply andb_true_iff; split; apply Z.leb_le; lia).
  cbn [digits_of_pos]. destruct (Z.ltb_spec n 10).
  - exists [48 + n mod 10]. rewrite Z.mod_small by lia.
    rewrite Z.mod_small in Hd by lia.
    split; [reflexivity|]. split; [discriminate|]. split; [now constructor|].
    split; [unfold value_of_digits; cbn [fold_left map]; lia|]. split; [cbn [hd]; lia|]. intros ->. reflexivity.
  - rewrite Nat2Z.inj_succ, Z.pow_succ_r in Hn by lia.
    destruct (IH (n / 10) ((48 + n mod 10) :: acc)) as (ds & E & Hne & Hall & Hv & Hhd & _).
    { destruct f; [simpl in Hn; lia|lia]. }
    { split; [apply Z.div_pos|apply Z.div_lt_upper_bound]; lia. }
    exists (ds ++ [48 + n mod 10]). rewrite E, <- app_assoc. repeat split; auto.
    + now destruct ds.
    + apply Forall_app; auto.
    + unfold value_of_digits in *. rewrite map_app, fold_left_app, Hv. cbn [fold_left map].
      pose proof (Z.div_mod n 10). lia.
    + intros _. destruct ds; [contradiction|]. apply Hhd.
      apply Z.div_str_pos. lia.
    + lia.
Qed.

Lemma number_fuel_enough n : 0 <= n -> n < 10 ^ Z.of_nat (Z.to_nat (Z.log2 n) + 1).
Proof.
  intros Hn. rewrite Nat2Z.inj_add, Z2Nat.id by apply Z.log2_nonneg.
  destruct (Z.eq_dec n 0) as [->|]; [simpl; lia|].
  apply Z.lt_le_trans with (2 ^ (Z.log2 n + 1)).
  - apply Z.log2_spec. lia.
  - apply Z.pow_le_mono_l. split; [lia|lia].
Qed.

(** The rendering of an integer: a minus sign for a negative one, then
    its digits, the first non-zero unless the number is 0. *)
Lemma number_to_string_spec z :
  exists ds, number_to_string z = (if z <? 0 then [45] else []) ++ ds /\ ds <> []
    /\ Forall (fun c => is_ascii_digit c = true) ds
    /\ value_of_digits 10 (map (fun c => c - 48) ds) = Z.abs z
    /\ (z <> 0 -> hd 0 ds <> 48) /\ (z = 0 -> ds = [48]).
Proof.
  unfold number_to_string. destruct (Z.ltb_spec z 0).
  - destruct (digits_of_pos_spec (Z.to_nat (Z.log2 (- z)) + 1) (- z) [])
      as (ds & E & H1 & H2 & H3 & H4 & _).
    { lia. } { split; [lia|apply number_fuel_enough; lia]. }
    exists ds. rewrite E, app_nil_r. repeat split; auto; [rewrite H3; lia|intros _; apply H4; lia|lia].
  - destruct (digits_of_pos_spec (Z.to_nat (Z.log2 z) + 1) z [])
      as (ds & E & H1 & H2 & H3 & H4 & H5).
    { lia. } { split; [lia|apply number_fuel_enough; lia]. }
    exists ds. rewrite E, app_nil_r. repeat split; auto; [rewrite H3; lia|intros Hz; apply H4; lia].
Qed.

(** ** Lengths and contents of a join *)

Lemma join_length_bound (sep : Z) ws :
  (list_sum (map (fun w => S (length w)) ws) <= S (length (join [sep] ws)))%nat.
Proof.
  induction ws as [|w ws IH]; [simpl; lia|].
  destruct ws as [|w' ws']; [simpl; lia|].
  change (join [sep] (w :: w' :: ws')) with (w ++ [sep] ++ join [sep] (w' :: ws')).
  rewrite !length_app. change (length [sep]) with 1%nat.
  cbn [map] in *. simpl list_sum in *. lia.
Qed.

Lemma Forall_join (P : Z -> Prop) sep ws :
  Forall P sep -> Forall (Forall P) ws -> Forall P (join sep ws).
Proof.
  intros Hs. induction 1 as [|w ws Hw _ IH]; [constructor|].
  destruct ws as [|w' ws']; [exact Hw|].
  change (join sep (w :: w' :: ws')) with (w ++ sep ++ join sep (w' :: ws')).
  apply Forall_app; split; [exact Hw|]. apply Forall_app; auto.
Qed.

(** ** Splitting newline-terminated lines *)

Lemma split_on_line sep l r :
  ~ In sep l -> split_on sep (l ++ sep :: r) = l :: split_on sep r.
Proof.
  induction l as [|c l IH]; intros Hn; simpl; [now rewrite Z.eqb_refl|].
  destruct (Z.eqb_spec c sep) as [->|_]; [exfalso; apply Hn; now left|].
  rewrite IH by (intros H; apply Hn; now right). reflexivity.
Qed.

(** Lines that do not contain the separator, each followed by it, split
    back into the lines and a last empty piece. *)
Lemma split_on_lines sep ls :
  Forall (fun l => ~ In sep l) ls ->
  split_on sep (concat (map (fun l => l ++ [sep]) ls)) = ls ++ [[]].
Proof.
  induction 1 as [|l ls Hl _ IH]; [reflexivity|].
  simpl. rewrite <- app_assoc. simpl. now rewrite split_on_line, IH.
Qed.
