(* ===== verification/JsNumber.v ===== *)
(** * JavaScript numbers on integers: doubles, [parseInt], [Number::toString]

    The program's numbers are IEEE doubles.  The integers the server
    handles (JSON numbers of the body, [parseInt] of a day header,
    token estimates, [Date.now()]) are modelled as the integer value of
    the double: [round_double] rounds a mathematical integer to the
    nearest double (ties to even), or overflows to an infinity.
    [parseInt] (ECMA-262 19.2.5) reads the digits and rounds their value;
    no digit gives [NaN].  [number_to_js] is [Number::toString]
    (ECMA-262 6.1.6.1.20) of an integral double: the shortest digit
    string [s] that reads back as the number, padded with zeros up to
    21 digits, and the exponent form [d.ddde+n] from 10^21 on.  Below
    2^53 every integer is a double and [number_to_js] is the plain
    decimal rendering ([number_to_js_safe]). *)

From Stdlib Require Import List ZArith Lia Bool.
From S2P Require Import Prelude JsString.
Import ListNotations.
Local Open Scope Z_scope.

(** ** Rounding to a double *)

(** A non-negative integer rounded to 53 significant bits, to nearest,
    ties to even; [None] when the result reaches 2^1024 (the rounding
    overflows to [Infinity]). *)
Definition round_pos (y : Z) : option Z :=
  if y <? 2 ^ 53 then Some y
  else
    let sh := Z.log2 y - 52 in
    let q := y / 2 ^ sh in
    let r := y mod 2 ^ sh in
    let half := 2 ^ (sh - 1) in
    let q' := if (half <? r) || ((r =? half) && Z.odd q) then q + 1 else q in
    let v := q' * 2 ^ sh in
    if v <? 2 ^ 1024 then Some v else None.

(** The double nearest to an integer, or [None] for an infinity. *)
Definition round_double (y : Z) : option Z :=
  if y <? 0 then option_map Z.opp (round_pos (- y)) else round_pos y.

(** A number value: [NaN], a finite integral double, or an infinity
    (its sign). *)
Inductive number := NNaN | NFin (z : Z) | NInf (neg : bool).

Definition to_number (y : Z) : number :=
  match round_double y with Some x => NFin x | None => NInf (y <? 0) end.

(** [parseInt(s)]: the digits' value rounded to a double. *)
Definition parseInt (s : jsstr) : number :=
  match parseInt_value s with None => NNaN | Some y => to_number y end.

(** ** [Number::toString] of an integral double *)

(** [x / 10^p] rounded to the nearest integer, ties to even. *)
Definition div_round (x p : Z) : Z :=
  let d := 10 ^ p in
  let q := x / d in
  let r := x mod d in
  if (d <? 2 * r) || ((2 * r =? d) && Z.odd q) then q + 1 else q.

Definition option_Z_eqb (a b : option Z) : bool :=
  match a, b with Some x, Some y => x =? y | None, None => true | _, _ => false end.

(** The least number of significant digits [k] whose rounding
    [s * 10^(n-k)] of [x] (of [n] digits) reads back as [x]: the value
    [s * 10^(n-k)]. *)
Fixpoint shortest_from (x n : Z) (k : nat) (fuel : nat) : Z :=
  match fuel with
  | O => x
  | S f =>
      let p := n - Z.of_nat k in
      let y := div_round x p * 10 ^ p in
      if option_Z_eqb (round_double y) (Some x) then y else shortest_from x n (S k) f
  end.

Definition ndigits (x : Z) : Z := Z.of_nat (length (number_to_string x)).

Definition shortest (x : Z) : Z := shortest_from x (ndigits x) 1 (Z.to_nat (ndigits x)).

(** [d.ddde+n]: the significant digits of [y], the exponent [n] the
    number of digits of [y] less one. *)
Definition exponent_form (y : Z) : jsstr :=
  let ds := number_to_string y in
  let m := rev (drop_while (fun c => c =? 48) (rev ds)) in
  match m with
  | [] => [48]
  | c :: rest =>
      c :: (match rest with [] => [] | _ => 46 :: rest end)
        ++ [101; 43] ++ number_to_string (Z.of_nat (length ds) - 1)
  end.

Definition pos_to_js (x : Z) : jsstr :=
  let y := shortest x in
  if y <? 10 ^ 21 then number_to_string y else exponent_form y.

Definition number_to_js (x : Z) : jsstr :=
  if x <? 0 then 45 :: pos_to_js (- x) else if x =? 0 then [48] else pos_to_js x.

(** ** Facts *)

Lemma round_pos_small y : 0 <= y < 2 ^ 53 -> round_pos y = Some y.
Proof. intros Hy. unfold round_pos. now replace (y <? 2 ^ 53) with true by lia. Qed.

(** Rounding a value from 2^53 on gives at least 2^53. *)
Lemma round_pos_large y v : 2 ^ 53 <= y -> round_pos y = Some v -> 2 ^ 53 <= v.
Proof.
  intros Hy H. unfold round_pos in H. replace (y <? 2 ^ 53) with false in H by lia.
  cbv zeta in H.
  assert (Hl : 53 <= Z.log2 y) by (rewrite <- (Z.log2_pow2 53) by lia; now apply Z.log2_le_mono).
  set (sh := Z.log2 y - 52) in *.
  assert (Hsh : 0 < 2 ^ sh) by (apply Z.pow_pos_nonneg; lia).
  assert (Hq : 2 ^ 52 <= y / 2 ^ sh).
  { apply Z.div_le_lower_bound; [lia|]. rewrite <- Z.pow_add_r by lia.
    replace (sh + 52) with (Z.log2 y) by (unfold sh; lia). apply Z.log2_spec. lia. }
  destruct (_ <? 2 ^ 1024) in H; [|discriminate]. injection H as <-.
  replace (2 ^ 53) with (2 ^ 52 * 2 ^ 1) by reflexivity.
  assert (2 ^ 1 <= 2 ^ sh) by (apply Z.pow_le_mono_r; lia).
  destruct (_ || _); nia.
Qed.

(** Below 2^53 a double is the only integer that rounds to it. *)
Lemma round_double_safe y x : Z.abs x < 2 ^ 53 -> round_double y = Some x -> y = x.
Proof.
  intros Hx H. unfold round_double in H. destruct (Z.ltb_spec y 0).
  - destruct (round_pos (- y)) as [v|] eqn:E; [|discriminate]. injection H as <-.
    destruct (Z.ltb_spec (- y) (2 ^ 53)).
    + rewrite round_pos_small in E by lia. injection E. lia.
    + apply round_pos_large in E; lia.
  - destruct (Z.ltb_spec y (2 ^ 53)).
    + rewrite round_pos_small in H by lia. congruence.
    + apply round_pos_large in H; lia.
Qed.

Lemma round_double_small y : Z.abs y < 2 ^ 53 -> round_double y = Some y.
Proof.
  intros Hy. unfold round_double. destruct (Z.ltb_spec y 0).
  - rewrite round_pos_small by lia. simpl. f_equal. lia.
  - apply round_pos_small. lia.
Qed.

(** The search returns a value that reads back as [x], or [x]. *)
Lemma shortest_from_spec x n k fuel :
  shortest_from x n k fuel = x \/ round_double (shortest_from x n k fuel) = Some x.
Proof.
  revert k. induction fuel as [|f IH]; intros k; [now left|]. cbn [shortest_from].
  destruct (option_Z_eqb _ _) eqn:E; [|apply IH].
  right. destruct (round_double _) as [v|]; [|discriminate]. simpl in E. apply Z.eqb_eq in E. now subst.
Qed.

Lemma shortest_safe x : Z.abs x < 2 ^ 53 -> shortest x = x.
Proof.
  intros Hx. unfold shortest. destruct (shortest_from_spec x (ndigits x) 1 (Z.to_nat (ndigits x))) as [E|E];
    [exact E|exact (round_double_safe _ _ Hx E)].
Qed.

(** Below 2^53, [Number::toString] is the plain decimal rendering. *)
Lemma number_to_js_safe x : Z.abs x < 2 ^ 53 -> number_to_js x = number_to_string x.
Proof.
  intros Hx. unfold number_to_js, pos_to_js.
  destruct (Z.ltb_spec x 0).
  - rewrite shortest_safe by lia. replace (- x <? 10 ^ 21) with true by lia.
    unfold number_to_string. replace (x <? 0) with true by lia. replace (- x <? 0) with false by lia.
    reflexivity.
  - destruct (Z.eqb_spec x 0) as [->|]; [reflexivity|].
    rewrite shortest_safe by lia. now replace (x <? 10 ^ 21) with true by lia.
Qed.
