(* ===== verification/JsRegExp.v ===== *)
(** * JavaScript regular expressions (the fragment [server.js] uses)

    The three regular expressions of [extractDaysFromText] use literal
    code units, character classes, greedy [*] and [+] over a class,
    capture groups and the [^] assertion.  [regex] is that fragment;
    [m] is the ECMAScript backtracking matcher in continuation-passing
    style (a matcher takes a state and a continuation and returns the
    final state of the first successful path, trying longer repetitions
    first); [exec] is [RegExp.prototype.exec] with its [lastIndex] state
    for global expressions.

    Case-insensitive matching ([i] flag, no [u] flag) compares
    Canonicalize(ch) = toUpperCase(ch), which never maps a non-ASCII
    code unit to an ASCII one; the only case-insensitive atoms of the
    source are the ASCII letters of ["Day"] and classes ([\d], [[:\s]],
    [[^\n]]) with no letters, so [canon] folds ASCII letters only and
    classes are tested directly. *)

From Stdlib Require Import String List ZArith Lia Bool.
From S2P Require Import Prelude JsString.
Import ListNotations.

Inductive regex :=
| RClass (p : Z -> bool)          (** one code unit of a class *)
| RStar (p : Z -> bool)           (** greedy [*] over a class *)
| RGroup (n : nat) (r : regex)    (** capture group number [n] *)
| RSeq (r1 r2 : regex)
| RBegin                          (** the [^] assertion (no [m] flag) *)
| REmpty.

Record mstate := MState { ms_pos : nat; ms_caps : list (nat * (nat * nat)) }.

Definition advance (st : mstate) : mstate := MState (S (ms_pos st)) (ms_caps st).

Definition set_cap (n i j : nat) (st : mstate) : mstate :=
  MState (ms_pos st) ((n, (i, j)) :: ms_caps st).

Fixpoint lookup_cap (n : nat) (caps : list (nat * (nat * nat))) : option (nat * nat) :=
  match caps with
  | [] => None
  | (n', ij) :: r => if Nat.eqb n n' then Some ij else lookup_cap n r
  end.

Section Matcher.
Variable input : jsstr.

Definition char_at (i : nat) : option Z := nth_error input i.

(** Greedy repetition: one more iteration first, the continuation
    after it fails.  Every iteration consumes a code unit, so
    [length input] iterations exhaust the input. *)
Fixpoint star_m (p : Z -> bool) (fuel : nat) (st : mstate)
    (k : mstate -> option mstate) : option mstate :=
  match fuel with
  | O => k st
  | S f =>
      match char_at (ms_pos st) with
      | Some c =>
          if p c then
            match star_m p f (advance st) k with
            | Some r => Some r
            | None => k st
            end
          else k st
      | None => k st
      end
  end.

Fixpoint m (r : regex) (st : mstate) (k : mstate -> option mstate) : option mstate :=
  match r with
  | RClass p =>
      match char_at (ms_pos st) with
      | Some c => if p c then k (advance st) else None
      | None => None
      end
  | RStar p => star_m p (length input) st k
  | RGroup n r1 => m r1 st (fun st' => k (set_cap n (ms_pos st) (ms_pos st') st'))
  | RSeq r1 r2 => m r1 st (fun st' => m r2 st' k)
  | RBegin => if Nat.eqb (ms_pos st) 0 then k st else None
  | REmpty => k st
  end.

Definition match_at (r : regex) (i : nat) : option mstate :=
  m r (MState i []) Some.

(** The scanning loop of RegExpBuiltinExec: try every start index
    from [i] on; past the end of the input the search fails. *)
Fixpoint scan (r : regex) (i : nat) (fuel : nat) : option (nat * mstate) :=
  match fuel with
  | O => None
  | S f =>
      if length input <? i then None
      else match match_at r i with
           | Some st => Some (i, st)
           | None => scan r (S i) f
           end
  end.
End Matcher.

(** ** Regular-expression objects and [exec] *)

Record regexp := RegExp { re_pattern : regex; re_global : bool; lastIndex : nat }.

Definition set_lastIndex (R : regexp) (i : nat) : regexp :=
  RegExp (re_pattern R) (re_global R) i.

(** The match array: [index], [match[0]] and the captures
    ([None] for a group that did not participate, [undefined]). *)
Record match_result := MatchResult {
  mr_index : nat;
  mr_end : nat;
  mr_caps : list (nat * (nat * nat))
}.

Definition mr_group (s : jsstr) (mr : match_result) (n : nat) : option jsstr :=
  match n with
  | O => Some (substring s (mr_index mr) (mr_end mr))
  | _ => option_map (fun ij => substring s (fst ij) (snd ij)) (lookup_cap n (mr_caps mr))
  end.

Definition mr_length (mr : match_result) : nat := mr_end mr - mr_index mr.

(** [R.exec(s)]: a global expression starts at [lastIndex] and stores
    the end of the match there, or 0 on failure; a non-global one
    starts at 0 and leaves [lastIndex] alone. *)
Definition exec (R : regexp) (s : jsstr) : option match_result * regexp :=
  let start := if re_global R then lastIndex R else 0 in
  match scan s (re_pattern R) start (S (length s)) with
  | None => (None, if re_global R then set_lastIndex R 0 else R)
  | Some (i, st) =>
      (Some (MatchResult i (ms_pos st) (ms_caps st)),
       if re_global R then set_lastIndex R (ms_pos st) else R)
  end.

(** [s.match(R)] for a non-global [R], used as a truth value. *)
Definition test_match (R : regexp) (s : jsstr) : bool :=
  match fst (exec R s) with Some _ => true | None => false end.

(** [s.replace(R, '')] for a non-global [R]: the first match is cut out. *)
Definition replace_empty (R : regexp) (s : jsstr) : jsstr :=
  match fst (exec R s) with
  | None => s
  | Some mr => firstn (mr_index mr) s ++ skipn (mr_end mr) s
  end.

(** ** Building patterns *)

Definition canon (c : Z) : Z := if (97 <=? c)%Z && (c <=? 122)%Z then (c - 32)%Z else c.

Definition lit (ic : bool) (c : Z) : regex :=
  RClass (fun x => if ic then Z.eqb (canon x) (canon c) else Z.eqb x c).

Fixpoint lits (ic : bool) (s : jsstr) : regex :=
  match s with
  | [] => REmpty
  | c :: r => RSeq (lit ic c) (lits ic r)
  end.

(** [[...]]: membership in the code units written in the class. *)
Definition in_class (members : jsstr) (c : Z) : bool := existsb (Z.eqb c) members.

(** [a+] for a class [a]. *)
Definition RPlus (p : Z -> bool) : regex := RSeq (RClass p) (RStar p).

(** The fewest code units a match of [r] consumes. *)
Fixpoint min_len (r : regex) : nat :=
  match r with
  | RClass _ => 1
  | RStar _ | RBegin | REmpty => 0
  | RGroup _ r1 => min_len r1
  | RSeq r1 r2 => min_len r1 + min_len r2
  end.

(** ** The matcher moves forward and stays within the input *)

Section MatcherFacts.
Variable input : jsstr.

Lemma char_at_lt i c : char_at input i = Some c -> i < length input.
Proof. unfold char_at. intros H. apply nth_error_Some. congruence. Qed.

Lemma star_m_spec p fuel st k res :
  star_m input p fuel st k = Some res ->
  exists st', k st' = Some res /\ ms_pos st <= ms_pos st'
              /\ ms_pos st' <= Nat.max (ms_pos st) (length input).
Proof.
  revert st. induction fuel as [|f IH]; intros st H; simpl in H.
  - exists st. split; [exact H | lia].
  - destruct (char_at input (ms_pos st)) as [c|] eqn:Hc;
      [|exists st; split; [exact H|lia]].
    apply char_at_lt in Hc.
    destruct (p c); [|exists st; split; [exact H|lia]].
    destruct (star_m input p f (advance st) k) as [r|] eqn:Hs.
    + inv H. destruct (IH _ Hs) as (st' & Hk & H1 & H2).
      exists st'. cbn [ms_pos advance set_cap min_len] in *. split; [exact Hk|lia].
    + exists st. split; [exact H|lia].
Qed.

Lemma m_spec r : forall st k res,
  m input r st k = Some res ->
  exists st', k st' = Some res /\ ms_pos st + min_len r <= ms_pos st'
              /\ ms_pos st' <= Nat.max (ms_pos st) (length input).
Proof.
  induction r as [p|p|n r1 IH|r1 IH1 r2 IH2| |]; intros st k res H; simpl in H.
  - destruct (char_at input (ms_pos st)) as [c|] eqn:Hc; [|discriminate].
    apply char_at_lt in Hc. destruct (p c); [|discriminate].
    exists (advance st). cbn [ms_pos advance min_len]. split; [exact H|lia].
  - destruct (star_m_spec _ _ _ _ _ H) as (st' & Hk & H1 & H2).
    exists st'. cbn [ms_pos min_len]. split; [exact Hk|lia].
  - destruct (IH _ _ _ H) as (st' & Hk & H1 & H2).
    eexists. split; [exact Hk|]. cbn [ms_pos set_cap min_len]. lia.
  - destruct (IH1 _ _ _ H) as (st1 & Hk1 & H1 & H2).
    destruct (IH2 _ _ _ Hk1) as (st2 & Hk2 & H3 & H4).
    exists st2. cbn [min_len]. split; [exact Hk2|lia].
  - destruct (Nat.eqb (ms_pos st) 0); [|discriminate].
    exists st. cbn [min_len]. split; [exact H|lia].
  - exists st. cbn [min_len]. split; [exact H|lia].
Qed.

Lemma match_at_bounds r i st :
  i <= length input -> match_at input r i = Some st ->
  i + min_len r <= ms_pos st <= length input.
Proof.
  unfold match_at. intros Hi H.
  destruct (m_spec _ _ _ _ H) as (st' & Hk & H1 & H2). inv Hk. simpl in *. lia.
Qed.

(** [scan] returns the leftmost index at or after [i] where [r] matches. *)
Lemma scan_spec r fuel : forall i j st,
  scan input r i fuel = Some (j, st) ->
  i <= j <= length input /\ match_at input r j = Some st
  /\ forall j', i <= j' < j -> match_at input r j' = None.
Proof.
  induction fuel as [|f IH]; intros i j st H; simpl in H; [discriminate|].
  destruct (Nat.ltb_spec (length input) i); [discriminate|].
  destruct (match_at input r i) as [st0|] eqn:Hm.
  - inv H. split; [lia|]. split; [exact Hm|]. intros; lia.
  - destruct (IH _ _ _ H) as (H1 & H2 & H3). split; [lia|]. split; [exact H2|].
    intros j' Hj'. destruct (Nat.eq_dec j' i); [subst; exact Hm|]. apply H3. lia.
Qed.

(** With enough fuel a failed scan means no match at any later index. *)
Lemma scan_none r fuel : forall i,
  length input + 1 - i <= fuel -> scan input r i fuel = None ->
  forall j, i <= j <= length input -> match_at input r j = None.
Proof.
  induction fuel as [|f IH]; intros i Hf H j Hj; simpl in H; [lia|].
  destruct (Nat.ltb_spec (length input) i); [lia|].
  destruct (match_at input r i) as [st0|] eqn:Hm; [discriminate|].
  destruct (Nat.eq_dec j i); [subst; exact Hm|]. apply (IH (S i)); auto; lia.
Qed.
End MatcherFacts.

(** What [exec] returns on a global expression. *)
Lemma exec_global_some R s mr R' :
  re_global R = true -> exec R s = (Some mr, R') ->
  lastIndex R <= mr_index mr <= length s
  /\ mr_index mr + min_len (re_pattern R) <= mr_end mr <= length s
  /\ R' = set_lastIndex R (mr_end mr).
Proof.
  unfold exec. intros Hg. rewrite Hg.
  destruct (scan s (re_pattern R) (lastIndex R) (S (length s))) as [[i st]|] eqn:Hs;
    [|discriminate].
  intros H. inv H. simpl.
  destruct (scan_spec _ _ _ _ _ _ Hs) as (H1 & H2 & _).
  pose proof (match_at_bounds _ _ _ _ (proj2 H1) H2). repeat split; lia.
Qed.

Lemma exec_global_none R s R' :
  re_global R = true -> exec R s = (None, R') -> R' = set_lastIndex R 0.
Proof.
  unfold exec. intros Hg. rewrite Hg.
  destruct (scan s (re_pattern R) (lastIndex R) (S (length s))) as [[i st]|];
    intros H; inv H; reflexivity.
Qed.

(** ** Anchored expressions *)

Section Anchored.
Variable input : jsstr.

(** A greedy star whose continuation always succeeds stops at the
    first code unit outside the class. *)
Lemma star_m_max p fuel : forall st,
  length input - ms_pos st <= fuel ->
  exists res, star_m input p fuel st Some = Some res
    /\ ms_caps res = ms_caps st
    /\ skipn (ms_pos res) input = drop_while p (skipn (ms_pos st) input).
Proof.
  induction fuel as [|f IH]; intros st Hf; simpl.
  - exists st. rewrite skipn_all2 by lia. auto.
  - unfold char_at. destruct (nth_error input (ms_pos st)) as [c|] eqn:Hc.
    + pose proof (char_at_lt _ _ _ Hc) as Hlt.
      rewrite (skipn_nth_error_cons _ _ _ Hc). simpl. destruct (p c) eqn:Hp.
      * destruct (IH (advance st)) as (res & H1 & H2 & H3); [simpl; lia|].
        rewrite H1. exists res. auto.
      * exists st. rewrite (skipn_nth_error_cons _ _ _ Hc). auto.
    + exists st. rewrite (skipn_nth_error_none _ _ Hc). auto.
Qed.

Lemma scan_begin_late r fuel : forall j, 0 < j -> scan input (RSeq RBegin r) j fuel = None.
Proof.
  induction fuel as [|f IH]; intros j Hj; simpl; [reflexivity|].
  destruct (length input <? j); [reflexivity|].
  unfold match_at. simpl. destruct j as [|j]; [lia|]. simpl. apply IH. lia.
Qed.

Lemma exec_begin r :
  exec (RegExp (RSeq RBegin r) false 0) input
  = (option_map (fun st => MatchResult 0 (ms_pos st) (ms_caps st)) (match_at input (RSeq RBegin r) 0),
     RegExp (RSeq RBegin r) false 0).
Proof.
  unfold exec. simpl. destruct (match_at input (RSeq RBegin r) 0) as [st|] eqn:E; [reflexivity|].
  rewrite scan_begin_late by lia. reflexivity.
Qed.
End Anchored.

(** "/^[c]/" tests the first code unit. *)
Lemma test_match_begin_class p s :
  test_match (RegExp (RSeq RBegin (RClass p)) false 0) s
  = match s with c :: _ => p c | [] => false end.
Proof.
  unfold test_match. rewrite exec_begin. unfold match_at. simpl.
  unfold char_at. destruct s as [|c r]; simpl; [reflexivity|]. now destruct (p c).
Qed.

(** "s.replace(/^[c]\s*/, '')" removes a first code unit of the class and
    the spaces after it. *)
Lemma replace_begin_class_spaces p s :
  replace_empty (RegExp (RSeq RBegin (RSeq (RClass p) (RStar is_space))) false 0) s
  = match s with c :: r => if p c then drop_while is_space r else s | [] => [] end.
Proof.
  destruct s as [|c r]; [reflexivity|].
  unfold replace_empty. rewrite exec_begin. unfold match_at.
  cbn [m ms_pos Nat.eqb]. unfold char_at at 1. cbn [nth_error].
  destruct (p c); [|reflexivity].
  destruct (star_m_max (c :: r) is_space (length (c :: r)) (advance (MState 0 [])))
    as (res & H1 & _ & H3); [simpl; lia|].
  rewrite H1. cbn. now rewrite H3.
Qed.

(** ** The first code unit of a match *)

Fixpoint first_class (r : regex) : option (Z -> bool) :=
  match r with
  | RClass p => Some p
  | RSeq r1 _ | RGroup _ r1 => first_class r1
  | _ => None
  end.

Lemma m_first_class input r : forall p st k res,
  first_class r = Some p -> m input r st k = Some res ->
  exists c, char_at input (ms_pos st) = Some c /\ p c = true.
Proof.
  induction r as [q|q|n r1 IH|r1 IH1 r2 IH2| |]; intros p st k res Hf H;
    simpl in *; try discriminate.
  - inv Hf. destruct (char_at input (ms_pos st)) as [c|]; [|discriminate].
    exists c. destruct (p c); [auto|discriminate].
  - eapply IH; eauto.
  - eapply IH1; eauto.
Qed.

(** ** A big-step reading of the matcher

    [matches input r st st'] holds when [r] can match from [st] and
    leave [st']; the backtracking matcher only ever continues from
    such states ([m_matches]), which lets properties of captures be
    read off the pattern. *)

Inductive matches (input : jsstr) : regex -> mstate -> mstate -> Prop :=
| mt_class p st c :
    char_at input (ms_pos st) = Some c -> p c = true ->
    matches input (RClass p) st (advance st)
| mt_star p st n :
    ms_pos st + n <= length input ->
    Forall (fun c => p c = true) (firstn n (skipn (ms_pos st) input)) ->
    matches input (RStar p) st (MState (ms_pos st + n) (ms_caps st))
| mt_group n r st st' :
    matches input r st st' ->
    matches input (RGroup n r) st (set_cap n (ms_pos st) (ms_pos st') st')
| mt_seq r1 r2 st st1 st2 :
    matches input r1 st st1 -> matches input r2 st1 st2 ->
    matches input (RSeq r1 r2) st st2
| mt_begin st : ms_pos st = 0 -> matches input RBegin st st
| mt_empty st : matches input REmpty st st.

Lemma star_m_matches input p fuel : forall st k res,
  star_m input p fuel st k = Some res ->
  exists n, ms_pos st + n <= Nat.max (ms_pos st) (length input)
    /\ Forall (fun c => p c = true) (firstn n (skipn (ms_pos st) input))
    /\ k (MState (ms_pos st + n) (ms_caps st)) = Some res.
Proof.
  induction fuel as [|f IH]; intros st k res H; simpl in H.
  - exists 0. rewrite Nat.add_0_r. destruct st. simpl. repeat split; auto; lia.
  - destruct (char_at input (ms_pos st)) as [c|] eqn:Hc.
    2: { exists 0. rewrite Nat.add_0_r. destruct st. simpl. repeat split; auto; lia. }
    pose proof (char_at_lt _ _ _ Hc) as Hlt.
    destruct (p c) eqn:Hp.
    2: { exists 0. rewrite Nat.add_0_r. destruct st. simpl. repeat split; auto; lia. }
    destruct (star_m input p f (advance st) k) as [r|] eqn:Hs.
    + inv H. destruct (IH _ _ _ Hs) as (n & H1 & H2 & H3). exists (S n).
      cbn [ms_pos advance] in *. unfold char_at in Hc.
      rewrite (skipn_nth_error_cons _ _ _ Hc). simpl firstn.
      replace (ms_pos st + S n) with (S (ms_pos st) + n) by lia.
      split; [lia|]. split; [constructor; auto|exact H3].
    + exists 0. rewrite Nat.add_0_r. destruct st. simpl. repeat split; auto; lia.
Qed.

Lemma m_matches input r : forall st k res,
  ms_pos st <= length input ->
  m input r st k = Some res ->
  exists st', matches input r st st' /\ ms_pos st' <= length input /\ k st' = Some res.
Proof.
  induction r as [p|p|n r1 IH|r1 IH1 r2 IH2| |]; intros st k res Hle H; simpl in H.
  - destruct (char_at input (ms_pos st)) as [c|] eqn:Hc; [|discriminate].
    destruct (p c) eqn:Hp; [|discriminate].
    pose proof (char_at_lt _ _ _ Hc).
    exists (advance st). split; [eapply mt_class; eauto|]. simpl. split; [lia|exact H].
  - destruct (star_m_matches _ _ _ _ _ _ H) as (n & H1 & H2 & H3).
    rewrite Nat.max_r in H1 by exact Hle. exists (MState (ms_pos st + n) (ms_caps st)).
    split; [apply mt_star; [lia|exact H2]|]. simpl. split; [lia|exact H3].
  - destruct (IH _ _ _ Hle H) as (st' & H1 & H2 & H3).
    eexists. split; [apply mt_group; exact H1|]. simpl. split; [exact H2|exact H3].
  - destruct (IH1 _ _ _ Hle H) as (st1 & H1 & H2 & H3).
    destruct (IH2 _ _ _ H2 H3) as (st2 & H4 & H5 & H6).
    exists st2. split; [eapply mt_seq; eauto|auto].
  - destruct (Nat.eqb_spec (ms_pos st) 0); [|discriminate].
    exists st. split; [apply mt_begin; auto|auto].
  - exists st. split; [apply mt_empty|auto].
Qed.

Lemma match_at_matches input r i st :
  i <= length input -> match_at input r i = Some st ->
  matches input r (MState i []) st.
Proof.
  unfold match_at. intros Hi H.
  destruct (m_matches input r (MState i []) Some st Hi H) as (st' & H1 & _ & H3). now inv H3.
Qed.

(** A pattern without groups leaves the captures alone. *)
Fixpoint no_groups (r : regex) : bool :=
  match r with
  | RGroup _ _ => false
  | RSeq r1 r2 => no_groups r1 && no_groups r2
  | _ => true
  end.

Lemma matches_no_groups input r st st' :
  no_groups r = true -> matches input r st st' -> ms_caps st' = ms_caps st.
Proof.
  intros Hg H. induction H; simpl in *; try discriminate; auto.
  apply andb_true_iff in Hg as [G1 G2]. rewrite IHmatches2, IHmatches1; auto.
Qed.

Lemma matches_pos input r st st' : matches input r st st' -> ms_pos st <= ms_pos st'.
Proof. induction 1; simpl; lia. Qed.

(** ** Inversion of [matches] *)

Section MatchesInv.
Variable input : jsstr.

Lemma matches_seq_inv r1 r2 st st' :
  matches input (RSeq r1 r2) st st' -> exists st1, matches input r1 st st1 /\ matches input r2 st1 st'.
Proof. intros H. inv H. eauto. Qed.

Lemma matches_group_inv n r st st' :
  matches input (RGroup n r) st st' ->
  exists st1, matches input r st st1 /\ st' = set_cap n (ms_pos st) (ms_pos st1) st1.
Proof. intros H. inv H. eauto. Qed.

Lemma matches_star_inv p st st' :
  matches input (RStar p) st st' ->
  exists n, ms_pos st + n <= length input
    /\ Forall (fun c => p c = true) (firstn n (skipn (ms_pos st) input))
    /\ st' = MState (ms_pos st + n) (ms_caps st).
Proof. intros H. inv H. eauto. Qed.

Lemma matches_class_inv p st st' :
  matches input (RClass p) st st' ->
  exists c, char_at input (ms_pos st) = Some c /\ p c = true /\ st' = advance st.
Proof. intros H. inv H. eauto. Qed.

(** [a+] matches a non-empty run of the class. *)
Lemma matches_plus_inv p st st' :
  matches input (RPlus p) st st' ->
  exists n, ms_pos st + S n <= length input
    /\ Forall (fun c => p c = true) (firstn (S n) (skipn (ms_pos st) input))
    /\ st' = MState (ms_pos st + S n) (ms_caps st).
Proof.
  intros H. apply matches_seq_inv in H as (st1 & H1 & H2).
  apply matches_class_inv in H1 as (c & Hc & Hp & ->).
  apply matches_star_inv in H2 as (n & Hn & Hall & ->).
  exists n. cbn [ms_pos ms_caps advance] in *. unfold char_at in Hc.
  rewrite (skipn_nth_error_cons _ _ _ Hc). simpl firstn.
  repeat split; [lia|constructor; auto|f_equal; lia].
Qed.
End MatchesInv.

Lemma lits_no_groups ic s : no_groups (lits ic s) = true.
Proof. induction s; simpl; auto. Qed.
