(* ===== verification/DayParser.v ===== *)
(** * TextSegmentParser: [extractDaysFromText] (server.js lines 223-258)

    [extractDaysFromText] scans the AI text with the global,
    case-insensitive [dayRegex] (two asterisks, [Day ], a digit group,
    a run of colons and spaces, a group of non-newline code units, two
    asterisks)
    and, for each header, cuts the text from the header's start to the
    next header's start, keeps the lines whose trimmed form starts with a
    marker code unit, strips the marker and the spaces after it, drops
    empty results and keeps the first five.  The loop is [extract_loop]:
    the [RegExp] object and its [lastIndex] are explicit state, the
    second [exec] (the look-ahead for [dayEnd]) and the reset of
    [lastIndex] included.  [days_spec] is the single-pass algorithm of
    the spec (list the matches, pair each with the next): the main
    theorem is that the loop computes it, so no header is skipped. *)

From Stdlib Require Import String List ZArith Lia Bool.
From S2P Require Import Prelude JsString JsNumber JsRegExp.
Import ListNotations.

(** ** Data *)

(** [{ day, title, activities }] as built at lines 246-250: [day] is the
    number [parseInt] returns. *)
Record DayPlan := MkDay { day : number; title : jsstr; activities : list jsstr }.

(** ** The three regular expressions *)

(** [dayRegex] of line 226, flags [g] and [i]: literal [**Day ], group 1
    [\d+], [[:\s]] repeated, group 2 [[^\n]] repeated, literal [**]. *)
Definition day_prefix : jsstr := Eval vm_compute in js "**Day ".
Definition bold_mark : jsstr := Eval vm_compute in js "**".

Definition dayRegex_pattern : regex :=
  RSeq (lits true day_prefix)
    (RSeq (RGroup 1 (RPlus is_ascii_digit))
      (RSeq (RStar (fun c => Z.eqb c 58 || is_space c))
        (RSeq (RGroup 2 (RStar (fun c => negb (Z.eqb c LF))))
          (lits true bold_mark)))).

Definition dayRegex_at (i : nat) : regexp := RegExp dayRegex_pattern true i.

(** A regular-expression literal evaluates to a fresh object, so each
    call of [extractDaysFromText] starts with [lastIndex = 0]. *)
Definition dayRegex : regexp := dayRegex_at 0.

(** The class of lines 242-243, as the source file spells it: the
    emoji of the original were saved as their UTF-8 bytes read in a
    single-byte code page, so the class holds the resulting code units
    (and the plain [-]). *)
Definition marker_class : jsstr := Eval vm_compute in js "ğŸŒ…ğŸ›ï¸ğŸ½ï¸ğŸ¨ğŸï¸ğŸ­ğŸ›ï¸â˜•âœˆï¸ğŸ“â€¢-".

(** "/^[...]/" (line 242) and "/^[...]\s*/" (line 243), not global. *)
Definition markerTest : regexp :=
  RegExp (RSeq RBegin (RClass (in_class marker_class))) false 0.

Definition markerStrip : regexp :=
  RegExp (RSeq RBegin (RSeq (RClass (in_class marker_class)) (RStar is_space))) false 0.

(** ** Operations *)

(** [match[n]] of a successful match; both groups of [dayRegex] always
    participate, so the empty default is never used. *)
Definition group (text : jsstr) (mr : match_result) (n : nat) : jsstr :=
  match mr_group text mr n with Some g => g | None => [] end.

(** The test of line 242: [line.trim().match(/^[...]/)]. *)
Definition is_activity_line (line : jsstr) : bool := test_match markerTest (trim line).

(** The map of line 243: [line.replace(/^[...]\s*/, '').trim()]. *)
Definition clean_activity (line : jsstr) : jsstr := trim (replace_empty markerStrip line).

(** Lines 240-244 and the [slice(0, 5)] of line 249. *)
Definition activities_of (dayContent : jsstr) : list jsstr :=
  firstn 5
    (filter (fun activity => Nat.ltb 0 (length activity))
      (map clean_activity (filter is_activity_line (split_on LF dayContent)))).

(** Lines 230-250 for one header: [day] is [parseInt(match[1])], the
    digits' value rounded to a double, [title] is [match[2].trim()], and the content runs from
    the header's start [dayStart] to [dayEnd]. *)
Definition day_of (text : jsstr) (mr : match_result) (dayEnd : nat) : DayPlan :=
  MkDay (parseInt (group text mr 1))
        (trim (group text mr 2))
        (activities_of (substring text (mr_index mr) dayEnd)).

(** The [while] loop of lines 229-251, the [RegExp] object [R] threaded
    through it.  Each iteration: [match = R.exec(text)]; on [null] the
    loop ends; otherwise [nextDayMatch = R.exec(text)] (which moves
    [lastIndex] again), [dayEnd] is its index or [text.length],
    [lastIndex] is reset to [dayStart + match[0].length], and the day
    is pushed.  [None] means the fuel ran out: [extract_loop_segments]
    shows [S (length text)] iterations always suffice. *)
Fixpoint extract_loop (fuel : nat) (text : jsstr) (R : regexp) (days : list DayPlan)
    : option (list DayPlan) :=
  match fuel with
  | O => None
  | S f =>
      match exec R text with
      | (None, _) => Some days
      | (Some mr, R1) =>
          let dayStart := mr_index mr in
          let '(nextDayMatch, R2) := exec R1 text in
          let dayEnd :=
            match nextDayMatch with Some n => mr_index n | None => length text end in
          let R3 := set_lastIndex R2 (dayStart + mr_length mr) in
          extract_loop f text R3 (days ++ [day_of text mr dayEnd])
      end
  end.

(** The structure returned when no header is found (lines 253-257). *)
Definition skeleton : list DayPlan :=
  [ MkDay (NFin 1%Z) (js "Arrival & Exploration") [js "Check-in"; js "City tour"; js "Local dining"];
    MkDay (NFin 2%Z) (js "Adventure & Culture") [js "Museums"; js "Activities"; js "Entertainment"];
    MkDay (NFin 3%Z) (js "Relaxation & Departure") [js "Shopping"; js "Cafes"; js "Check-out"] ].

Definition extractDaysFromText (text : jsstr) : list DayPlan :=
  let days :=
    match extract_loop (S (length text)) text dayRegex [] with
    | Some d => d
    | None => []
    end in
  match days with [] => skeleton | _ => days end.

(** ** The single-pass algorithm of the specification

    First list every header by a forward pass in which each search
    starts where the previous match ended; then pair each header with
    the start of the next one. *)
Fixpoint headers_from (fuel : nat) (text : jsstr) (i : nat) : list match_result :=
  match fuel with
  | O => []
  | S f =>
      match fst (exec (dayRegex_at i) text) with
      | None => []
      | Some mr => mr :: headers_from f text (mr_end mr)
      end
  end.

Definition headers (text : jsstr) : list match_result :=
  headers_from (S (length text)) text 0.

Fixpoint segments (text : jsstr) (hs : list match_result) : list DayPlan :=
  match hs with
  | [] => []
  | h :: rest =>
      day_of text h (match rest with h' :: _ => mr_index h' | [] => length text end)
        :: segments text rest
  end.

Definition days_spec (text : jsstr) : list DayPlan :=
  match headers text with
  | [] => skeleton
  | hs => segments text hs
  end.

(** ** What [exec] does on [dayRegex] *)

Lemma min_len_dayRegex : min_len dayRegex_pattern = 9%nat.
Proof. reflexivity. Qed.

Lemma exec_day_cases text i :
  (exists mr, exec (dayRegex_at i) text = (Some mr, dayRegex_at (mr_end mr))
              /\ i <= mr_index mr /\ mr_index mr + 9 <= mr_end mr <= length text)
  \/ exec (dayRegex_at i) text = (None, dayRegex_at 0).
Proof.
  destruct (exec (dayRegex_at i) text) as [[mr|] R'] eqn:E; [left|right].
  - destruct (exec_global_some (dayRegex_at i) _ _ _ eq_refl E) as (H1 & H2 & ->).
    change (re_pattern (dayRegex_at i)) with dayRegex_pattern in H2.
    rewrite min_len_dayRegex in H2. exists mr. unfold set_lastIndex. simpl in *. repeat split; auto; lia.
  - now rewrite (exec_global_none (dayRegex_at i) _ _ eq_refl E).
Qed.

Lemma exec_day_scan text i :
  exec (dayRegex_at i) text =
  match scan text dayRegex_pattern i (S (length text)) with
  | None => (None, dayRegex_at 0)
  | Some (j, st) => (Some (MatchResult j (ms_pos st) (ms_caps st)), dayRegex_at (ms_pos st))
  end.
Proof. reflexivity. Qed.

(** ** The loop computes the single-pass algorithm *)

Lemma set_lastIndex_day j k : set_lastIndex (dayRegex_at j) k = dayRegex_at k.
Proof. reflexivity. Qed.

Lemma extract_loop_headers text : forall f i days,
  S (length text - i) <= f ->
  extract_loop f text (dayRegex_at i) days
  = Some (days ++ segments text (headers_from f text i)).
Proof.
  induction f as [|f IH]; intros i days Hf; [lia|].
  simpl extract_loop. simpl headers_from.
  destruct (exec_day_cases text i) as [(mr & E & H1 & H2)|E]; rewrite E;
    [|simpl; now rewrite app_nil_r].
  simpl fst. cbn iota.
  destruct f as [|f']; [lia|].
  replace (mr_index mr + mr_length mr)%nat with (mr_end mr) by (unfold mr_length; lia).
  destruct (exec_day_cases text (mr_end mr)) as [(mr2 & E2 & H3 & H4)|E2]; rewrite E2;
    rewrite set_lastIndex_day, IH by lia; simpl headers_from; rewrite E2; simpl;
    now rewrite <- app_assoc.
Qed.

Lemma segments_nil text hs : segments text hs = [] -> hs = [].
Proof. destruct hs; [reflexivity|discriminate]. Qed.



(** ** Main theorems of the parser *)

(** The loop, from [lastIndex] 0 with [S (length text)] fuel, returns
    the segments of the header list. *)
Lemma extract_loop_segments text :
  extract_loop (S (length text)) text dayRegex [] = Some (segments text (headers text)).
Proof. apply extract_loop_headers. lia. Qed.

(** C7: The loop of [extractDaysFromText] always finishes within
    [S (length text)] iterations, and what it accumulates is the list
    of segments of the single-pass algorithm: the look-ahead [exec] and
    the reset of [lastIndex] skip no header. *)
Theorem extract_loop_total text :
  extract_loop (S (length text)) text dayRegex [] = Some (segments text (headers text)).
Proof. apply extract_loop_segments. Qed.

(** [extractDaysFromText] computes [days_spec]. *)
Lemma extractDaysFromText_eq_spec text : extractDaysFromText text = days_spec text.
Proof.
  unfold extractDaysFromText, days_spec. rewrite extract_loop_segments.
  destruct (headers text) as [|h hs] eqn:E; [reflexivity|].
  destruct (segments text (h :: hs)) eqn:E2; [discriminate|]. reflexivity.
Qed.

(** C6: [extractDaysFromText] refines the specification's algorithm: list
    every header match, pair each with the next header's start (or the
    end of the text), and fall back to the fixed skeleton when there is
    no header. *)
Theorem extractDaysFromText_refines text : extractDaysFromText text = days_spec text.
Proof. apply extractDaysFromText_eq_spec. Qed.


(** ** The activity lines *)

(** A line is an activity line when its first code unit after trimming
    is in the class; the cleaning removes the marker only when it is the
    line's very first code unit. *)
Definition starts_with_marker (s : jsstr) : bool :=
  match s with c :: _ => in_class marker_class c | [] => false end.

Definition strip_marker (s : jsstr) : jsstr :=
  match s with c :: r => if in_class marker_class c then trim_start r else s | [] => [] end.

Lemma is_activity_line_spec line : is_activity_line line = starts_with_marker (trim line).
Proof. apply test_match_begin_class. Qed.

Lemma clean_activity_spec line : clean_activity line = trim (strip_marker line).
Proof. unfold clean_activity. f_equal. apply replace_begin_class_spaces. Qed.

Lemma marker_class_no_space : forallb (fun c => negb (is_space c)) marker_class = true.
Proof. vm_compute. reflexivity. Qed.

Lemma marker_not_space c : in_class marker_class c = true -> is_space c = false.
Proof.
  intros H. unfold in_class in H. apply existsb_exists in H as (x & Hx & E).
  apply Z.eqb_eq in E. subst x.
  pose proof (proj1 (forallb_forall _ _) marker_class_no_space c Hx) as Hc.
  simpl in Hc. now destruct (is_space c).
Qed.

(** C21: The activities of a day are the lines of its content whose trimmed
    form starts with a marker code unit, each with the marker and the
    spaces after it removed when the marker is the line's first code
    unit, then trimmed; empty results are dropped and the first five
    kept. *)
Theorem activities_of_spec content :
  activities_of content
  = firstn 5 (filter (fun a => Nat.ltb 0 (length a))
      (map (fun l => trim (strip_marker l))
        (filter (fun l => starts_with_marker (trim l)) (split_on LF content)))).
Proof.
  unfold activities_of. do 2 f_equal.
  rewrite (map_ext _ _ clean_activity_spec). f_equal.
  apply filter_ext. exact is_activity_line_spec.
Qed.

(** ** Well-formedness of every day *)

Definition day_wf (d : DayPlan) : Prop :=
  length (activities d) <= 5
  /\ Forall (fun a => a <> [] /\ trimmed a) (activities d)
  /\ trimmed (title d).

Lemma activities_of_wf content :
  length (activities_of content) <= 5
  /\ Forall (fun a => a <> [] /\ trimmed a) (activities_of content).
Proof.
  split; [apply firstn_le_length|]. apply Forall_firstn.
  apply Forall_forall. intros a Ha. apply filter_In in Ha as [Ha Hlen].
  apply in_map_iff in Ha as (l & <- & _). split.
  - intros E. rewrite E in Hlen. discriminate.
  - apply trim_trimmed.
Qed.

Lemma day_of_wf text mr e : day_wf (day_of text mr e).
Proof.
  unfold day_wf, day_of. simpl. pose proof (activities_of_wf (substring text (mr_index mr) e)).
  intuition auto using trim_trimmed.
Qed.

Lemma segments_wf text hs : Forall day_wf (segments text hs).
Proof. induction hs as [|h hs IH]; simpl; constructor; auto using day_of_wf. Qed.

Definition day_wfb (d : DayPlan) : bool :=
  Nat.leb (length (activities d)) 5
  && forallb (fun a => negb (Nat.eqb (length a) 0) && trimmedb a) (activities d)
  && trimmedb (title d).

Lemma day_wfb_spec d : day_wfb d = true -> day_wf d.
Proof.
  unfold day_wfb, day_wf. intros H. apply andb_true_iff in H as [H H3].
  apply andb_true_iff in H as [H1 H2]. apply Nat.leb_le in H1.
  split; [exact H1|]. split; [|now apply trimmedb_spec].
  apply Forall_forall. intros a Ha.
  apply (proj1 (forallb_forall _ _) H2), andb_true_iff in Ha as [Ha1 Ha2].
  split; [|now apply trimmedb_spec].
  intros ->. discriminate.
Qed.

Lemma skeleton_wf : Forall day_wf skeleton.
Proof.
  apply Forall_forall. intros d Hd. apply day_wfb_spec.
  revert d Hd. apply forallb_forall. vm_compute. reflexivity.
Qed.

(** C15: Every day [extractDaysFromText] returns has at most five activities,
    each non-empty and trimmed, and a trimmed title. *)
Theorem extractDaysFromText_wf text : Forall day_wf (extractDaysFromText text).
Proof.
  rewrite extractDaysFromText_eq_spec. unfold days_spec.
  destruct (headers text); [apply skeleton_wf|apply segments_wf].
Qed.

(** ** No header, no day *)

Lemma canon_eq_asterisk c : canon c = canon ASTERISK -> c = ASTERISK.
Proof.
  unfold canon, ASTERISK. simpl.
  destruct ((97 <=? c)%Z && (c <=? 122)%Z) eqn:E; [|auto].
  apply andb_true_iff in E as [E1 E2]. apply Z.leb_le in E1. lia.
Qed.

Lemma match_at_day_asterisk text j st :
  match_at text dayRegex_pattern j = Some st -> nth_error text j = Some ASTERISK.
Proof.
  unfold match_at. intros H.
  destruct (m_first_class text dayRegex_pattern _ _ _ _ eq_refl H) as (c & Hc & Hp).
  simpl in Hc. apply Z.eqb_eq, canon_eq_asterisk in Hp. now subst c.
Qed.

(** C26: A text without an asterisk has no header, and [extractDaysFromText]
    returns the fixed three-day skeleton. *)
Theorem extract_no_asterisk text :
  ~ In ASTERISK text -> extractDaysFromText text = skeleton.
Proof.
  intros Hn. rewrite extractDaysFromText_eq_spec. unfold days_spec, headers.
  simpl headers_from. rewrite exec_day_scan.
  destruct (scan text dayRegex_pattern 0 (S (length text))) as [[j st]|] eqn:Hs;
    [|reflexivity].
  destruct (scan_spec _ _ _ _ _ _ Hs) as (_ & H & _).
  apply match_at_day_asterisk, nth_error_In in H. contradiction.
Qed.

(** ** Indented bullets keep their marker *)

Lemma drop_spaces_app sp c rest :
  Forall (fun x => is_space x = true) sp -> is_space c = false ->
  trim_start (sp ++ c :: rest) = c :: rest.
Proof.
  intros Hsp Hc. unfold trim_start. rewrite drop_while_app_stop by exact Hc.
  induction Hsp as [|x sp Hx _ IH]; [reflexivity|]. simpl. now rewrite Hx.
Qed.

Lemma trim_marker_line sp c rest :
  Forall (fun x => is_space x = true) sp -> in_class marker_class c = true ->
  trim (sp ++ c :: rest) = c :: trim_end rest.
Proof.
  intros Hsp Hc. pose proof (marker_not_space c Hc) as Hns. unfold trim.
  rewrite drop_spaces_app by assumption. now apply trim_end_cons_stop.
Qed.

(** C27: A line whose marker is preceded by spaces is an activity line (the
    test trims the line) but the cleaning leaves the marker in place (the
    [replace] runs on the untrimmed line): the activity is the trimmed
    line, marker first. *)
Theorem indented_marker_kept sp c rest :
  sp <> [] -> Forall (fun x => is_space x = true) sp -> in_class marker_class c = true ->
  is_activity_line (sp ++ c :: rest) = true
  /\ clean_activity (sp ++ c :: rest) = c :: trim_end rest.
Proof.
  intros Hne Hsp Hc. split.
  - rewrite is_activity_line_spec, trim_marker_line by assumption. exact Hc.
  - rewrite clean_activity_spec. destruct sp as [|s sp']; [congruence|].
    inversion Hsp as [|? ? Hs _]; subst.
    assert (Hs' : in_class marker_class s = false).
    { destruct (in_class marker_class s) eqn:E; [|reflexivity].
      apply marker_not_space in E. congruence. }
    rewrite <- app_comm_cons. unfold strip_marker. rewrite Hs', app_comm_cons.
    now apply trim_marker_line.
Qed.

Lemma indented_marker_kept_witness :
  is_activity_line ([32; 32] ++ 45 :: js " Walk")%Z = true
  /\ clean_activity ([32; 32] ++ 45 :: js " Walk")%Z = (45 :: trim_end (js " Walk"))%Z.
Proof.
  apply indented_marker_kept; [discriminate|repeat constructor|vm_compute; reflexivity].
Defined.

(** ** Concrete behaviour *)

(** The scenario of the specification: two bold headers with dash
    bullets give two days in text order with their own activities. *)
Example two_headers_two_days :
  extractDaysFromText (js "**Day 1: Arrival**
- Check in
- Old town walk
**Day 2: Adventure**
- Hike
- Dinner")
  = [MkDay (NFin 1%Z) (js "Arrival") [js "Check in"; js "Old town walk"];
     MkDay (NFin 2%Z) (js "Adventure") [js "Hike"; js "Dinner"]].
Proof. vm_compute. reflexivity. Qed.

(** The content of a day starts at the header itself, not after it: a
    header whose separator run crosses a newline contributes its own
    second line as an activity. *)
Example header_line_in_content :
  extractDaysFromText (js "**Day 1:
- Rest**")
  = [MkDay (NFin 1%Z) (js "- Rest") [js "Rest**"]].
Proof. vm_compute. reflexivity. Qed.

(** [Day 0] is accepted as a header: the day number is not required to
    be positive. *)
Example day_zero_accepted :
  map day (extractDaysFromText (js "**Day 0: Rest**")) = [NFin 0%Z].
Proof. vm_compute. reflexivity. Qed.

Lemma extract_no_asterisk_witness :
  extractDaysFromText (js "Day 1: Arrival") = skeleton.
Proof.
  apply extract_no_asterisk. vm_compute. intros H.
  repeat (destruct H as [H|H]; [discriminate|]). exact H.
Defined.

(** ** The captures of a header *)









(** ** Bullets outside the Basic Multilingual Plane *)

Definition is_surrogate (c : Z) : bool := (55296 <=? c)%Z && (c <=? 57343)%Z.

Lemma marker_class_no_surrogate c : is_surrogate c = true -> in_class marker_class c = false.
Proof.
  intros Hc. unfold in_class. apply not_true_is_false. intros H.
  apply existsb_exists in H as (x & Hx & E). apply Z.eqb_eq in E. subst x.
  unfold is_surrogate in Hc. apply andb_true_iff in Hc as [H1 H2].
  apply Z.leb_le in H1. apply Z.leb_le in H2.
  vm_compute in Hx. repeat (destruct Hx as [<-|Hx]; [lia|]). exact Hx.
Qed.

(** C28: A line whose first non-space code unit is a surrogate is never
    an activity line: every character outside the Basic Multilingual
    Plane, as every emoji the AI writes as a bullet (U+1F305 and the
    like), starts with a surrogate, and the class of lines 242-243 holds
    none, only the code units of the mis-decoded emoji. *)
Theorem surrogate_bullet_not_activity line c rest :
  trim line = c :: rest -> is_surrogate c = true -> is_activity_line line = false.
Proof.
  intros Ht Hc. rewrite is_activity_line_spec, Ht. cbn [starts_with_marker].
  now apply marker_class_no_surrogate.
Qed.

Lemma surrogate_bullet_not_activity_witness :
  trim (js "  🌅 Sunrise hike") = 55356%Z :: skipn 1 (js "🌅 Sunrise hike")
  /\ is_surrogate 55356 = true /\ is_activity_line (js "  🌅 Sunrise hike") = false.
Proof.
  assert (Ht : trim (js "  🌅 Sunrise hike") = 55356%Z :: skipn 1 (js "🌅 Sunrise hike"))
    by (vm_compute; reflexivity).
  assert (Hs : is_surrogate 55356 = true) by reflexivity.
  exact (conj Ht (conj Hs (surrogate_bullet_not_activity _ _ _ Ht Hs))).
Defined.

