(* ===== verification/Request.v ===== *)
(** * RequestValidator: the request body and its defaults (server.js lines 28-42)

    [req.body] is the JSON value [express.json()] parsed; the handler
    destructures five fields of it, reads them with JavaScript's
    truthiness and [||], renders them in template literals with
    [ToString], and calls [interests?.join(', ')], which throws a
    [TypeError] when [interests] is neither nullish nor an array.

    [ToString] of an object goes through [toString]: a parsed object
    with an own property [toString] (not a function, JSON has none)
    falls back to [valueOf], which returns the object itself, so
    [ToString] throws a [TypeError] ([to_js_string]); an array renders
    its elements with [join], which throws when an element does.

    A JSON number is the double [JSON.parse] reads: an integral double
    [JNum z] (its integer value, see [JsNumber]), an infinity [JInf]
    (a text beyond the doubles, as [1e400] or 401 digits), or a decimal
    [JDec m e], the value [m * 10^-e] with [e > 0]; decimals are
    modelled with at most 15 significant digits and at most 6 fraction
    digits, the numbers [Number::toString] writes in that form.
    Exponents in decimals are not modelled. *)

From Stdlib Require Import String List ZArith Lia Bool.
From S2P Require Import Prelude JsString JsNumber.
Import ListNotations.

(** ** JSON values and JavaScript exceptions *)

Local Set Warnings "-register-all".

Inductive json :=
| JNull
| JBool (b : bool)
| JNum (z : Z)
| JDec (m : Z) (e : nat)   (** the number [m * 10^-e], [e > 0] *)
| JInf (neg : bool)        (** [Infinity], or [-Infinity] *)
| JStr (s : jsstr)
| JArr (l : list json)
| JObj (fields : list (jsstr * json)).

(** The exceptions the handler can raise: a [TypeError] (calling a
    missing [join], or [ToString] of an object without a primitive
    value) and a failure of the Gemini client. *)
Inductive exn := TypeError | GeminiError.

Definition jsstr_eqb (a b : jsstr) : bool :=
  if list_eq_dec Z.eq_dec a b then true else false.

(** Property read on a parsed body; [JSON.parse] keeps the last of
    duplicated keys; [None] is [undefined]. *)
Definition get_field (body : json) (k : jsstr) : option json :=
  match body with
  | JObj fs => fold_left (fun acc kv => if jsstr_eqb (fst kv) k then Some (snd kv) else acc) fs None
  | _ => None
  end.

(** ** Truthiness, [||] and [ToString] *)

Definition truthy (v : option json) : bool :=
  match v with
  | None | Some JNull => false
  | Some (JBool b) => b
  | Some (JNum z) => negb (Z.eqb z 0)
  | Some (JDec m _) => negb (Z.eqb m 0)
  | Some (JInf _) => true
  | Some (JStr s) => negb (Nat.eqb (length s) 0)
  | Some (JArr _) | Some (JObj _) => true
  end.

(** [a || b] where [b] is defined. *)
Definition js_or (a : option json) (b : json) : json :=
  match a with
  | Some v => if truthy a then v else b
  | None => b
  end.

Definition comma : jsstr := Eval vm_compute in js ",".
Definition comma_space : jsstr := Eval vm_compute in js ", ".
Definition object_string : jsstr := Eval vm_compute in js "[object Object]".
Definition js_null : jsstr := Eval vm_compute in js "null".
Definition js_true : jsstr := Eval vm_compute in js "true".
Definition js_false : jsstr := Eval vm_compute in js "false".

Definition js_infinity : jsstr := Eval vm_compute in js "Infinity".
Definition key_toString : jsstr := Eval vm_compute in js "toString".

(** ** Computations that may throw *)

Definition bind_exn {A B} (m : exn + A) (k : A -> exn + B) : exn + B :=
  match m with inl e => inl e | inr a => k a end.

Notation "'let?' x ':=' m 'in' k" := (bind_exn m (fun x => k))
  (at level 10, x name, m at level 100, k at level 200) : type_scope.

(** A list mapped left to right, stopping at the first exception. *)
Fixpoint map_exn {A B} (f : A -> exn + B) (l : list A) : exn + list B :=
  match l with
  | [] => inr []
  | x :: r => let? y := f x in let? ys := map_exn f r in inr (y :: ys)
  end.

(** An own property of a parsed object. *)
Definition has_own (fs : list (jsstr * json)) (k : jsstr) : bool :=
  existsb (fun kv => jsstr_eqb (fst kv) k) fs.

(** [ToString(v)], as a template literal renders it: [Number::toString]
    for numbers, [join(',')] for arrays (a [null] element is the empty
    string), ["[object Object]"] for an object unless it has an own
    [toString], which makes [ToString] throw. *)
Fixpoint to_js_string (v : json) : exn + jsstr :=
  match v with
  | JNull => inr js_null
  | JBool true => inr js_true
  | JBool false => inr js_false
  | JNum z => inr (number_to_js z)
  | JDec m e => inr (decimal_to_string m e)
  | JInf neg => inr ((if neg then [45%Z] else []) ++ js_infinity)
  | JStr s => inr s
  | JArr l =>
      let? ss := map_exn (fun x => match x with JNull => inr [] | _ => to_js_string x end) l in
      inr (join comma ss)
  | JObj fs => if has_own fs key_toString then inl TypeError else inr object_string
  end.

(** [Array.prototype.join(sep)]. *)
Definition array_join (sep : jsstr) (l : list json) : exn + jsstr :=
  let? ss := map_exn (fun x => match x with JNull => inr [] | _ => to_js_string x end) l in
  inr (join sep ss).

(** [interests?.join(', ')]: [undefined] for a nullish value, the joined
    string for an array, and a [TypeError] for anything else (a string,
    number, boolean or object has no [join] method) or when an element
    does not render. *)
Definition interests_join (interests : option json) : exn + option jsstr :=
  match interests with
  | None | Some JNull => inr None
  | Some (JArr l) => let? s := array_join comma_space l in inr (Some s)
  | Some _ => inl TypeError
  end.

(** [interests?.join(', ') || dflt]. *)
Definition interests_text (interests : option json) (dflt : jsstr) : exn + jsstr :=
  match interests_join interests with
  | inl e => inl e
  | inr None => inr dflt
  | inr (Some s) => inr (if Nat.eqb (length s) 0 then dflt else s)
  end.

(** ** The destructured request (line 28) *)

Record request := MkRequest {
  destination : option json;
  duration : option json;
  budget : option json;
  interests : option json;
  prompt : option json
}.

Definition key_destination : jsstr := Eval vm_compute in js "destination".
Definition key_duration : jsstr := Eval vm_compute in js "duration".
Definition key_budget : jsstr := Eval vm_compute in js "budget".
Definition key_interests : jsstr := Eval vm_compute in js "interests".
Definition key_prompt : jsstr := Eval vm_compute in js "prompt".

Definition parse_request (body : json) : request :=
  MkRequest (get_field body key_destination) (get_field body key_duration)
            (get_field body key_budget) (get_field body key_interests)
            (get_field body key_prompt).

Definition unknown_destination : jsstr := Eval vm_compute in js "Unknown Destination".
Definition default_duration : jsstr := Eval vm_compute in js "3".
Definition default_budget : jsstr := Eval vm_compute in js "1000".

(** [destination || prompt || 'Unknown Destination'] (line 37). *)
Definition finalDestination (r : request) : json :=
  js_or (destination r) (js_or (prompt r) (JStr unknown_destination)).

(** The guard of line 39: [!destination && !prompt]. *)
Definition rejected (r : request) : bool :=
  negb (truthy (destination r)) && negb (truthy (prompt r)).

(** [duration || '3'] and [budget || '1000'] (lines 75-76, 103-104,
    133-134, 182-183): the value is kept as it is, a number stays a
    number. *)
Definition duration_or_default (r : request) : json := js_or (duration r) (JStr default_duration).
Definition budget_or_default (r : request) : json := js_or (budget r) (JStr default_budget).

(** ** [||] on a falsy and on a truthy left operand *)

Lemma js_or_falsy a b : truthy a = false -> js_or a b = b.
Proof. destruct a; simpl; [intros ->|]; reflexivity. Qed.

Lemma js_or_truthy v b : truthy (Some v) = true -> js_or (Some v) b = v.
Proof. simpl. intros ->. reflexivity. Qed.

Lemma jsstr_eqb_spec a b : jsstr_eqb a b = true <-> a = b.
Proof. unfold jsstr_eqb. destruct (list_eq_dec Z.eq_dec a b); split; congruence. Qed.

Lemma jsstr_eqb_false a b : a <> b -> jsstr_eqb a b = false.
Proof. unfold jsstr_eqb. destruct (list_eq_dec Z.eq_dec a b); congruence. Qed.

Lemma jsstr_eqb_refl a : jsstr_eqb a a = true.
Proof. now apply jsstr_eqb_spec. Qed.

(** ** Induction on JSON values, through the nested lists *)

Section JsonInd.
Variable P : json -> Prop.
Hypothesis HNull : P JNull.
Hypothesis HBool : forall b, P (JBool b).
Hypothesis HNum : forall z, P (JNum z).
Hypothesis HDec : forall m e, P (JDec m e).
Hypothesis HInf : forall n, P (JInf n).
Hypothesis HStr : forall s, P (JStr s).
Hypothesis HArr : forall l, Forall P l -> P (JArr l).
Hypothesis HObj : forall fs, Forall (fun kv => P (snd kv)) fs -> P (JObj fs).

Fixpoint json_ind' (v : json) : P v :=
  match v with
  | JNull => HNull
  | JBool b => HBool b
  | JNum z => HNum z
  | JDec m e => HDec m e
  | JInf n => HInf n
  | JStr s => HStr s
  | JArr l =>
      HArr l ((fix go (l : list json) : Forall P l :=
                 match l with
                 | [] => Forall_nil _
                 | x :: r => Forall_cons _ (json_ind' x) (go r)
                 end) l)
  | JObj fs =>
      HObj fs ((fix go (fs : list (jsstr * json)) : Forall (fun kv => P (snd kv)) fs :=
                  match fs with
                  | [] => Forall_nil _
                  | kv :: r => Forall_cons _ (json_ind' (snd kv)) (go r)
                  end) fs)
  end.
End JsonInd.

(** ** When [ToString] throws *)

(** The values [ToString] renders: no object with an own [toString],
    at any depth of an array. *)
Fixpoint renders (v : json) : bool :=
  match v with
  | JArr l => forallb renders l
  | JObj fs => negb (has_own fs key_toString)
  | _ => true
  end.

Lemma map_exn_cases {A B} (f : A -> exn + B) (p : A -> bool) l :
  Forall (fun x => (p x = true /\ exists y, f x = inr y) \/ (p x = false /\ f x = inl TypeError)) l ->
  (forallb p l = true /\ exists ys, map_exn f l = inr ys) \/
  (forallb p l = false /\ map_exn f l = inl TypeError).
Proof.
  induction 1 as [|x l Hx _ IH]; [left; split; [reflexivity|now exists []]|].
  cbn [forallb map_exn]. destruct Hx as [[-> [y ->]]|[-> ->]]; [|right; now split].
  destruct IH as [[-> [ys ->]]|[-> ->]]; [left; split; [reflexivity|now exists (y :: ys)]|right; now split].
Qed.

(** [ToString] succeeds exactly on the values that render, and fails
    with a [TypeError] on the others. *)
Lemma to_js_string_cases v :
  (renders v = true /\ exists s, to_js_string v = inr s) \/
  (renders v = false /\ to_js_string v = inl TypeError).
Proof.
  induction v as [| [] | | | | | l IH | fs _] using json_ind';
    try (left; split; [reflexivity|eexists; reflexivity]).
  - cbn [renders to_js_string].
    assert (Hl : Forall (fun x => (renders x = true /\ exists y,
                   (match x with JNull => inr [] | _ => to_js_string x end) = inr y)
                 \/ (renders x = false /\ (match x with JNull => inr [] | _ => to_js_string x end) = inl TypeError)) l).
    { eapply Forall_impl; [|exact IH]. intros [] H; try exact H. left. split; [reflexivity|now eexists]. }
    destruct (map_exn_cases _ renders l Hl) as [[-> [ys ->]]|[-> ->]];
      [left; split; [reflexivity|eexists; reflexivity]|right; now split].
  - cbn [renders to_js_string]. destruct (has_own fs key_toString); [right|left]; split; auto. now eexists.
Qed.

Lemma to_js_string_ok v : renders v = true -> exists s, to_js_string v = inr s.
Proof. destruct (to_js_string_cases v) as [[_ H]|[H _]]; [auto|congruence]. Qed.

Lemma to_js_string_throws v : renders v = false -> to_js_string v = inl TypeError.
Proof. destruct (to_js_string_cases v) as [[H _]|[_ H]]; [congruence|auto]. Qed.

(** [join] renders its elements in order. *)
Lemma array_join_cases sep l :
  (forallb renders l = true /\ exists s, array_join sep l = inr s) \/
  (forallb renders l = false /\ array_join sep l = inl TypeError).
Proof.
  unfold array_join.
  assert (Hl : Forall (fun x => (renders x = true /\ exists y,
                 (match x with JNull => inr [] | _ => to_js_string x end) = inr y)
               \/ (renders x = false /\ (match x with JNull => inr [] | _ => to_js_string x end) = inl TypeError)) l).
  { apply Forall_forall. intros [] _; try apply to_js_string_cases. left. split; [reflexivity|now eexists]. }
  destruct (map_exn_cases _ renders l Hl) as [[-> [ss ->]]|[-> ->]];
    [left; split; [reflexivity|now eexists]|right; now split].
Qed.

(** [interests?.join(', ')] succeeds on a nullish value and on an array
    whose elements render. *)
Definition interests_ok (i : option json) : bool :=
  match i with
  | None | Some JNull => true
  | Some (JArr l) => forallb renders l
  | Some _ => false
  end.

Lemma interests_text_cases i d :
  (interests_ok i = true /\ exists s, interests_text i d = inr s) \/
  (interests_ok i = false /\ interests_text i d = inl TypeError).
Proof.
  unfold interests_text, interests_join.
  destruct i as [[| | | | | | l |]|]; try (left; split; [reflexivity|now eexists]);
    try (right; split; reflexivity).
  cbn [interests_ok]. destruct (array_join_cases comma_space l) as [[-> [s ->]]|[-> ->]].
  - left. split; [reflexivity|]. simpl. now eexists.
  - right. now split.
Qed.

(** The request's values the template literals of lines 73-77 and
    131-170 render: the final destination, [duration || '3'],
    [budget || '1000'] and [interests?.join(', ')]. *)
Definition request_renders (r : request) : bool :=
  renders (finalDestination r) && renders (duration_or_default r) && renders (budget_or_default r)
  && interests_ok (interests r).

(** Rendering the four holes, in the order of the source. *)
Lemma render_holes_cases {A} (r : request) d (k : jsstr -> jsstr -> jsstr -> jsstr -> A) :
  (request_renders r = true /\ exists fd dur bud ints,
     to_js_string (finalDestination r) = inr fd
     /\ (let? fd := to_js_string (finalDestination r) in
         let? dur := to_js_string (duration_or_default r) in
         let? bud := to_js_string (budget_or_default r) in
         let? ints := interests_text (interests r) d in inr (k fd dur bud ints))
        = inr (k fd dur bud ints)) \/
  (request_renders r = false
   /\ (let? fd := to_js_string (finalDestination r) in
       let? dur := to_js_string (duration_or_default r) in
       let? bud := to_js_string (budget_or_default r) in
       let? ints := interests_text (interests r) d in inr (k fd dur bud ints))
      = inl TypeError).
Proof.
  unfold request_renders.
  destruct (to_js_string_cases (finalDestination r)) as [[-> [fd ->]]|[-> ->]]; [|right; now split].
  destruct (to_js_string_cases (duration_or_default r)) as [[-> [dur ->]]|[-> ->]]; [|right; now split].
  destruct (to_js_string_cases (budget_or_default r)) as [[-> [bud ->]]|[-> ->]]; [|right; now split].
  destruct (interests_text_cases (interests r) d) as [[-> [ints ->]]|[-> ->]]; [|right; now split].
  left. split; [reflexivity|]. now exists fd, dur, bud, ints.
Qed.
