(* ===== verification/Stream.v ===== *)
(** * StreamDispatcher: the response of [/generate-itinerary]

    The handler writes to one Express response.  The model keeps the
    response as the list of operations performed on it, in order: the
    four [res.setHeader] calls, [res.status(400).json(...)], every
    [res.write] of a frame ([sendToken], [sendItinerary], [sendMetrics],
    lines 47-59) and [res.end()].  A frame is the object serialized by
    [JSON.stringify] on one line; the serialization itself (library
    code) is not modelled.  The handler runs in [H], the exception-state
    monad of the prelude over this log.

    The second half states the specification's per-request state machine
    (spec section 4.6) as a step relation [step] on [phase], with its
    executable form [next], and the multi-step relation [run]; the
    listener registration changes no phase. *)

From Stdlib Require Import String List ZArith Lia Bool.
From S2P Require Import Prelude JsString DayParser Request.
Import ListNotations.
Local Open Scope st_scope.

(** ** Data of the frames *)

(** [{ promptTokens, completionTokens, totalTokens }] (lines 114-118, 207-211). *)
Record UsageMetrics := MkMetrics { promptTokens : Z; completionTokens : Z; totalTokens : Z }.

(** The itinerary object of lines 100-109 (AI path) and 179-202
    (fallback): the fallback object has neither [fullText] nor
    [interests], hence the options. *)
Record Itinerary := MkItinerary {
  it_id : Z;
  it_destination : json;
  it_duration : json;
  it_budget : json;
  it_description : jsstr;
  it_fullText : option jsstr;
  it_days : list DayPlan;
  it_interests : option json
}.

Inductive frame :=
| Token (t : jsstr)
| ItinerarySummary (it : Itinerary)
| Metrics (m : UsageMetrics).

Inductive event :=
| SetHeader (name value : jsstr)
| Status (code : Z)
| JsonBody (body : json)      (** [res.json]: sends the body and ends *)
| Write (f : frame)
| End
| OnClose.                    (** [req.on('close', ...)]: a listener that only logs *)

(** ** The handler monad and the response operations *)

Definition H (A : Type) := st (list event) exn A.

Definition emit (e : event) : H unit := fun log => (Ok tt, log ++ [e]).

Definition sendToken (t : jsstr) : H unit := emit (Write (Token t)).
Definition sendItinerary (it : Itinerary) : H unit := emit (Write (ItinerarySummary it)).
Definition sendMetrics (m : UsageMetrics) : H unit := emit (Write (Metrics m)).
Definition res_end : H unit := emit End.

(** Lines 31-34. *)
Definition h_content_type : jsstr := Eval vm_compute in js "Content-Type".
Definition v_content_type : jsstr := Eval vm_compute in js "text/plain; charset=utf-8".
Definition h_cache_control : jsstr := Eval vm_compute in js "Cache-Control".
Definition v_cache_control : jsstr := Eval vm_compute in js "no-cache".
Definition h_connection : jsstr := Eval vm_compute in js "Connection".
Definition v_connection : jsstr := Eval vm_compute in js "keep-alive".
Definition h_allow_origin : jsstr := Eval vm_compute in js "Access-Control-Allow-Origin".
Definition v_allow_origin : jsstr := Eval vm_compute in js "*".

Definition stream_headers : list event :=
  [SetHeader h_content_type v_content_type; SetHeader h_cache_control v_cache_control;
   SetHeader h_connection v_connection; SetHeader h_allow_origin v_allow_origin].

Definition set_stream_headers : H unit := for_each emit stream_headers.

(** Line 40: [res.status(400).json({ error: 'Destination or prompt is required' })]. *)
Definition error_message : jsstr := Eval vm_compute in js "Destination or prompt is required".
Definition key_error : jsstr := Eval vm_compute in js "error".

Definition rejection_events : list event :=
  [Status 400; JsonBody (JObj [(key_error, JStr error_message)])].

Definition reject_400 : H unit :=
  emit (Status 400) ;; emit (JsonBody (JObj [(key_error, JStr error_message)])).

(** ** The specification's state machine *)

Inductive phase :=
| Validating        (** nothing sent yet *)
| HeadersOpen       (** streaming headers set, no frame yet *)
| Streaming         (** token frames being written *)
| Finalizing        (** the itinerary frame written *)
| Finalized         (** the metrics frame written *)
| Closed            (** [res.end()] *)
| Rejecting         (** status 400 chosen, before any header *)
| ClosedError.      (** the 400 body sent *)

Inductive step : phase -> event -> phase -> Prop :=
| st_open n v : step Validating (SetHeader n v) HeadersOpen
| st_header n v : step HeadersOpen (SetHeader n v) HeadersOpen
| st_first_token t : step HeadersOpen (Write (Token t)) Streaming
| st_token t : step Streaming (Write (Token t)) Streaming
| st_summary_empty it : step HeadersOpen (Write (ItinerarySummary it)) Finalizing
| st_summary it : step Streaming (Write (ItinerarySummary it)) Finalizing
| st_metrics m : step Finalizing (Write (Metrics m)) Finalized
| st_close : step Finalized End Closed
| st_reject : step Validating (Status 400) Rejecting
| st_reject_body b : step Rejecting (JsonBody b) ClosedError
| st_listen p : step p OnClose p.

Definition next (p : phase) (e : event) : option phase :=
  match p, e with
  | Validating, SetHeader _ _ => Some HeadersOpen
  | HeadersOpen, SetHeader _ _ => Some HeadersOpen
  | (HeadersOpen | Streaming), Write (Token _) => Some Streaming
  | (HeadersOpen | Streaming), Write (ItinerarySummary _) => Some Finalizing
  | Finalizing, Write (Metrics _) => Some Finalized
  | Finalized, End => Some Closed
  | Validating, Status code => if Z.eqb code 400 then Some Rejecting else None
  | Rejecting, JsonBody _ => Some ClosedError
  | _, OnClose => Some p
  | _, _ => None
  end.

Inductive run : phase -> list event -> phase -> Prop :=
| run_nil p : run p [] p
| run_cons p e p' l p'' : step p e p' -> run p' l p'' -> run p (e :: l) p''.

Fixpoint runb (p : phase) (l : list event) : option phase :=
  match l with
  | [] => Some p
  | e :: r => match next p e with Some p' => runb p' r | None => None end
  end.

(** ** Facts about the state machine *)

Lemma next_step p e p' : next p e = Some p' <-> step p e p'.
Proof.
  split.
  - destruct p, e; simpl; try discriminate;
      try (destruct f); try discriminate; intros H; inv H; try constructor.
    destruct (Z.eqb_spec code 400); [|discriminate]. inv H1. constructor.
  - intros H. inv H; try reflexivity. destruct p'; reflexivity.
Qed.

Lemma runb_run p l p' : runb p l = Some p' <-> run p l p'.
Proof.
  revert p. induction l as [|e l IH]; intros p; simpl.
  - split; intros H; [inv H; constructor|inv H; reflexivity].
  - split.
    + destruct (next p e) as [q|] eqn:E; [|discriminate]. intros H.
      apply next_step in E. econstructor; eauto. now apply IH.
    + intros H. inv H. apply next_step in H3. rewrite H3. now apply IH.
Qed.

Lemma run_app p l1 q l2 r : run p l1 q -> run q l2 r -> run p (l1 ++ l2) r.
Proof. induction 1; simpl; auto. intros H2. econstructor; eauto. Qed.

(** After [res.end()] or the 400 body only a listener can be registered. *)
Lemma closed_final e p :
  (step Closed e p -> e = OnClose /\ p = Closed) /\ (step ClosedError e p -> e = OnClose /\ p = ClosedError).
Proof. split; intros H; inv H; auto. Qed.

Lemma run_from_closed l p : run Closed l p -> Forall (fun e => e = OnClose) l /\ p = Closed.
Proof.
  intros H. remember Closed as q eqn:Eq. revert Eq.
  induction H as [q|q e q' l q'' Hs Hr IH]; intros ->; [auto|].
  apply closed_final in Hs as [-> ->]. destruct (IH eq_refl). auto.
Qed.

Definition token_events (ts : list jsstr) : list event := map (fun t => Write (Token t)) ts.

Lemma run_tokens_streaming ts : run Streaming (token_events ts) Streaming.
Proof. induction ts; simpl; econstructor; eauto using step. Qed.

Lemma run_tokens_open ts :
  run HeadersOpen (token_events ts) (match ts with [] => HeadersOpen | _ => Streaming end).
Proof.
  destruct ts as [|t ts]; simpl; [constructor|].
  econstructor; [constructor|apply run_tokens_streaming].
Qed.

(** After tokens, the itinerary, the metrics and [end] close the stream. *)
Lemma run_finish ts it m :
  run HeadersOpen (token_events ts ++ [Write (ItinerarySummary it); Write (Metrics m); End]) Closed.
Proof.
  eapply run_app; [apply run_tokens_open|].
  destruct ts; repeat econstructor.
Qed.

Lemma run_headers : run Validating stream_headers HeadersOpen.
Proof. repeat econstructor. Qed.

Lemma for_each_emit l log : for_each emit l log = (Ok tt, log ++ l).
Proof.
  revert log. induction l as [|e l IH]; intros log; simpl.
  - now rewrite app_nil_r.
  - unfold bind at 1. simpl. rewrite IH. now rewrite <- app_assoc.
Qed.

(** In a run that reaches [Closed], only listener registrations follow
    an [End]. *)
Lemma run_end_last pre post p :
  run p (pre ++ End :: post) Closed -> Forall (fun e => e = OnClose) post.
Proof.
  revert p. induction pre as [|e pre IH]; intros p H; simpl in H.
  - inv H. inv H3. now apply run_from_closed in H5.
  - inv H. eauto.
Qed.

Lemma run_listen p : run p [OnClose] p.
Proof. repeat econstructor. Qed.

(** A write keeps a property of every event of the log when the written
    event has it. *)
Lemma emit_preserves (P : event -> Prop) e : P e -> preserves (Forall P) (emit e).
Proof. intros He s Hs. simpl. apply Forall_app. auto. Qed.

#[export] Hint Resolve emit_preserves : trip.

(** The log of a rejected request is not a run of the specification's
    state machine: the code sets the streaming headers before it
    validates, while the specification rejects before any header. *)
Theorem rejection_log_outside_spec p :
  ~ run Validating (stream_headers ++ rejection_events) p.
Proof. intros H. apply runb_run in H. vm_compute in H. discriminate. Qed.
