(* ===== verification/JsonText.v ===== *)
(** * [JSON.stringify] and a reference JSON reader

    Each frame of the stream is written as [JSON.stringify(obj) + '\n']
    (server.js lines 47-59).  [JSON.stringify] is the library function
    of ECMA-262 (section 25.5.2): [stringify] follows its
    SerializeJSONProperty on the JSON values of [Request]: [null],
    booleans, numbers rendered by [Number::toString] (integers, and
    decimals with their fraction digits), strings
    quoted by QuoteJSONString (the two-character escapes, [\u00XX] for
    the other control characters and [\uXXXX] for a lone surrogate),
    arrays and objects in insertion order with no whitespace.

    The reader side is the grammar of RFC 8259 without exponents:
    [parse_json] skips whitespace between tokens, reads literals,
    strings with all escapes, numbers without leading zeros (a fraction
    is normalized, [1.50] is read as [1.5] and [2.0] as [2]), arrays and
    objects.  It is the specification of what a client can
    decode; the round trip [parse_json (stringify v) = Some v] holds for
    every value, and no serialized value contains a control character,
    so the newline after each frame delimits it. *)

From Stdlib Require Import String List ZArith Lia Bool.
From S2P Require Import Prelude JsString JsNumber Request.
Import ListNotations.
Local Open Scope Z_scope.

(** ** QuoteJSONString *)

Definition BACKSLASH : Z := 92.
Definition QUOTE : Z := 34.

(** Lowercase hexadecimal digit, as [Number::toString(16)]. *)
Definition hex_digit (d : Z) : Z := if d <? 10 then 48 + d else 87 + d.

(** UnicodeEscape: [\u] and four lowercase hexadecimal digits. *)
Definition unicode_escape (c : Z) : jsstr :=
  [BACKSLASH; 117; hex_digit (c / 4096 mod 16); hex_digit (c / 256 mod 16);
   hex_digit (c / 16 mod 16); hex_digit (c mod 16)].

Definition is_high_surrogate (c : Z) : bool := (55296 <=? c) && (c <=? 56319).
Definition is_low_surrogate (c : Z) : bool := (56320 <=? c) && (c <=? 57343).

(** One code point that is not a surrogate: the table of
    QuoteJSONString, then [\u00XX] below U+0020, else itself. *)
Definition quote_unit (c : Z) : jsstr :=
  if c =? 8 then [BACKSLASH; 98]
  else if c =? 9 then [BACKSLASH; 116]
  else if c =? 10 then [BACKSLASH; 110]
  else if c =? 12 then [BACKSLASH; 102]
  else if c =? 13 then [BACKSLASH; 114]
  else if c =? QUOTE then [BACKSLASH; QUOTE]
  else if c =? BACKSLASH then [BACKSLASH; BACKSLASH]
  else if c <? 32 then unicode_escape c
  else [c].

(** The code points of the string, a surrogate pair kept as it is and a
    lone surrogate escaped. *)
Fixpoint quote_units (s : jsstr) : jsstr :=
  match s with
  | [] => []
  | c :: r =>
      if is_high_surrogate c then
        match r with
        | d :: r' => if is_low_surrogate d then c :: d :: quote_units r'
                     else unicode_escape c ++ quote_units r
        | [] => unicode_escape c
        end
      else if is_low_surrogate c then unicode_escape c ++ quote_units r
      else quote_unit c ++ quote_units r
  end.

Definition quote (s : jsstr) : jsstr := QUOTE :: quote_units s ++ [QUOTE].

(** ** SerializeJSONProperty *)

Definition COMMA : Z := 44.
Definition COLON : Z := 58.
Definition LBRACKET : Z := 91.
Definition RBRACKET : Z := 93.
Definition LBRACE : Z := 123.
Definition RBRACE : Z := 125.

Fixpoint stringify (v : json) : jsstr :=
  match v with
  | JNull => js_null
  | JBool true => js_true
  | JBool false => js_false
  | JNum z => number_to_js z
  | JDec m e => decimal_to_string m e
  | JInf _ => js_null
  | JStr s => quote s
  | JArr l => LBRACKET :: join [COMMA] (map stringify l) ++ [RBRACKET]
  | JObj fs =>
      LBRACE :: join [COMMA] (map (fun kv => quote (fst kv) ++ COLON :: stringify (snd kv)) fs)
      ++ [RBRACE]
  end.

(** ** The reader *)

(** JSON whitespace: space, tab, line feed, carriage return. *)
Definition is_json_ws (c : Z) : bool := (c =? 32) || (c =? 9) || (c =? 10) || (c =? 13).
Definition skip_ws (s : jsstr) : jsstr := drop_while is_json_ws s.

Definition hex_val (c : Z) : option Z :=
  if (48 <=? c) && (c <=? 57) then Some (c - 48)
  else if (97 <=? c) && (c <=? 102) then Some (c - 87)
  else if (65 <=? c) && (c <=? 70) then Some (c - 55)
  else None.

Definition hex4_val (a b c d : Z) : option Z :=
  match hex_val a, hex_val b, hex_val c, hex_val d with
  | Some x, Some y, Some z, Some w => Some (((x * 16 + y) * 16 + z) * 16 + w)
  | _, _, _, _ => None
  end.

(** The character an escape [\e] stands for, [u] apart. *)
Definition unescape (e : Z) : option Z :=
  if e =? QUOTE then Some QUOTE
  else if e =? BACKSLASH then Some BACKSLASH
  else if e =? 47 then Some 47
  else if e =? 98 then Some 8
  else if e =? 102 then Some 12
  else if e =? 110 then Some 10
  else if e =? 114 then Some 13
  else if e =? 116 then Some 9
  else None.

Definition cons_fst (c : Z) (o : option (jsstr * jsstr)) : option (jsstr * jsstr) :=
  match o with Some (t, r) => Some (c :: t, r) | None => None end.

(** The characters of a string literal after its opening quote, up to
    and without its closing quote; raw control characters are refused. *)
Fixpoint read_chars (s : jsstr) : option (jsstr * jsstr) :=
  match s with
  | [] => None
  | c :: r =>
      if c =? QUOTE then Some ([], r)
      else if c =? BACKSLASH then
        match r with
        | [] => None
        | e :: r1 =>
            if e =? 117 then
              match r1 with
              | a :: b :: c2 :: d :: r2 =>
                  match hex4_val a b c2 d with
                  | Some u => cons_fst u (read_chars r2)
                  | None => None
                  end
              | _ => None
              end
            else match unescape e with
                 | Some u => cons_fst u (read_chars r1)
                 | None => None
                 end
        end
      else if c <? 32 then None
      else cons_fst c (read_chars r)
  end.

Fixpoint strip_prefix (p s : jsstr) : option jsstr :=
  match p, s with
  | [], _ => Some s
  | x :: p', y :: s' => if x =? y then strip_prefix p' s' else None
  | _ :: _, [] => None
  end.

(** A number may not go on with a digit, a fraction or an exponent. *)
Definition number_stops (s : jsstr) : bool :=
  match s with
  | [] => true
  | c :: _ => negb (is_ascii_digit c || (c =? 46) || (c =? 101) || (c =? 69))
  end.

Definition starts_digit (s : jsstr) : bool :=
  match s with c :: _ => is_ascii_digit c | [] => false end.

(** The integer part: [0] alone, or a non-zero digit and digits. *)
Definition read_int (s : jsstr) : option (Z * jsstr) :=
  match s with
  | c :: r =>
      if c =? 48 then (if starts_digit r then None else Some (0, r))
      else if is_ascii_digit c then
        Some (value_of_digits 10 (map (fun d => d - 48) (take_while is_ascii_digit s)),
              drop_while is_ascii_digit s)
      else None
  | [] => None
  end.

(** The number [m * 10^-e] with the trailing zeros of its fraction
    removed: an integer when none is left. *)
Fixpoint normalize (e : nat) (m : Z) : json :=
  match e with
  | O => JNum m
  | S e' => if m mod 10 =? 0 then normalize e' (m / 10) else JDec m e
  end.

(** After the integer part [n]: a fraction of at least one digit, or
    nothing; an exponent is refused. *)
Definition read_frac (sign n : Z) (s : jsstr) : option (json * jsstr) :=
  match s with
  | d :: r =>
      if d =? 46 then
        let fd := take_while is_ascii_digit r in
        let rest := drop_while is_ascii_digit r in
        match fd with
        | [] => None
        | _ => if number_stops rest
               then Some (normalize (length fd)
                            (sign * (n * 10 ^ Z.of_nat (length fd)
                                     + value_of_digits 10 (map (fun d => d - 48) fd))), rest)
               else None
        end
      else if number_stops s then Some (JNum (sign * n), s) else None
  | [] => Some (JNum (sign * n), [])
  end.

Definition read_unsigned (sign : Z) (s : jsstr) : option (json * jsstr) :=
  match read_int s with
  | Some (n, r) => read_frac sign n r
  | None => None
  end.

(** A number: an optional minus, the integer part, the fraction. *)
Definition read_number (s : jsstr) : option (json * jsstr) :=
  match s with
  | c :: r => if c =? 45 then read_unsigned (-1) r else read_unsigned 1 s
  | [] => None
  end.

Definition lit_null_tail : jsstr := Eval vm_compute in js "ull".
Definition lit_true_tail : jsstr := Eval vm_compute in js "rue".
Definition lit_false_tail : jsstr := Eval vm_compute in js "alse".

Fixpoint parse_value (fuel : nat) (s : jsstr) : option (json * jsstr) :=
  match fuel with
  | O => None
  | S f =>
      match skip_ws s with
      | [] => None
      | c :: r =>
          if c =? 110 then option_map (fun r' => (JNull, r')) (strip_prefix lit_null_tail r)
          else if c =? 116 then option_map (fun r' => (JBool true, r')) (strip_prefix lit_true_tail r)
          else if c =? 102 then option_map (fun r' => (JBool false, r')) (strip_prefix lit_false_tail r)
          else if c =? QUOTE then option_map (fun tr => (JStr (fst tr), snd tr)) (read_chars r)
          else if c =? LBRACKET then
            match skip_ws r with
            | d :: r' =>
                if d =? RBRACKET then Some (JArr [], r')
                else option_map (fun lr => (JArr (fst lr), snd lr)) (parse_items f r)
            | [] => None
            end
          else if c =? LBRACE then
            match skip_ws r with
            | d :: r' =>
                if d =? RBRACE then Some (JObj [], r')
                else option_map (fun fr => (JObj (fst fr), snd fr)) (parse_members f r)
            | [] => None
            end
          else read_number (c :: r)
      end
  end
with parse_items (fuel : nat) (s : jsstr) : option (list json * jsstr) :=
  match fuel with
  | O => None
  | S f =>
      match parse_value f s with
      | None => None
      | Some (v, r) =>
          match skip_ws r with
          | d :: r' =>
              if d =? COMMA then option_map (fun lr => (v :: fst lr, snd lr)) (parse_items f r')
              else if d =? RBRACKET then Some ([v], r')
              else None
          | [] => None
          end
      end
  end
with parse_members (fuel : nat) (s : jsstr) : option (list (jsstr * json) * jsstr) :=
  match fuel with
  | O => None
  | S f =>
      match skip_ws s with
      | c :: r =>
          if c =? QUOTE then
            match read_chars r with
            | None => None
            | Some (k, r1) =>
                match skip_ws r1 with
                | d :: r2 =>
                    if d =? COLON then
                      match parse_value f r2 with
                      | None => None
                      | Some (v, r3) =>
                          match skip_ws r3 with
                          | e :: r4 =>
                              if e =? COMMA then
                                option_map (fun fr => ((k, v) :: fst fr, snd fr)) (parse_members f r4)
                              else if e =? RBRACE then Some ([(k, v)], r4)
                              else None
                          | [] => None
                          end
                      end
                    else None
                | [] => None
                end
            end
          else None
      | [] => None
      end
  end.

(** A whole text: one value, surrounded by whitespace only. *)
Definition parse_json (s : jsstr) : option json :=
  match parse_value (S (length s)) s with
  | Some (v, r) => match skip_ws r with [] => Some v | _ => None end
  | None => None
  end.

(** ** Reading back escapes and quoted strings *)

(** A code unit: what a [jsstr] holds. *)
Definition unit_ok (c : Z) : bool := (0 <=? c) && (c <? 65536).

Lemma hex_val_digit d : 0 <= d < 16 -> hex_val (hex_digit d) = Some d.
Proof. intros Hd. unfold hex_val, hex_digit. zbool; f_equal; lia. Qed.

Lemma hex4_val_escape c :
  0 <= c < 65536 ->
  hex4_val (hex_digit (c / 4096 mod 16)) (hex_digit (c / 256 mod 16))
           (hex_digit (c / 16 mod 16)) (hex_digit (c mod 16)) = Some c.
Proof.
  intros Hc. unfold hex4_val.
  rewrite !hex_val_digit by (apply Z.mod_pos_bound; lia).
  assert (E1 : c / 256 = c / 16 / 16) by (rewrite Z.div_div by lia; reflexivity).
  assert (E2 : c / 4096 = c / 256 / 16) by (rewrite Z.div_div by lia; reflexivity).
  assert (E3 : c / 4096 mod 16 = c / 4096).
  { apply Z.mod_small. split; [apply Z.div_pos|apply Z.div_lt_upper_bound]; lia. }
  pose proof (Z.div_mod c 16). pose proof (Z.div_mod (c / 16) 16).
  pose proof (Z.div_mod (c / 256) 16). rewrite <- E1 in *. rewrite <- E2 in *.
  f_equal. lia.
Qed.

Lemma read_unicode_escape c t :
  0 <= c < 65536 -> read_chars (unicode_escape c ++ t) = cons_fst c (read_chars t).
Proof.
  intros Hc. unfold unicode_escape. cbn [app read_chars]. simpl Z.eqb. cbv iota.
  now rewrite hex4_val_escape.
Qed.

Lemma read_quote_unit c t :
  0 <= c < 65536 -> read_chars (quote_unit c ++ t) = cons_fst c (read_chars t).
Proof.
  intros Hc. unfold quote_unit, QUOTE, BACKSLASH.
  destruct (Z.eqb_spec c 8) as [->|]; [reflexivity|].
  destruct (Z.eqb_spec c 9) as [->|]; [reflexivity|].
  destruct (Z.eqb_spec c 10) as [->|]; [reflexivity|].
  destruct (Z.eqb_spec c 12) as [->|]; [reflexivity|].
  destruct (Z.eqb_spec c 13) as [->|]; [reflexivity|].
  destruct (Z.eqb_spec c 34) as [->|]; [reflexivity|].
  destruct (Z.eqb_spec c 92) as [->|]; [reflexivity|].
  destruct (Z.ltb_spec c 32); [now apply read_unicode_escape|].
  simpl. unfold QUOTE, BACKSLASH. zbool. reflexivity.
Qed.

Lemma read_surrogate c t :
  55296 <= c -> read_chars (c :: t) = cons_fst c (read_chars t).
Proof. intros Hc. simpl. unfold QUOTE, BACKSLASH. zbool. reflexivity. Qed.

(** The reader undoes QuoteJSONString on every string of code units. *)
Lemma read_quote_units s t :
  forallb unit_ok s = true -> read_chars (quote_units s ++ QUOTE :: t) = Some (s, t).
Proof.
  remember (length s) as n eqn:En. revert s En.
  induction n as [n IH] using (well_founded_induction lt_wf). intros s En Hs.
  destruct s as [|c r]; [reflexivity|]. simpl in Hs. apply andb_true_iff in Hs as [Hc Hr].
  unfold unit_ok in Hc. apply andb_true_iff in Hc as [Hc1 Hc2].
  apply Z.leb_le in Hc1. apply Z.ltb_lt in Hc2.
  assert (IHr : read_chars (quote_units r ++ QUOTE :: t) = Some (r, t))
    by (apply (IH (length r)); simpl in En; auto; lia).
  cbn [quote_units]. destruct (is_high_surrogate c) eqn:Hh.
  - destruct r as [|d r'].
    + rewrite read_unicode_escape by lia. reflexivity.
    + destruct (is_low_surrogate d) eqn:Hl.
      * unfold is_high_surrogate, is_low_surrogate in *.
        apply andb_true_iff in Hh as [Hh _]. apply andb_true_iff in Hl as [Hl _].
        apply Z.leb_le in Hh. apply Z.leb_le in Hl. simpl in Hr. apply andb_true_iff in Hr as [_ Hr'].
        simpl app. rewrite read_surrogate, read_surrogate by lia.
        rewrite (IH (length r')); [reflexivity|simpl in En; lia|reflexivity|exact Hr'].
      * rewrite <- app_assoc, read_unicode_escape, IHr by lia. reflexivity.
  - destruct (is_low_surrogate c);
      rewrite <- app_assoc; [rewrite read_unicode_escape by lia|rewrite read_quote_unit by lia];
      now rewrite IHr.
Qed.

(** ** Reading back numbers *)

Lemma number_stops_digits rest :
  number_stops rest = true ->
  drop_while is_ascii_digit rest = rest /\ take_while is_ascii_digit rest = [].
Proof.
  destruct rest as [|c r]; [auto|]. simpl. intros H.
  destruct (is_ascii_digit c); [discriminate|auto].
Qed.

Lemma number_stops_no_digit rest : number_stops rest = true -> starts_digit rest = false.
Proof. destruct rest as [|c r]; [reflexivity|]. simpl. now destruct (is_ascii_digit c). Qed.

Lemma no_digit_while rest :
  starts_digit rest = false ->
  drop_while is_ascii_digit rest = rest /\ take_while is_ascii_digit rest = [].
Proof. destruct rest as [|c r]; [auto|]. simpl. now intros ->. Qed.

Lemma digit_not_minus c : is_ascii_digit c = true -> (c =? 45) = false.
Proof.
  unfold is_ascii_digit. intros H. apply andb_true_iff in H as [H1 H2].
  apply Z.leb_le in H1. apply Z.leb_le in H2. apply Z.eqb_neq. lia.
Qed.

Lemma number_to_string_abs z :
  number_to_string z = (if z <? 0 then [45] else []) ++ number_to_string (Z.abs z).
Proof.
  unfold number_to_string. destruct (Z.ltb_spec z 0).
  - replace (Z.abs z) with (- z) by lia. rewrite (proj2 (Z.ltb_ge (- z) 0)) by lia. reflexivity.
  - rewrite Z.abs_eq by lia. now rewrite (proj2 (Z.ltb_ge z 0)) by lia.
Qed.

Lemma number_to_string_nonneg q :
  0 <= q -> exists ds, number_to_string q = ds /\ ds <> []
    /\ Forall (fun c => is_ascii_digit c = true) ds
    /\ value_of_digits 10 (map (fun c => c - 48) ds) = q
    /\ (q <> 0 -> hd 0 ds <> 48) /\ (q = 0 -> ds = [48]).
Proof.
  intros Hq. destruct (number_to_string_spec q) as (ds & E & H).
  rewrite (proj2 (Z.ltb_ge q 0)) in E by lia. exists ds. rewrite Z.abs_eq in H by lia. auto.
Qed.

Lemma starts_digit_number q x : 0 <= q -> starts_digit (number_to_string q ++ x) = true.
Proof.
  intros Hq. destruct (number_to_string_nonneg q Hq) as (ds & -> & Hne & Hall & _).
  destruct ds as [|c ds]; [contradiction|]. exact (Forall_inv Hall).
Qed.

(** The integer part of a rendered non-negative integer. *)
Lemma read_int_digits q rest :
  0 <= q -> starts_digit rest = false -> read_int (number_to_string q ++ rest) = Some (q, rest).
Proof.
  intros Hq Hr. destruct (no_digit_while rest Hr) as [Hd Ht].
  destruct (number_to_string_nonneg q Hq) as (ds & -> & Hne & Hall & Hv & Hhd & H0).
  destruct (Z.eq_dec q 0) as [->|Hz].
  - rewrite (H0 eq_refl). simpl. now rewrite Hr.
  - destruct ds as [|c ds']; [contradiction|]. pose proof (Forall_inv Hall) as Hc.
    assert (H48 : (c =? 48) = false) by (apply Z.eqb_neq; apply Hhd; auto).
    cbn [read_int app]. rewrite H48, Hc. change (c :: ds' ++ rest) with ((c :: ds') ++ rest).
    rewrite drop_while_all_app, take_while_all_app, Hd, Ht, app_nil_r, Hv by exact Hall.
    reflexivity.
Qed.

Lemma read_frac_int sign n rest :
  number_stops rest = true -> read_frac sign n rest = Some (JNum (sign * n), rest).
Proof.
  destruct rest as [|d r]; [reflexivity|]. intros Hs. unfold read_frac.
  destruct (Z.eqb_spec d 46) as [->|]; [discriminate|]. now rewrite Hs.
Qed.

Lemma read_number_sign (neg : bool) (t : jsstr) :
  starts_digit t = true ->
  read_number ((if neg then [45] else []) ++ t : jsstr) = read_unsigned (if neg then -1 else 1) t.
Proof.
  destruct t as [|c t]; [discriminate|]. simpl. intros Hc.
  destruct neg; [reflexivity|]. simpl. now rewrite digit_not_minus.
Qed.

Lemma sign_abs z : (if z <? 0 then -1 else 1) * Z.abs z = z.
Proof. destruct (Z.ltb_spec z 0); lia. Qed.

Lemma read_number_string z rest :
  number_stops rest = true -> read_number (number_to_string z ++ rest) = Some (JNum z, rest).
Proof.
  intros Hs. rewrite number_to_string_abs, <- app_assoc.
  rewrite read_number_sign by (apply starts_digit_number; lia).
  unfold read_unsigned. rewrite read_int_digits by (try lia; now apply number_stops_no_digit).
  now rewrite read_frac_int, sign_abs.
Qed.

Lemma pad_digits_spec k r :
  0 <= r ->
  length (pad_digits k r) = k /\ Forall (fun c => is_ascii_digit c = true) (pad_digits k r)
  /\ value_of_digits 10 (map (fun c => c - 48) (pad_digits k r)) = r mod 10 ^ Z.of_nat k.
Proof.
  revert r. induction k as [|k IH]; intros r Hr; [simpl; rewrite Z.mod_1_r; auto|].
  destruct (IH (r / 10)) as (Hl & Hall & Hv); [apply Z.div_pos; lia|].
  pose proof (Z.mod_pos_bound r 10 ltac:(lia)).
  cbn [pad_digits]. rewrite length_app, Hl. simpl length. split; [lia|]. split.
  - apply Forall_app. split; [exact Hall|]. constructor; [|constructor].
    unfold is_ascii_digit. apply andb_true_iff. split; apply Z.leb_le; lia.
  - unfold value_of_digits in *. rewrite map_app, fold_left_app, Hv. cbn [fold_left map].
    rewrite Nat2Z.inj_succ, Z.pow_succ_r, Z.rem_mul_r by lia. lia.
Qed.

(** A rendered decimal reads back as itself. *)
Lemma read_number_decimal m e rest :
  (0 < e)%nat -> m mod 10 <> 0 -> number_stops rest = true ->
  read_number (decimal_to_string m e ++ rest) = Some (JDec m e, rest).
Proof.
  intros He Hm Hs. unfold decimal_to_string.
  pose proof (Z.pow_pos_nonneg 10 (Z.of_nat e) ltac:(lia) ltac:(lia)) as Hp.
  assert (Hq : 0 <= Z.abs m / 10 ^ Z.of_nat e) by (apply Z.div_pos; lia).
  assert (Hr : 0 <= Z.abs m mod 10 ^ Z.of_nat e) by (apply Z.mod_pos_bound; lia).
  rewrite <- !app_assoc, read_number_sign by (apply starts_digit_number; exact Hq).
  unfold read_unsigned. rewrite read_int_digits by (auto; reflexivity).
  destruct (pad_digits_spec e _ Hr) as (Hl & Hall & Hv). destruct (number_stops_digits rest Hs) as [Hd Ht].
  rewrite <- app_comm_cons. unfold read_frac. simpl (46 =? 46). cbv iota zeta.
  rewrite take_while_all_app, drop_while_all_app, Hd, Ht, app_nil_r by exact Hall.
  destruct (pad_digits e _) as [|c l] eqn:Ep; [simpl in Hl; lia|]. rewrite Hs, Hl, Hv.
  rewrite Z.mod_mod by lia.
  replace (Z.abs m / 10 ^ Z.of_nat e * 10 ^ Z.of_nat e + Z.abs m mod 10 ^ Z.of_nat e) with (Z.abs m)
    by (pose proof (Z.div_mod (Z.abs m) (10 ^ Z.of_nat e)); lia).
  rewrite sign_abs.
  destruct e as [|e]; [lia|]. cbn [normalize]. now rewrite (proj2 (Z.eqb_neq _ _) Hm).
Qed.

(** ** The round trip on values *)

(** The values the round trip covers: every string, keys included,
    holds code units; every integer is below 2^53 in absolute value
    (above, [Number::toString] writes the shortest digits that read back
    as the same double, not the integer); every decimal is in the
    modelled range; no infinity (written [null]). *)
Fixpoint json_okb (v : json) : bool :=
  match v with
  | JNum z => Z.abs z <? 2 ^ 53
  | JInf _ => false
  | JDec m e => Nat.ltb 0 e && negb (m mod 10 =? 0) && Nat.leb e 6 && (Z.abs m <? 10 ^ 15)
  | JStr s => forallb unit_ok s
  | JArr l => forallb json_okb l
  | JObj fs => forallb (fun kv => forallb unit_ok (fst kv) && json_okb (snd kv)) fs
  | _ => true
  end.

(** The fuel the reader needs: one per value and per element. *)
Fixpoint jsize (v : json) : nat :=
  match v with
  | JArr l => S (list_sum (map (fun x => S (jsize x)) l))
  | JObj fs => S (list_sum (map (fun kv => S (jsize (snd kv))) fs))
  | _ => 1%nat
  end.

Lemma skip_ws_stop c r : is_json_ws c = false -> skip_ws (c :: r) = c :: r.
Proof. unfold skip_ws. simpl. now intros ->. Qed.

Lemma strip_prefix_app p r : strip_prefix p (p ++ r) = Some r.
Proof. induction p as [|x p IH]; simpl; [reflexivity|]. now rewrite Z.eqb_refl. Qed.

(** Where a rendered number starts: a minus sign or a digit. *)
Definition numeric_head (t : jsstr) : Prop :=
  exists c t', t = c :: t' /\ (c = 45 \/ 48 <= c <= 57).

Lemma number_head z : numeric_head (number_to_string z).
Proof.
  destruct (number_to_string_spec z) as (ds & E & Hne & Hall & _).
  destruct (Z.ltb_spec z 0); simpl in E; [exists 45, ds; auto|].
  destruct ds as [|c ds]; [contradiction|]. apply Forall_inv in Hall.
  unfold is_ascii_digit in Hall. apply andb_true_iff in Hall as [H1 H2].
  apply Z.leb_le in H1. apply Z.leb_le in H2. exists c, ds. auto.
Qed.

(** The code units of a rendered number. *)
Definition num_char (c : Z) : Prop := c = 45 \/ 48 <= c <= 57 \/ c = 46 \/ c = 101 \/ c = 43.

Lemma number_string_chars z : Forall (fun c => c = 45 \/ 48 <= c <= 57) (number_to_string z).
Proof.
  destruct (number_to_string_spec z) as (ds & E & _ & Hall & _). rewrite E.
  apply Forall_app. split; [destruct (z <? 0); repeat constructor; auto|].
  eapply Forall_impl; [|exact Hall]. unfold is_ascii_digit. intros c H.
  apply andb_true_iff in H as [H1 H2]. apply Z.leb_le in H1. apply Z.leb_le in H2. right. lia.
Qed.

(** The significant digits and the head of the exponent form come from
    the digits of the number. *)
Lemma exponent_form_cases y :
  exponent_form y = [48] \/
  exists c t, exponent_form y = c :: t /\ (c = 45 \/ 48 <= c <= 57) /\ Forall num_char t.
Proof.
  unfold exponent_form.
  assert (Hin : forall c, In c (rev (drop_while (fun c => c =? 48) (rev (number_to_string y)))) ->
                          c = 45 \/ 48 <= c <= 57).
  { intros c H. apply in_rev, In_drop_while, in_rev in H.
    exact (proj1 (Forall_forall _ _) (number_string_chars y) c H). }
  destruct (rev (drop_while _ _)) as [|c rest] eqn:E; [now left|right].
  exists c. eexists. split; [reflexivity|]. split; [apply Hin; now left|].
  assert (Hr : Forall num_char rest).
  { apply Forall_forall. intros x Hx. destruct (Hin x (or_intror Hx)); unfold num_char; lia. }
  apply Forall_app. split; [destruct rest; [constructor|constructor; [unfold num_char; lia|exact Hr]]|].
  apply Forall_app. split; [repeat constructor; unfold num_char; lia|].
  eapply Forall_impl; [|apply number_string_chars]. unfold num_char. intros x H. lia.
Qed.

Lemma pos_to_js_cases x :
  exists c t, pos_to_js x = c :: t /\ (c = 45 \/ 48 <= c <= 57) /\ Forall num_char t.
Proof.
  unfold pos_to_js. destruct (_ <? 10 ^ 21).
  - destruct (number_head (shortest x)) as (c & t & E & Hc). exists c, t. split; [exact E|]. split; [exact Hc|].
    pose proof (number_string_chars (shortest x)) as H. rewrite E in H. inv H.
    eapply Forall_impl; [|eassumption]. unfold num_char. intros y Hy. lia.
  - destruct (exponent_form_cases (shortest x)) as [->|H]; [|exact H].
    exists 48, []. split; [reflexivity|]. split; [lia|constructor].
Qed.

Lemma number_to_js_cases z :
  exists c t, number_to_js z = c :: t /\ (c = 45 \/ 48 <= c <= 57) /\ Forall num_char t.
Proof.
  unfold number_to_js. destruct (z <? 0).
  - destruct (pos_to_js_cases (- z)) as (c & t & -> & Hc & Ht). exists 45, (c :: t).
    split; [reflexivity|]. split; [now left|]. constructor; [unfold num_char; lia|exact Ht].
  - destruct (z =? 0); [|apply pos_to_js_cases]. exists 48, []. split; [reflexivity|]. split; [lia|constructor].
Qed.

Lemma number_to_js_head z : numeric_head (number_to_js z).
Proof. destruct (number_to_js_cases z) as (c & t & E & Hc & _). now exists c, t. Qed.

Lemma decimal_head m e : numeric_head (decimal_to_string m e).
Proof.
  unfold decimal_to_string. destruct (m <? 0); [exists 45; eexists; split; [reflexivity|auto]|].
  destruct (number_head (Z.abs m / 10 ^ Z.of_nat e)) as (c & t & E & Hc).
  simpl app. rewrite E. exists c. eexists. split; [reflexivity|exact Hc].
Qed.

Lemma numeric_head_ok t :
  numeric_head t -> exists c t', t = c :: t' /\ is_json_ws c = false /\ c <> RBRACKET /\ c <> RBRACE.
Proof.
  intros (c & t' & -> & Hc). exists c, t'. unfold is_json_ws, RBRACKET, RBRACE.
  repeat split; [zbool; reflexivity|lia|lia].
Qed.

(** The reader dispatches a text starting like a number to [read_number]. *)
Lemma parse_numeric f t rest r :
  numeric_head t -> read_number (t ++ rest) = r -> parse_value (S f) (t ++ rest) = r.
Proof.
  intros (c & t' & -> & Hc) H. cbn [parse_value app].
  rewrite skip_ws_stop by (unfold is_json_ws; zbool; reflexivity).
  unfold QUOTE, LBRACKET, LBRACE. zbool. exact H.
Qed.

(** Where a serialized value starts: never a space or a closing bracket. *)
Lemma stringify_head v :
  exists c t, stringify v = c :: t /\ is_json_ws c = false /\ c <> RBRACKET /\ c <> RBRACE.
Proof.
  destruct v as [| [] |z|m e|n|s|l|fs];
    try solve [eexists _, _; split; [reflexivity|]; split; [reflexivity|]; split; discriminate].
  - apply numeric_head_ok, number_to_js_head.
  - apply numeric_head_ok, decimal_head.
Qed.

Definition roundtrips (v : json) : Prop :=
  json_okb v = true -> forall fuel rest, (jsize v <= fuel)%nat -> number_stops rest = true ->
  parse_value fuel (stringify v ++ rest) = Some (v, rest).

Lemma parse_items_join l :
  Forall roundtrips l -> forallb json_okb l = true -> l <> [] ->
  forall f rest, (list_sum (map (fun x => S (jsize x)) l) <= f)%nat ->
  parse_items f (join [COMMA] (map stringify l) ++ RBRACKET :: rest) = Some (l, rest).
Proof.
  induction 1 as [|x l Hx Hl IH]; intros Hok Hne f rest Hf; [contradiction|].
  simpl in Hok. apply andb_true_iff in Hok as [Hxok Hlok].
  destruct f as [|f]; [simpl in Hf; lia|]. simpl in Hf. cbn [parse_items].
  destruct l as [|y l'].
  - simpl join. rewrite Hx by (auto; lia). rewrite skip_ws_stop by reflexivity. reflexivity.
  - change (join [COMMA] (map stringify (x :: y :: l')))
      with (stringify x ++ [COMMA] ++ join [COMMA] (map stringify (y :: l'))).
    rewrite <- !app_assoc. change ([COMMA] ++ ?X) with (COMMA :: X).
    rewrite Hx by (auto; lia). rewrite skip_ws_stop by reflexivity.
    rewrite Z.eqb_refl, IH by (try discriminate; try lia; auto). reflexivity.
Qed.

Lemma parse_members_join fs :
  Forall (fun kv => roundtrips (snd kv)) fs ->
  forallb (fun kv => forallb unit_ok (fst kv) && json_okb (snd kv)) fs = true -> fs <> [] ->
  forall f rest, (list_sum (map (fun kv : jsstr * json => S (jsize (snd kv))) fs) <= f)%nat ->
  parse_members f
    (join [COMMA] (map (fun kv => quote (fst kv) ++ COLON :: stringify (snd kv)) fs) ++ RBRACE :: rest)
  = Some (fs, rest).
Proof.
  induction 1 as [|[k v] fs Hv Hfs IH]; intros Hok Hne f rest Hf; [contradiction|].
  simpl in Hok. apply andb_true_iff in Hok as [Hkv Hfsok]. apply andb_true_iff in Hkv as [Hk Hvok].
  destruct f as [|f]; [simpl in Hf; lia|]. simpl in Hf, Hv. cbn [parse_members].
  assert (Hm : forall sep tl, number_stops (sep :: tl) = true -> is_json_ws sep = false ->
            (sep =? COMMA) || (sep =? RBRACE) = true ->
            match skip_ws ((quote k ++ COLON :: stringify v) ++ sep :: tl) with
            | c :: r =>
                if c =? QUOTE then
                  match read_chars r with
                  | None => None
                  | Some (k', r1) =>
                      match skip_ws r1 with
                      | d :: r2 =>
                          if d =? COLON then
                            match parse_value f r2 with
                            | None => None
                            | Some (v', r3) =>
                                match skip_ws r3 with
                                | e :: r4 =>
                                    if e =? COMMA then
                                      option_map (fun fr => ((k', v') :: fst fr, snd fr)) (parse_members f r4)
                                    else if e =? RBRACE then Some ([(k', v')], r4)
                                    else None
                                | [] => None
                                end
                            end
                          else None
                      | [] => None
                      end
                  end
                else None
            | [] => None
            end
            = if sep =? COMMA then option_map (fun fr => ((k, v) :: fst fr, snd fr)) (parse_members f tl)
              else Some ([(k, v)], tl)).
  { intros sep tl Hs Hws Hsep. unfold quote. rewrite <- !app_assoc, <- !app_comm_cons, <- !app_assoc. cbn [app].
    rewrite skip_ws_stop by reflexivity. rewrite Z.eqb_refl.
    rewrite read_quote_units by exact Hk. rewrite skip_ws_stop by reflexivity. rewrite Z.eqb_refl.
    rewrite Hv by (auto; lia). rewrite skip_ws_stop by exact Hws.
    destruct (sep =? COMMA); [reflexivity|]. simpl in Hsep. now rewrite Hsep. }
  destruct fs as [|kv' fs'].
  - simpl join. rewrite Hm by reflexivity. reflexivity.
  - change (join [COMMA] (map (fun kv => quote (fst kv) ++ COLON :: stringify (snd kv)) ((k, v) :: kv' :: fs')))
      with ((quote k ++ COLON :: stringify v) ++ [COMMA]
            ++ join [COMMA] (map (fun kv => quote (fst kv) ++ COLON :: stringify (snd kv)) (kv' :: fs'))).
    rewrite <- app_assoc. change ([COMMA] ++ ?X) with (COMMA :: X). rewrite <- app_comm_cons.
    rewrite Hm by reflexivity. simpl (COMMA =? COMMA). cbv iota.
    rewrite IH by (try discriminate; try lia; auto). reflexivity.
Qed.

Lemma parse_stringify v : roundtrips v.
Proof.
  induction v as [| b | z | m e | n | s | l IH | fs IH] using json_ind';
    intros Hok fuel rest Hf Hs; (destruct fuel as [|f]; [simpl in Hf; lia|]).
  - reflexivity.
  - destruct b; reflexivity.
  - simpl in Hok. apply Z.ltb_lt in Hok. cbn [stringify]. rewrite number_to_js_safe by exact Hok.
    apply parse_numeric; [apply number_head|now apply read_number_string].
  - simpl in Hok. apply andb_true_iff in Hok as [Hok _]. apply andb_true_iff in Hok as [Hok _].
    apply andb_true_iff in Hok as [He Hm]. apply Nat.ltb_lt in He.
    apply negb_true_iff, Z.eqb_neq in Hm.
    apply parse_numeric; [apply decimal_head|now apply read_number_decimal].
  - discriminate.
  - cbn [parse_value]. simpl stringify. unfold quote. rewrite <- !app_comm_cons, <- app_assoc. cbn [app].
    rewrite skip_ws_stop by reflexivity. simpl (QUOTE =? _). cbv iota.
    rewrite read_quote_units by exact Hok. reflexivity.
  - cbn [parse_value]. simpl stringify. rewrite <- app_comm_cons, <- app_assoc. cbn [app].
    rewrite skip_ws_stop by reflexivity. simpl (LBRACKET =? _). cbv iota.
    destruct l as [|x l']; [reflexivity|].
    destruct (stringify_head x) as (c & t & E & Hws & Hb & _).
    simpl (map stringify (x :: l')). simpl in Hf.
    assert (Hj : exists u, join [COMMA] (stringify x :: map stringify l') = c :: u).
    { destruct l'; simpl; rewrite E; simpl; eauto. }
    destruct Hj as [u Hu]. rewrite Hu. cbn [app]. rewrite skip_ws_stop by exact Hws.
    apply Z.eqb_neq in Hb. rewrite Hb. rewrite app_comm_cons, <- Hu.
    change (stringify x :: map stringify l') with (map stringify (x :: l')).
    simpl in Hok. rewrite parse_items_join by (try discriminate; try (simpl; lia); auto). reflexivity.
  - cbn [parse_value]. cbn [stringify]. rewrite <- app_comm_cons, <- app_assoc. cbn [app].
    rewrite skip_ws_stop by reflexivity. simpl (LBRACE =? _). cbv iota.
    destruct fs as [|[k v] fs']; [reflexivity|]. simpl in Hf.
    assert (Hj : exists u, join [COMMA] (map (fun kv => quote (fst kv) ++ COLON :: stringify (snd kv))
                                          ((k, v) :: fs')) = QUOTE :: u).
    { destruct fs'; simpl; eauto. }
    destruct Hj as [u Hu]. rewrite Hu. cbn [app]. rewrite skip_ws_stop by reflexivity.
    simpl (QUOTE =? RBRACE). cbv iota. rewrite app_comm_cons, <- Hu.
    rewrite parse_members_join; [reflexivity|exact IH|exact Hok|discriminate|simpl; lia].
Qed.

Lemma jsize_le v : (jsize v <= length (stringify v))%nat.
Proof.
  induction v as [| [] | z | m e | n | s | l IH | fs IH] using json_ind'; try (simpl; lia).
  - destruct (number_to_js_head z) as (c & t & E & _). simpl. rewrite E. simpl. lia.
  - destruct (decimal_head m e) as (c & t & E & _). simpl. rewrite E. simpl. lia.
  - cbn [stringify jsize]. rewrite length_cons, length_app. simpl length at 2.
    pose proof (join_length_bound COMMA (map stringify l)). rewrite map_map in H.
    assert (Forall (fun x => S (jsize x) <= S (length (stringify x)))%nat l)
      by (eapply Forall_impl; [|exact IH]; simpl; lia).
    pose proof (list_sum_map_le (fun x => S (jsize x)) (fun x => S (length (stringify x))) l H0).
    lia.
  - cbn [stringify jsize]. rewrite length_cons, length_app. simpl length at 2.
    pose proof (join_length_bound COMMA
                  (map (fun kv => quote (fst kv) ++ COLON :: stringify (snd kv)) fs)) as Hj.
    rewrite map_map in Hj.
    assert (Forall (fun kv : jsstr * json => S (jsize (snd kv))
                      <= S (length (quote (fst kv) ++ COLON :: stringify (snd kv))))%nat fs).
    { eapply Forall_impl; [|exact IH]. intros [k v] Hv. cbn [fst snd] in *.
      rewrite length_app. simpl length. lia. }
    pose proof (list_sum_map_le _ _ fs H). lia.
Qed.

(** The reader decodes what [JSON.stringify] writes: the round trip on
    every JSON value whose strings hold code units. *)
Theorem parse_json_stringify v : json_okb v = true -> parse_json (stringify v) = Some v.
Proof.
  intros Hok. unfold parse_json. pose proof (jsize_le v).
  rewrite <- (app_nil_r (stringify v)) at 2.
  rewrite (parse_stringify v Hok) by (reflexivity || lia). reflexivity.
Qed.

(** ** No control character in a serialized value *)

Definition printable (c : Z) : Prop := 32 <= c.

Lemma unicode_escape_printable c : Forall printable (unicode_escape c).
Proof.
  assert (Hh : forall d, 32 <= hex_digit (d mod 16)).
  { intros d. pose proof (Z.mod_pos_bound d 16). unfold hex_digit. zbool; lia. }
  unfold unicode_escape. repeat apply Forall_cons; try apply Forall_nil; unfold printable;
    try apply Hh; unfold BACKSLASH; lia.
Qed.

Lemma quote_unit_printable c : Forall printable (quote_unit c).
Proof.
  unfold quote_unit, printable.
  zbool; try apply unicode_escape_printable; repeat constructor; unfold BACKSLASH, QUOTE; lia.
Qed.

Lemma quote_units_printable s : Forall printable (quote_units s).
Proof.
  remember (length s) as n eqn:En. revert s En.
  induction n as [n IH] using (well_founded_induction lt_wf). intros [|c r] En; [constructor|].
  assert (IHr : Forall printable (quote_units r)) by (apply (IH (length r)); simpl in En; auto; lia).
  cbn [quote_units]. destruct (is_high_surrogate c) eqn:Hh.
  - destruct r as [|d r']; [apply unicode_escape_printable|].
    destruct (is_low_surrogate d) eqn:Hl; [|apply Forall_app; auto using unicode_escape_printable].
    unfold is_high_surrogate, is_low_surrogate in *.
    apply andb_true_iff in Hh as [Hh _]. apply andb_true_iff in Hl as [Hl _].
    apply Z.leb_le in Hh. apply Z.leb_le in Hl.
    constructor; [unfold printable; lia|]. constructor; [unfold printable; lia|].
    apply (IH (length r')); simpl in En; auto; lia.
  - destruct (is_low_surrogate c); apply Forall_app;
      auto using unicode_escape_printable, quote_unit_printable.
Qed.

Lemma number_printable z : Forall printable (number_to_string z).
Proof.
  destruct (number_to_string_spec z) as (ds & E & _ & Hall & _). rewrite E.
  apply Forall_app. split; [destruct (z <? 0); repeat constructor; unfold printable; lia|].
  eapply Forall_impl; [|exact Hall]. unfold is_ascii_digit, printable. intros c H.
  apply andb_true_iff in H as [H _]. apply Z.leb_le in H. lia.
Qed.

Lemma digits_printable ds :
  Forall (fun c => is_ascii_digit c = true) ds -> Forall printable ds.
Proof.
  apply Forall_impl. unfold is_ascii_digit, printable. intros c H.
  apply andb_true_iff in H as [H _]. apply Z.leb_le in H. lia.
Qed.

Lemma decimal_printable m e : Forall printable (decimal_to_string m e).
Proof.
  unfold decimal_to_string. apply Forall_app. split; [destruct (m <? 0); repeat constructor; unfold printable; lia|].
  apply Forall_app. split; [apply number_printable|]. constructor; [unfold printable; lia|].
  apply digits_printable, pad_digits_spec, Z.mod_pos_bound.
  apply Z.pow_pos_nonneg; lia.
Qed.

Lemma quote_printable s : Forall printable (quote s).
Proof.
  unfold quote. constructor; [unfold printable, QUOTE; lia|].
  apply Forall_app. split; [apply quote_units_printable|repeat constructor; unfold printable, QUOTE; lia].
Qed.

(** A serialized value holds no control character, a line feed in
    particular: line feeds inside strings are escaped as [\n]. *)
Theorem stringify_printable v : Forall printable (stringify v).
Proof.
  induction v as [| [] | z | m e | n | s | l IH | fs IH] using json_ind';
    [ .. | destruct n | | | ];
    try (lazymatch goal with |- Forall _ (stringify (JNum _)) => fail | _ => idtac end;
         cbv [stringify js_null js_true js_false]; repeat constructor; unfold printable; lia).
  - destruct (number_to_js_cases z) as (c & t & E & Hc & Ht). cbn [stringify]. rewrite E.
    constructor; [unfold printable; lia|]. eapply Forall_impl; [|exact Ht].
    unfold num_char, printable. intros x Hx. lia.
  - apply decimal_printable.
  - apply quote_printable.
  - cbn [stringify]. constructor; [unfold printable, LBRACKET; lia|].
    apply Forall_app. split; [|repeat constructor; unfold printable, RBRACKET; lia].
    apply Forall_join; [repeat constructor; unfold printable, COMMA; lia|].
    apply Forall_map_iff. exact IH.
  - cbn [stringify]. constructor; [unfold printable, LBRACE; lia|].
    apply Forall_app. split; [|repeat constructor; unfold printable, RBRACE; lia].
    apply Forall_join; [repeat constructor; unfold printable, COMMA; lia|].
    apply Forall_map_iff. eapply Forall_impl; [|exact IH]. intros kv Hv. cbv beta.
    apply Forall_app. split; [apply quote_printable|]. constructor; [unfold printable, COLON; lia|exact Hv].
Qed.
