(* ===== verification/Frames.v ===== *)
(** * The frames on the wire (server.js lines 47-59)

    [sendToken], [sendItinerary] and [sendMetrics] write
    [JSON.stringify({ token })], [JSON.stringify({ itinerary })] and
    [JSON.stringify({ metrics })], each followed by a line feed.  The
    objects are the JSON values [frame_json]: the keys in the order the
    object literals of lines 100-109, 179-202, 114-118 and 207-211 create
    them, an absent [fullText] or [interests] left out, a [NaN] day
    number written [null] as [JSON.stringify] does.  The response body
    is the concatenation of the lines written.  A client that splits
    the body on line feeds and parses each line with the reader of
    [JsonText] gets back exactly the objects sent, in order. *)

From Stdlib Require Import String List ZArith Lia Bool.
From S2P Require Import Prelude JsString JsNumber DayParser Request Stream JsonText.
Import ListNotations.
Local Open Scope Z_scope.

(** ** The objects *)

Definition k_token : jsstr := Eval vm_compute in js "token".
Definition k_itinerary : jsstr := Eval vm_compute in js "itinerary".
Definition k_metrics : jsstr := Eval vm_compute in js "metrics".
Definition k_id : jsstr := Eval vm_compute in js "id".
Definition k_description : jsstr := Eval vm_compute in js "description".
Definition k_fullText : jsstr := Eval vm_compute in js "fullText".
Definition k_days : jsstr := Eval vm_compute in js "days".
Definition k_day : jsstr := Eval vm_compute in js "day".
Definition k_title : jsstr := Eval vm_compute in js "title".
Definition k_activities : jsstr := Eval vm_compute in js "activities".
Definition k_promptTokens : jsstr := Eval vm_compute in js "promptTokens".
Definition k_completionTokens : jsstr := Eval vm_compute in js "completionTokens".
Definition k_totalTokens : jsstr := Eval vm_compute in js "totalTokens".

(** [{ day, title, activities }] (lines 246-250); [JSON.stringify]
    writes a [NaN] or [Infinity] day as [null]. *)
Definition day_json (d : DayPlan) : json :=
  JObj [(k_day, match day d with NFin z => JNum z | _ => JNull end);
        (k_title, JStr (title d));
        (k_activities, JArr (map JStr (activities d)))].

(** The itinerary objects of lines 100-109 (all eight keys) and 179-202
    (no [fullText], no [interests]). *)
Definition itinerary_json (it : Itinerary) : json :=
  JObj ([(k_id, JNum (it_id it)); (key_destination, it_destination it);
         (key_duration, it_duration it); (key_budget, it_budget it);
         (k_description, JStr (it_description it))]
        ++ match it_fullText it with Some t => [(k_fullText, JStr t)] | None => [] end
        ++ [(k_days, JArr (map day_json (it_days it)))]
        ++ match it_interests it with Some i => [(key_interests, i)] | None => [] end).

Definition metrics_json (m : UsageMetrics) : json :=
  JObj [(k_promptTokens, JNum (promptTokens m)); (k_completionTokens, JNum (completionTokens m));
        (k_totalTokens, JNum (totalTokens m))].

(** [{ token }], [{ itinerary }], [{ metrics }]. *)
Definition frame_json (f : frame) : json :=
  match f with
  | Token t => JObj [(k_token, JStr t)]
  | ItinerarySummary it => JObj [(k_itinerary, itinerary_json it)]
  | Metrics m => JObj [(k_metrics, metrics_json m)]
  end.

(** [JSON.stringify(...) + '\n'] (lines 48, 53, 58). *)
Definition frame_line (f : frame) : jsstr := stringify (frame_json f) ++ [LF].

(** The frames of a response log, and its body: what [res.write] sent. *)
Definition frames_of (log : list event) : list frame :=
  flat_map (fun e => match e with Write f => [f] | _ => [] end) log.

Definition body_of (log : list event) : jsstr := concat (map frame_line (frames_of log)).

(** The client: split the body on line feeds, drop empty lines, parse
    each one. *)
Definition decode_body (b : jsstr) : list (option json) :=
  map parse_json (filter (fun l => negb (Nat.eqb (length l) 0)) (split_on LF b)).

(** ** Decoding the body *)

Lemma stringify_no_LF v : ~ In LF (stringify v).
Proof.
  intros H. pose proof (stringify_printable v) as Hp.
  rewrite Forall_forall in Hp. specialize (Hp _ H). unfold printable, LF in Hp. lia.
Qed.

Lemma stringify_nonempty v : negb (Nat.eqb (length (stringify v)) 0) = true.
Proof. destruct (stringify_head v) as (c & t & -> & _). reflexivity. Qed.

Lemma filter_map_all_true {A} (p : jsstr -> bool) (g : A -> jsstr) l :
  (forall x, p (g x) = true) -> filter p (map g l) = map g l.
Proof. intros H. induction l as [|x l IH]; simpl; [reflexivity|]. now rewrite H, IH. Qed.

(** C14: A client that splits the response body on line feeds and parses
    each non-empty line gets back, in order, exactly the objects of the
    frames written, provided their strings hold UTF-16 code units and
    their numbers are integers below 2^53 in absolute value or decimals
    of at most 15 significant digits (beyond, [JSON.stringify] writes
    the shortest digits of the double, which read back as the same
    double, not as the same integer): a line feed inside a token is
    escaped, so no frame is cut.  A [NaN] or infinite day is written
    and read back as [null]. *)
Theorem decode_body_frames log :
  Forall (fun f => json_okb (frame_json f) = true) (frames_of log) ->
  decode_body (body_of log) = map (fun f => Some (frame_json f)) (frames_of log).
Proof.
  intros Hok. unfold decode_body, body_of, frame_line.
  rewrite <- (map_map (fun f => stringify (frame_json f)) (fun l => l ++ [LF])).
  rewrite split_on_lines.
  - rewrite filter_app. simpl filter. rewrite app_nil_r.
    rewrite filter_map_all_true by (intros; apply stringify_nonempty).
    rewrite map_map. apply map_ext_Forall.
    eapply Forall_impl; [|exact Hok]. intros f Hf. now apply parse_json_stringify.
  - apply Forall_map_iff. apply Forall_forall. intros f _. apply stringify_no_LF.
Qed.

Lemma decode_body_frames_witness :
  let log := [SetHeader [] []; Write (Token [97; 10; 98]); Write (Metrics (MkMetrics 1 2 3)); End] in
  Forall (fun f => json_okb (frame_json f) = true) (frames_of log)
  /\ decode_body (body_of log) = map (fun f => Some (frame_json f)) (frames_of log).
Proof.
  intros log. assert (H : Forall (fun f => json_okb (frame_json f) = true) (frames_of log))
    by (repeat constructor).
  split; [exact H|apply decode_body_frames; exact H].
Defined.
