(* ===== verification/Catalog.v ===== *)
(** * Static catalog endpoints (server.js lines 16-24, 260-463)

    [GET /health], [GET /destinations], [GET /tips] and the four
    [POST /search-*] endpoints answer [res.json(...)] with fixed data.
    The search endpoints destructure [req.body], echo some fields with a
    default ([x || "Dubai"]) into each result and send the whole body
    back as [searchParams].  Each literal below is transcribed from the
    source object and array literals, keys in source order; the values
    computed from the request are the parameters of the functions, and
    [x || d] is [or_ x d] with [or_] instantiated by [js_or].
    [new Date().toISOString()] is the [timestamp] argument of the health
    answer.  The ratings [4.8], [4.5], [4.7] are the decimals
    [JDec 48 1] and so on. *)

From Stdlib Require Import String List ZArith Lia Bool.
From S2P Require Import Prelude JsString Request.
Import ListNotations.
Local Open Scope Z_scope.

(** ** The data *)

(** Lines 18-23. *)
Definition health_body : jsstr -> json :=
  Eval vm_compute in fun timestamp =>
  JObj [(js "status", JStr (js "healthy"));
          (js "timestamp", JStr timestamp);
          (js "service", JStr (js "Smart Trip Planner Backend"));
          (js "version", JStr (js "1.0.0"))].

(** Lines 262-271. *)
Definition destinations : json :=
  Eval vm_compute in
  JArr [JObj [(js "id", JNum 1);
          (js "name", JStr (js "Paris, France"));
          (js "description", JStr (js "City of Love and Lights"))];
    JObj [(js "id", JNum 2);
          (js "name", JStr (js "Tokyo, Japan"));
          (js "description", JStr (js "Modern metropolis with rich culture"))];
    JObj [(js "id", JNum 3);
          (js "name", JStr (js "New York, USA"));
          (js "description", JStr (js "The Big Apple"))];
    JObj [(js "id", JNum 4);
          (js "name", JStr (js "London, England"));
          (js "description", JStr (js "Historic and modern blend"))];
    JObj [(js "id", JNum 5);
          (js "name", JStr (js "Dubai, UAE"));
          (js "description", JStr (js "Luxury and innovation"))];
    JObj [(js "id", JNum 6);
          (js "name", JStr (js "Rome, Italy"));
          (js "description", JStr (js "Eternal City with ancient history"))];
    JObj [(js "id", JNum 7);
          (js "name", JStr (js "Bali, Indonesia"));
          (js "description", JStr (js "Tropical paradise"))];
    JObj [(js "id", JNum 8);
          (js "name", JStr (js "Sydney, Australia"));
          (js "description", JStr (js "Harbor city with iconic landmarks"))]].

(** Lines 278-287. *)
Definition tips : json :=
  Eval vm_compute in
  JArr [JStr (js "Book flights in advance for better deals");
        JStr (js "Pack light and bring versatile clothing");
        JStr (js "Research local customs and etiquette");
        JStr (js "Keep digital and physical copies of important documents");
        JStr (js "Notify your bank about travel plans");
        JStr (js "Download offline maps and translation apps");
        JStr (js "Pack a universal power adapter");
        JStr (js "Consider travel insurance")].

(** Lines 296-331: [from || "New York"] and [to || "Dubai"] in each. *)
Definition flights_with : (option json -> json -> json) -> option json -> option json -> json :=
  Eval vm_compute in fun or_ from to =>
  JArr [JObj [(js "id", JNum 1);
          (js "airline", JStr (js "Emirates"));
          (js "from", (or_ from (JStr (js "New York"))));
          (js "to", (or_ to (JStr (js "Dubai"))));
          (js "departTime", JStr (js "08:00"));
          (js "arriveTime", JStr (js "20:30"));
          (js "duration", JStr (js "12h 30m"));
          (js "price", JNum 850);
          (js "stops", JNum 0)];
    JObj [(js "id", JNum 2);
          (js "airline", JStr (js "British Airways"));
          (js "from", (or_ from (JStr (js "New York"))));
          (js "to", (or_ to (JStr (js "Dubai"))));
          (js "departTime", JStr (js "14:15"));
          (js "arriveTime", JStr (js "09:45+1"));
          (js "duration", JStr (js "15h 30m"));
          (js "price", JNum 720);
          (js "stops", JNum 1)];
    JObj [(js "id", JNum 3);
          (js "airline", JStr (js "Qatar Airways"));
          (js "from", (or_ from (JStr (js "New York"))));
          (js "to", (or_ to (JStr (js "Dubai"))));
          (js "departTime", JStr (js "22:00"));
          (js "arriveTime", JStr (js "18:20+1"));
          (js "duration", JStr (js "14h 20m"));
          (js "price", JNum 890);
          (js "stops", JNum 1)]].

Definition flights : option json -> option json -> json := flights_with js_or.

(** Lines 340-372: [destination || "Dubai"]. *)
Definition hotels_with : (option json -> json -> json) -> option json -> json :=
  Eval vm_compute in fun or_ destination =>
  JArr [JObj [(js "id", JNum 1);
          (js "name", JStr (js "Grand Palace Hotel"));
          (js "location", (or_ destination (JStr (js "Dubai"))));
          (js "rating", JNum 5);
          (js "price", JNum 250);
          (js "currency", JStr (js "USD"));
          (js "amenities", JArr [JStr (js "Wi-Fi");
        JStr (js "Pool");
        JStr (js "Gym");
        JStr (js "Spa");
        JStr (js "Restaurant")]);
          (js "image", JStr (js "hotel1.jpg"))];
    JObj [(js "id", JNum 2);
          (js "name", JStr (js "City Center Inn"));
          (js "location", (or_ destination (JStr (js "Dubai"))));
          (js "rating", JNum 4);
          (js "price", JNum 120);
          (js "currency", JStr (js "USD"));
          (js "amenities", JArr [JStr (js "Wi-Fi");
        JStr (js "Breakfast");
        JStr (js "Gym")]);
          (js "image", JStr (js "hotel2.jpg"))];
    JObj [(js "id", JNum 3);
          (js "name", JStr (js "Luxury Resort & Spa"));
          (js "location", (or_ destination (JStr (js "Dubai"))));
          (js "rating", JNum 5);
          (js "price", JNum 380);
          (js "currency", JStr (js "USD"));
          (js "amenities", JArr [JStr (js "Wi-Fi");
        JStr (js "Pool");
        JStr (js "Spa");
        JStr (js "Beach Access");
        JStr (js "All-Inclusive")]);
          (js "image", JStr (js "hotel3.jpg"))]].

Definition hotels : option json -> json := hotels_with js_or.

(** Lines 381-416: [location || "Dubai Airport"]. *)
Definition cars_with : (option json -> json -> json) -> option json -> json :=
  Eval vm_compute in fun or_ location =>
  JArr [JObj [(js "id", JNum 1);
          (js "brand", JStr (js "Toyota"));
          (js "model", JStr (js "Camry"));
          (js "type", JStr (js "Sedan"));
          (js "location", (or_ location (JStr (js "Dubai Airport"))));
          (js "pricePerDay", JNum 45);
          (js "currency", JStr (js "USD"));
          (js "features", JArr [JStr (js "Automatic");
        JStr (js "A/C");
        JStr (js "GPS");
        JStr (js "4 Doors");
        JStr (js "5 Seats")]);
          (js "image", JStr (js "car1.jpg"))];
    JObj [(js "id", JNum 2);
          (js "brand", JStr (js "Nissan"));
          (js "model", JStr (js "Altima"));
          (js "type", JStr (js "SUV"));
          (js "location", (or_ location (JStr (js "Dubai Airport"))));
          (js "pricePerDay", JNum 65);
          (js "currency", JStr (js "USD"));
          (js "features", JArr [JStr (js "Automatic");
        JStr (js "A/C");
        JStr (js "GPS");
        JStr (js "4WD");
        JStr (js "7 Seats")]);
          (js "image", JStr (js "car2.jpg"))];
    JObj [(js "id", JNum 3);
          (js "brand", JStr (js "BMW"));
          (js "model", JStr (js "3 Series"));
          (js "type", JStr (js "Luxury"));
          (js "location", (or_ location (JStr (js "Dubai Airport"))));
          (js "pricePerDay", JNum 120);
          (js "currency", JStr (js "USD"));
          (js "features", JArr [JStr (js "Automatic");
        JStr (js "A/C");
        JStr (js "GPS");
        JStr (js "Leather");
        JStr (js "Premium Audio")]);
          (js "image", JStr (js "car3.jpg"))]].

Definition cars : option json -> json := cars_with js_or.

(** Lines 425-460: [cuisine || ...] with a default per restaurant,
    [location || "Dubai"]. *)
Definition restaurants_with : (option json -> json -> json) -> option json -> option json -> json :=
  Eval vm_compute in fun or_ cuisine location =>
  JArr [JObj [(js "id", JNum 1);
          (js "name", JStr (js "The Golden Spoon"));
          (js "cuisine", (or_ cuisine (JStr (js "International"))));
          (js "location", (or_ location (JStr (js "Dubai"))));
          (js "rating", JDec 48 1);
          (js "priceRange", JStr (js "$$$$"));
          (js "openHours", JStr (js "6:00 PM - 11:00 PM"));
          (js "specialties", JArr [JStr (js "Seafood");
        JStr (js "Steaks");
        JStr (js "Fine Dining")]);
          (js "image", JStr (js "restaurant1.jpg"))];
    JObj [(js "id", JNum 2);
          (js "name", JStr (js "Street Food Paradise"));
          (js "cuisine", (or_ cuisine (JStr (js "Local"))));
          (js "location", (or_ location (JStr (js "Dubai"))));
          (js "rating", JDec 45 1);
          (js "priceRange", JStr (js "$$"));
          (js "openHours", JStr (js "11:00 AM - 10:00 PM"));
          (js "specialties", JArr [JStr (js "Local Dishes");
        JStr (js "Casual Dining");
        JStr (js "Family Friendly")]);
          (js "image", JStr (js "restaurant2.jpg"))];
    JObj [(js "id", JNum 3);
          (js "name", JStr (js "Rooftop Bistro"));
          (js "cuisine", (or_ cuisine (JStr (js "Mediterranean"))));
          (js "location", (or_ location (JStr (js "Dubai"))));
          (js "rating", JDec 47 1);
          (js "priceRange", JStr (js "$$$"));
          (js "openHours", JStr (js "5:00 PM - 12:00 AM"));
          (js "specialties", JArr [JStr (js "Mediterranean");
        JStr (js "City Views");
        JStr (js "Cocktails")]);
          (js "image", JStr (js "restaurant3.jpg"))]].

Definition restaurants : option json -> option json -> json := restaurants_with js_or.

(** ** The handlers *)

Definition key_from : jsstr := Eval vm_compute in js "from".
Definition key_to : jsstr := Eval vm_compute in js "to".
Definition key_location : jsstr := Eval vm_compute in js "location".
Definition key_cuisine : jsstr := Eval vm_compute in js "cuisine".
Definition key_searchParams : jsstr := Eval vm_compute in js "searchParams".
Definition key_flights : jsstr := Eval vm_compute in js "flights".
Definition key_hotels : jsstr := Eval vm_compute in js "hotels".
Definition key_cars : jsstr := Eval vm_compute in js "cars".
Definition key_restaurants : jsstr := Eval vm_compute in js "restaurants".

(** [GET /health] (lines 17-24). *)
Definition health_handler (timestamp : jsstr) : json := health_body timestamp.

(** [GET /destinations] (lines 261-274) and [GET /tips] (lines 277-290). *)
Definition destinations_handler : json := destinations.
Definition tips_handler : json := tips.

(** [POST /search-flights] (lines 293-334): [const { from, to, ... } =
    req.body], the results, and [{ flights, searchParams: req.body }]. *)
Definition search_flights (body : json) : json :=
  JObj [(key_flights, flights (get_field body key_from) (get_field body key_to));
        (key_searchParams, body)].

(** [POST /search-hotels] (lines 337-375). *)
Definition search_hotels (body : json) : json :=
  JObj [(key_hotels, hotels (get_field body key_destination)); (key_searchParams, body)].

(** [POST /search-cars] (lines 378-419). *)
Definition search_cars (body : json) : json :=
  JObj [(key_cars, cars (get_field body key_location)); (key_searchParams, body)].

(** [POST /search-restaurants] (lines 422-463). *)
Definition search_restaurants (body : json) : json :=
  JObj [(key_restaurants, restaurants (get_field body key_cuisine) (get_field body key_location));
        (key_searchParams, body)].
