(* ===== verification/Fallback.v ===== *)
(** * FallbackGenerator: [generateDemoItinerary] (server.js lines 129-215)

    The fallback writes 32 fixed text fragments as token frames (the
    200 ms pause between them is timing only and is not modelled), then
    an itinerary object whose days are hardcoded (the fragments are not
    parsed) and the fixed metrics 50/300/350, and ends the response.
    The fragments are computed from the request: [finalDestination],
    [duration || '3'], [budget || '1000'] rendered by [ToString], and
    [interests?.join(', ')]; any of them throws a [TypeError] (an object
    with an own [toString], an [interests] that is neither nullish nor
    an array) before anything is written.  The itinerary's description
    renders [finalDestination] again (line 184), after the tokens. *)

From Stdlib Require Import String List ZArith Lia Bool.
From S2P Require Import Prelude JsString JsNumber DayParser Request Stream.
Import ListNotations.
Local Open Scope st_scope.

Definition NL : jsstr := [10%Z].

Definition highlights_default : jsstr :=
  Eval vm_compute in js "Cultural sites, outdoor activities".

(** The array literal of lines 131-171 with its template holes:
    [fd] is [${finalDestination}], [dur] is [${duration || '3'}], [bud]
    is [${budget || '1000'}], [hl] is [${interests?.join(', ') || ...}],
    and each [\n] escape is [NL].  The literals are decoded once. *)
Definition itineraryParts_text : jsstr -> jsstr -> jsstr -> jsstr -> list jsstr :=
  Eval vm_compute in
  fun fd dur bud hl =>
    [
     (* line 132 *) js "ğŸï¸ **Welcome to your " ++ fd ++ js " adventure!**" ++ NL ++ NL;
     (* line 133 *) js "ğŸ“… **" ++ dur ++ js "-Day Itinerary for " ++ fd ++ js "**" ++ NL ++ NL;
     (* line 134 *) js "ğŸ’° **Budget**: $" ++ bud ++ js " per person" ++ NL ++ NL;
     (* line 136 *) js "**Day 1: Arrival & City Exploration**" ++ NL;
     (* line 137 *) js "ğŸŒ… Morning: Arrive and check into your hotel" ++ NL;
     (* line 138 *) js "ğŸ›ï¸ Afternoon: Visit main landmarks and historic sites" ++ NL;
     (* line 139 *) js "ğŸ½ï¸ Evening: Try local cuisine at recommended restaurants" ++ NL;
     (* line 140 *) js "ğŸ“ Must-visit: City center, local markets" ++ NL ++ NL;
     (* line 142 *) js "**Day 2: Cultural & Adventure Activities**" ++ NL;
     (* line 143 *) js "ğŸ¨ Morning: Museums and cultural attractions" ++ NL;
     (* line 144 *) js "ğŸï¸ Afternoon: Outdoor activities and nature spots" ++ NL;
     (* line 145 *) js "ğŸ­ Evening: Local entertainment and nightlife" ++ NL;
     (* line 146 *) js "ğŸ“ Highlights: " ++ hl ++ NL ++ NL;
     (* line 148 *) js "**Day 3: Local Experiences & Departure**" ++ NL;
     (* line 149 *) js "ğŸ›ï¸ Morning: Shopping for local souvenirs" ++ NL;
     (* line 150 *) js "â˜• Afternoon: Relax at local cafes and final sightseeing" ++ NL;
     (* line 151 *) js "âœˆï¸ Evening: Departure preparations" ++ NL ++ NL;
     (* line 153 *) js "**ğŸ“ Key Locations:**" ++ NL;
     (* line 154 *) js "â€¢ Central Plaza, " ++ fd ++ NL;
     (* line 155 *) js "â€¢ Historic District, " ++ fd ++ NL;
     (* line 156 *) js "â€¢ Local Market Square, " ++ fd ++ NL;
     (* line 157 *) js "â€¢ Scenic Viewpoint, " ++ fd ++ NL ++ NL;
     (* line 159 *) js "**ğŸ’¡ Pro Tips:**" ++ NL;
     (* line 160 *) js "â€¢ Book accommodations in advance" ++ NL;
     (* line 161 *) js "â€¢ Try local transportation options" ++ NL;
     (* line 162 *) js "â€¢ Don't forget travel insurance" ++ NL;
     (* line 163 *) js "â€¢ Learn basic local phrases" ++ NL ++ NL;
     (* line 165 *) js "**ğŸ“± Useful Apps:**" ++ NL;
     (* line 166 *) js "â€¢ Google Maps for navigation" ++ NL;
     (* line 167 *) js "â€¢ Google Translate for communication" ++ NL;
     (* line 168 *) js "â€¢ Local weather app" ++ NL ++ NL;
     (* line 170 *) js "Have an amazing trip to " ++ fd ++ js "! ğŸ‰"
    ].

(** Lines 131-171 evaluated on a request: the holes are rendered in
    the order of the source (lines 132, 133, 134, 146), the first one
    that throws ends the evaluation. *)
Definition itineraryParts (r : request) : exn + list jsstr :=
  let? fd := to_js_string (finalDestination r) in
  let? dur := to_js_string (duration_or_default r) in
  let? bud := to_js_string (budget_or_default r) in
  let? hl := interests_text (interests r) highlights_default in
  inr (itineraryParts_text fd dur bud hl).

(** The days of lines 185-201. *)
Definition demo_days : list DayPlan := Eval vm_compute in
  [ MkDay (NFin 1%Z) (js "Arrival & City Exploration")
      [js "Check into hotel"; js "Visit landmarks"; js "Try local cuisine"];
    MkDay (NFin 2%Z) (js "Cultural & Adventure Activities")
      [js "Museums"; js "Outdoor activities"; js "Local entertainment"];
    MkDay (NFin 3%Z) (js "Local Experiences & Departure")
      [js "Shopping"; js "Cafes"; js "Departure preparations"] ].

Definition wonderful_trip : jsstr := Eval vm_compute in js "A wonderful trip to ".

(** The object of lines 179-202; [id] is [Date.now()], the clock value
    [now]; [fd] is [${finalDestination}] of the description. *)
Definition demo_itinerary (now : Z) (r : request) (fd : jsstr) : Itinerary :=
  MkItinerary now (finalDestination r) (duration_or_default r) (budget_or_default r)
    (wonderful_trip ++ fd) None demo_days None.

(** Lines 207-211. *)
Definition demo_metrics : UsageMetrics := MkMetrics 50 300 350.

(** [generateDemoItinerary] (lines 130-215). *)
Definition generateDemoItinerary (now : Z) (r : request) : H unit :=
  match itineraryParts r with
  | inl e => raise e
  | inr parts =>
      for_each sendToken parts ;;
      fd <- of_sum (to_js_string (finalDestination r)) ;;
      sendItinerary (demo_itinerary now r fd) ;;
      sendMetrics demo_metrics ;;
      res_end
  end.

(** ** Properties *)

Lemma length_itineraryParts_text fd dur bud hl : length (itineraryParts_text fd dur bud hl) = 32%nat.
Proof. reflexivity. Qed.

Lemma for_each_sendToken ts log : for_each sendToken ts log = (Ok tt, log ++ token_events ts).
Proof.
  revert log. induction ts as [|t ts IH]; intros log; simpl.
  - now rewrite app_nil_r.
  - unfold bind at 1. simpl. rewrite IH. now rewrite <- app_assoc.
Qed.

Definition finish_events (it : Itinerary) (m : UsageMetrics) : list event :=
  [Write (ItinerarySummary it); Write (Metrics m); End].

(** The fallback's fragments exist exactly when the request renders;
    then the destination renders too. *)
Lemma itineraryParts_result r :
  (request_renders r = false /\ itineraryParts r = inl TypeError)
  \/ (request_renders r = true /\ exists fd parts, to_js_string (finalDestination r) = inr fd
        /\ itineraryParts r = inr parts /\ length parts = 32%nat).
Proof.
  destruct (render_holes_cases r highlights_default itineraryParts_text)
    as [[Hr (fd & dur & bud & hl & Hfd & E)]|[Hr E]]; unfold itineraryParts.
  - right. split; [exact Hr|]. exists fd, (itineraryParts_text fd dur bud hl).
    split; [exact Hfd|]. split; [exact E|reflexivity].
  - left. split; [exact Hr|exact E].
Qed.

Lemma itineraryParts_fd r parts :
  itineraryParts r = inr parts -> exists fd, to_js_string (finalDestination r) = inr fd.
Proof.
  intros Hp. destruct (itineraryParts_result r) as [[_ E]|[_ (fd & _ & Hfd & _)]]; [congruence|eauto].
Qed.

(** The log of the fallback: it throws before writing anything, or
    writes its fragments, the itinerary, the metrics and the end. *)
Lemma generateDemoItinerary_log now r log :
  generateDemoItinerary now r log =
  match itineraryParts r, to_js_string (finalDestination r) with
  | inl e, _ => (Raise e, log)
  | inr parts, inl e => (Raise e, log ++ token_events parts)
  | inr parts, inr fd =>
      (Ok tt, log ++ token_events parts ++ finish_events (demo_itinerary now r fd) demo_metrics)
  end.
Proof.
  unfold generateDemoItinerary. destruct (itineraryParts r) as [e|parts]; [reflexivity|].
  unfold bind at 1. rewrite for_each_sendToken.
  destruct (to_js_string (finalDestination r)) as [e|fd]; [reflexivity|].
  cbn. unfold res_end, emit, finish_events. now rewrite <- !app_assoc.
Qed.

(** C23: The fallback throws a [TypeError] before writing anything
    exactly when one of the rendered values does not render: the final
    destination, [duration || '3'] or [budget || '1000'] is an object
    with an own [toString] or an array holding one, or [interests] is
    neither nullish nor an array of renderable values; otherwise it has
    32 fragments. *)
Theorem itineraryParts_cases r :
  (request_renders r = false /\ itineraryParts r = inl TypeError)
  \/ (request_renders r = true /\ exists parts, itineraryParts r = inr parts /\ length parts = 32%nat).
Proof.
  destruct (itineraryParts_result r) as [H|[Hr (fd & parts & _ & Hp & Hl)]]; [now left|].
  right. split; [exact Hr|]. now exists parts.
Qed.

(** The final destination appears in the welcome and title fragments,
    in each of the four key-location lines and in the sign-off. *)
Lemma itineraryParts_text_mentions fd dur bud hl :
  Forall (fun i => contains (nth i (itineraryParts_text fd dur bud hl) []) fd)
    [0; 1; 18; 19; 20; 21; 31]%nat.
Proof. repeat constructor; simpl nth; solve_contains. Qed.

(** C29: The day-by-day narrative of the fallback (fragments 3-16, lines
    136-151) does not depend on the destination: apart from the
    highlights line it is fixed text, so it cannot mention the
    destination the specification says it carries. *)
Theorem day_text_ignores_destination fd fd' dur bud hl i :
  In i (seq 3 14) ->
  nth i (itineraryParts_text fd dur bud hl) [] = nth i (itineraryParts_text fd' dur bud hl) [].
Proof. simpl. intros H. repeat destruct H as [<-|H]; [reflexivity ..|contradiction]. Qed.

(** ** Determinism *)

(** The itinerary frame with its time-derived [id] erased. *)
Definition erase_id (ev : event) : event :=
  match ev with
  | Write (ItinerarySummary it) =>
      Write (ItinerarySummary
               (MkItinerary 0 (it_destination it) (it_duration it) (it_budget it)
                  (it_description it) (it_fullText it) (it_days it) (it_interests it)))
  | _ => ev
  end.

(** C22: The fallback is deterministic: two runs on the same request and
    log, at different clock values, have the same outcome and write the
    same events except for the itinerary's [id]. *)
Theorem fallback_deterministic now1 now2 r log :
  fst (generateDemoItinerary now1 r log) = fst (generateDemoItinerary now2 r log)
  /\ map erase_id (snd (generateDemoItinerary now1 r log))
     = map erase_id (snd (generateDemoItinerary now2 r log)).
Proof.
  rewrite !generateDemoItinerary_log.
  destruct (itineraryParts r); [auto|]. destruct (to_js_string (finalDestination r)); [auto|].
  simpl. split; [reflexivity|]. now rewrite !map_app.
Qed.

Lemma day_text_ignores_destination_witness :
  In 3%nat (seq 3 14)
  /\ nth 3 (itineraryParts_text (js "Paris") (js "2") (js "1000") (js "food")) []
  = nth 3 (itineraryParts_text (js "Kyoto") (js "2") (js "1000") (js "food")) [].
Proof. split; [simpl; auto|apply day_text_ignores_destination; simpl; auto]. Defined.
