(* ===== verification/Orchestrator.v ===== *)
(** * GenerationOrchestrator: the [/generate-itinerary] handler (server.js lines 26-221)

    The handler sets the four streaming headers, destructures the body,
    computes [finalDestination], answers 400 when neither [destination]
    nor [prompt] is truthy, and otherwise runs, inside [try]:
    the fallback when no Gemini key is configured, or the AI path:
    build the prompt (lines 73-88), stream the chunks of
    [generateContentStream] as token frames while accumulating
    [fullText], then send the itinerary (days from
    [extractDaysFromText]) and the metrics estimate, and end.  The
    [catch] runs the fallback after any exception; an exception of the
    fallback itself escapes the handler.  Every template literal renders
    its holes with [ToString], which throws a [TypeError] on an object
    with an own [toString]: the log message of line 44 before the
    [try], the prompt, the descriptions, the fallback's fragments.

    The Gemini client is the injected collaborator [GeminiClient]: for a
    prompt it either throws at once ([AIThrows]) or yields a finite
    list of chunks and then either completes or throws
    ([AIChunks chunks completes]), which covers a failure after any
    number of chunks.  The environment gives the API key and the clock
    ([Date.now()]).  [console.log] has no effect; the registration of
    the [close] listener (which only logs) is an event of the log. *)

From Stdlib Require Import String List ZArith Lia Bool.
From S2P Require Import Prelude JsString DayParser Request Stream Fallback.
Import ListNotations.
Local Open Scope st_scope.

(** ** The collaborator and the environment *)

Inductive ai_stream :=
| AIThrows
| AIChunks (chunks : list jsstr) (completes : bool).

Class GeminiClient := { generateContentStream : jsstr -> ai_stream }.

Record env := MkEnv { GEMINI_API_KEY : option jsstr; clock : Z }.

Definition demo_key : jsstr := Eval vm_compute in js "demo-key".

(** Line 63: [!process.env.GEMINI_API_KEY || ... === 'demo-key']. *)
Definition demo_mode (e : env) : bool :=
  match GEMINI_API_KEY e with
  | None => true
  | Some k => Nat.eqb (length k) 0 || jsstr_eqb k demo_key
  end.

(** ** The prompt (lines 73-88) *)

Definition general_interests : jsstr :=
  Eval vm_compute in js "General sightseeing, culture, food".

Definition aiPrompt_text : jsstr -> jsstr -> jsstr -> jsstr -> jsstr :=
  Eval vm_compute in
  fun fd dur bud ints =>
    js "Create a detailed travel itinerary for: " ++ fd ++ NL ++
    js "    " ++ NL ++
    js "Duration: " ++ dur ++ js " days" ++ NL ++
    js "Budget: $" ++ bud ++ js " per person" ++ NL ++
    js "Interests: " ++ ints ++ NL ++
    NL ++
    js "Please provide:" ++ NL ++
    js "1. Day-by-day detailed itinerary with specific activities and timings" ++ NL ++
    js "2. Recommended restaurants and local cuisines" ++ NL ++
    js "3. Transportation tips" ++ NL ++
    js "4. Budget breakdown" ++ NL ++
    js "5. Cultural insights and local tips" ++ NL ++
    js "6. Weather considerations" ++ NL ++
    js "7. Packing suggestions" ++ NL ++
    NL ++
    js "Format the response with clear headings, emojis, and helpful details. Make it engaging and practical.".

(** The template literal of lines 73-88: its holes are rendered in
    order, the first one that throws ends the evaluation. *)
Definition aiPrompt (r : request) : exn + jsstr :=
  let? fd := to_js_string (finalDestination r) in
  let? dur := to_js_string (duration_or_default r) in
  let? bud := to_js_string (budget_or_default r) in
  let? ints := interests_text (interests r) general_interests in
  inr (aiPrompt_text fd dur bud ints).

(** ** MetricsEstimator (lines 114-118): a quarter of the lengths,
    rounded down. *)
Definition estimate_metrics (aiPrompt fullText : jsstr) : UsageMetrics :=
  MkMetrics (Z.of_nat (length aiPrompt) / 4) (Z.of_nat (length fullText) / 4)
            ((Z.of_nat (length aiPrompt) + Z.of_nat (length fullText)) / 4).

Definition ai_generated : jsstr := Eval vm_compute in js "AI-generated trip to ".

(** The object of lines 100-109; [fd] is [${finalDestination}] of the
    description. *)
Definition ai_itinerary (now : Z) (r : request) (fullText fd : jsstr) : Itinerary :=
  MkItinerary now (finalDestination r) (duration_or_default r) (budget_or_default r)
    (ai_generated ++ fd) (Some fullText)
    (extractDaysFromText fullText) (Some (js_or (interests r) (JArr []))).

Section Handler.
Context {client : GeminiClient}.

(** The AI path (lines 70-121): the [for await] loop writes each chunk
    as it arrives; [fullText] is their concatenation. *)
Definition ai_generate (e : env) (r : request) : H unit :=
  match aiPrompt r with
  | inl ex => raise ex
  | inr p =>
      match generateContentStream p with
      | AIThrows => raise GeminiError
      | AIChunks chunks completes =>
          for_each sendToken chunks ;;
          if completes then
            fd <- of_sum (to_js_string (finalDestination r)) ;;
            sendItinerary (ai_itinerary (clock e) r (concat chunks) fd) ;;
            sendMetrics (estimate_metrics p (concat chunks)) ;;
            res_end
          else raise GeminiError
      end
  end.

(** The handler of lines 27-221.  Line 44 logs a template literal
    rendering [finalDestination] before the [try]: the message is not
    modelled, its rendering, which may throw, is.  In demo mode the
    [try] body ends with [return] (line 66), the [true] below; otherwise
    control reaches the [req.on('close', ...)] of line 218 after the
    [try]/[catch]. *)
Definition generate_itinerary (e : env) (body : json) : H unit :=
  set_stream_headers ;;
  let r := parse_request body in
  if rejected r then reject_400
  else
    _ <- of_sum (to_js_string (finalDestination r)) ;;
    returned <- catch (if demo_mode e then generateDemoItinerary (clock e) r ;; ret true
                       else ai_generate e r ;; ret false)
                      (fun _ => generateDemoItinerary (clock e) r ;; ret false) ;;
    if returned then ret tt else emit OnClose.

End Handler.

(** ** Lemmas on the two paths *)

Lemma set_stream_headers_log log : set_stream_headers log = (Ok tt, log ++ stream_headers).
Proof. apply for_each_emit. Qed.

Lemma aiPrompt_cases r :
  (request_renders r = false /\ aiPrompt r = inl TypeError)
  \/ (request_renders r = true /\ exists fd p, to_js_string (finalDestination r) = inr fd
        /\ aiPrompt r = inr p).
Proof.
  destruct (render_holes_cases r general_interests aiPrompt_text)
    as [[Hr (fd & dur & bud & ints & Hfd & E)]|[Hr E]]; unfold aiPrompt.
  - right. split; [exact Hr|]. exists fd, (aiPrompt_text fd dur bud ints). now split.
  - left. now split.
Qed.

Lemma aiPrompt_fd r p : aiPrompt r = inr p -> exists fd, to_js_string (finalDestination r) = inr fd.
Proof. intros Hp. destruct (aiPrompt_cases r) as [[_ E]|[_ (fd & _ & Hfd & _)]]; [congruence|eauto]. Qed.

Lemma token_events_app a b : token_events (a ++ b) = token_events a ++ token_events b.
Proof. apply map_app. Qed.

Section HandlerFacts.
Context {client : GeminiClient}.

Lemma ai_generate_spec e r log :
  ai_generate e r log =
  match aiPrompt r with
  | inl ex => (Raise ex, log)
  | inr p =>
      match generateContentStream p with
      | AIThrows => (Raise GeminiError, log)
      | AIChunks cs true =>
          match to_js_string (finalDestination r) with
          | inl ex => (Raise ex, log ++ token_events cs)
          | inr fd =>
              (Ok tt, log ++ token_events cs
                      ++ finish_events (ai_itinerary (clock e) r (concat cs) fd)
                                       (estimate_metrics p (concat cs)))
          end
      | AIChunks cs false => (Raise GeminiError, log ++ token_events cs)
      end
  end.
Proof.
  unfold ai_generate. destruct (aiPrompt r) as [ex|p]; [reflexivity|].
  destruct (generateContentStream p) as [|cs []]; [reflexivity| |];
    unfold bind at 1; rewrite for_each_sendToken; [|reflexivity].
  destruct (to_js_string (finalDestination r)) as [ex|fd]; [reflexivity|].
  cbn. unfold res_end, emit, finish_events. now rewrite <- !app_assoc.
Qed.

(** [c ;; ret b]. *)
Lemma then_ret {A} (c : H unit) (b : A) log :
  bind c (fun _ => ret b) log
  = match c log with (Ok _, l) => (Ok b, l) | (Raise ex, l) => (Raise ex, l) end.
Proof. unfold bind. destruct (c log) as [[]]; reflexivity. Qed.

(** The handler on a request that passes validation: the [try] body,
    then the [catch] on the log the body left, then the listener unless
    the body returned. *)
Lemma generate_itinerary_accepted e body log fd :
  rejected (parse_request body) = false ->
  to_js_string (finalDestination (parse_request body)) = inr fd ->
  generate_itinerary e body log =
  bind (catch (if demo_mode e then generateDemoItinerary (clock e) (parse_request body) ;; ret true
               else ai_generate e (parse_request body) ;; ret false)
              (fun _ => generateDemoItinerary (clock e) (parse_request body) ;; ret false))
       (fun returned => if returned then ret tt else emit OnClose)
       (log ++ stream_headers).
Proof.
  intros Hr Hfd. unfold generate_itinerary. unfold bind at 1.
  rewrite set_stream_headers_log, Hr. unfold bind at 1. now rewrite Hfd.
Qed.

(** The log message of line 44 throws when the destination does not
    render: the exception escapes before the [try]. *)
Lemma generate_itinerary_log_throws e body log ex :
  rejected (parse_request body) = false ->
  to_js_string (finalDestination (parse_request body)) = inl ex ->
  generate_itinerary e body log = (Raise ex, log ++ stream_headers).
Proof.
  intros Hr Hfd. unfold generate_itinerary. unfold bind at 1.
  rewrite set_stream_headers_log, Hr. unfold bind at 1. now rewrite Hfd.
Qed.

Lemma demo_ok now r log parts fd :
  itineraryParts r = inr parts -> to_js_string (finalDestination r) = inr fd ->
  generateDemoItinerary now r log
  = (Ok tt, log ++ token_events parts ++ finish_events (demo_itinerary now r fd) demo_metrics).
Proof. intros Hp Hfd. now rewrite generateDemoItinerary_log, Hp, Hfd. Qed.

End HandlerFacts.

(** ** The handler, branch by branch *)

Section Properties.
Context {client : GeminiClient}.

(** What a fallback run writes after the stream headers. *)
Definition demo_events (now : Z) (r : request) (parts : list jsstr) (fd : jsstr) : list event :=
  token_events parts ++ finish_events (demo_itinerary now r fd) demo_metrics.

(** The listener registration that follows the [try]/[catch], absent
    when the demo branch returned. *)
Definition close_listener (demo : bool) : list event := if demo then [] else [OnClose].

(** The log of an accepted request whose fallback fragments exist,
    branch by branch. *)
Lemma generate_itinerary_log e body parts fd :
  rejected (parse_request body) = false ->
  itineraryParts (parse_request body) = inr parts ->
  to_js_string (finalDestination (parse_request body)) = inr fd ->
  generate_itinerary e body []
  = (Ok tt, stream_headers ++
      (if demo_mode e then demo_events (clock e) (parse_request body) parts fd
       else match aiPrompt (parse_request body) with
            | inl _ => demo_events (clock e) (parse_request body) parts fd
            | inr p =>
                match generateContentStream p with
                | AIThrows => demo_events (clock e) (parse_request body) parts fd
                | AIChunks cs true =>
                    token_events cs
                    ++ finish_events (ai_itinerary (clock e) (parse_request body) (concat cs) fd)
                                     (estimate_metrics p (concat cs))
                | AIChunks cs false =>
                    token_events cs ++ demo_events (clock e) (parse_request body) parts fd
                end
            end) ++ close_listener (demo_mode e)).
Proof.
  intros Hr Hp Hfd. rewrite (generate_itinerary_accepted _ _ _ _ Hr Hfd).
  simpl app. unfold demo_events, close_listener. unfold bind at 1, catch.
  destruct (demo_mode e).
  - rewrite then_ret, (demo_ok _ _ _ _ _ Hp Hfd). now rewrite app_nil_r.
  - rewrite then_ret, ai_generate_spec.
    destruct (aiPrompt (parse_request body)) as [ex|p];
      [rewrite then_ret, (demo_ok _ _ _ _ _ Hp Hfd); unfold emit; now rewrite <- app_assoc|].
    destruct (generateContentStream p) as [|cs []];
      [rewrite then_ret, (demo_ok _ _ _ _ _ Hp Hfd); unfold emit; now rewrite <- app_assoc
      |rewrite Hfd; unfold emit; now rewrite <- app_assoc|].
    rewrite then_ret, (demo_ok _ _ _ _ _ Hp Hfd). unfold emit. now rewrite <- !app_assoc.
Qed.

(** C5: On a request that passes validation and whose fallback fragments
    can be built (its final destination renders as [fd]), the handler writes the stream headers and then: the
    fallback in demo mode; on the AI path, the fallback when the prompt
    cannot be built or the client throws at once, the chunks and the AI
    itinerary and metrics when the stream completes, and the chunks
    followed by the whole fallback when it throws after them; outside
    demo mode it then registers the [close] listener. *)
Theorem generate_itinerary_spec e body parts fd :
  rejected (parse_request body) = false ->
  itineraryParts (parse_request body) = inr parts ->
  to_js_string (finalDestination (parse_request body)) = inr fd ->
  generate_itinerary e body []
  = (Ok tt, stream_headers ++
      (if demo_mode e then demo_events (clock e) (parse_request body) parts fd
       else match aiPrompt (parse_request body) with
            | inl _ => demo_events (clock e) (parse_request body) parts fd
            | inr p =>
                match generateContentStream p with
                | AIThrows => demo_events (clock e) (parse_request body) parts fd
                | AIChunks cs true =>
                    token_events cs
                    ++ finish_events (ai_itinerary (clock e) (parse_request body) (concat cs) fd)
                                     (estimate_metrics p (concat cs))
                | AIChunks cs false =>
                    token_events cs ++ demo_events (clock e) (parse_request body) parts fd
                end
            end) ++ close_listener (demo_mode e)).
Proof. apply generate_itinerary_log. Qed.

(** C8: A request with neither a truthy [destination] nor a truthy
    [prompt] gets the streaming headers, then status 400 and the JSON
    error body, and nothing else. *)
Theorem rejected_request_400 e body log :
  rejected (parse_request body) = true ->
  generate_itinerary e body log = (Ok tt, log ++ stream_headers ++ rejection_events).
Proof.
  intros Hr. unfold generate_itinerary. unfold bind at 1.
  rewrite set_stream_headers_log, Hr. unfold reject_400, bind, emit. simpl.
  now rewrite <- !app_assoc.
Qed.

(** An accepted request with a usable [interests] gets a complete
    stream. *)
Lemma generate_itinerary_complete e body :
  rejected (parse_request body) = false ->
  request_renders (parse_request body) = true ->
  exists toks it m,
    generate_itinerary e body []
    = (Ok tt, stream_headers ++ token_events toks ++ finish_events it m
              ++ close_listener (demo_mode e)).
Proof.
  intros Hr Hi.
  destruct (itineraryParts_result (parse_request body)) as [[Hb _]|[_ (fd & parts & Hfd & Hp & _)]];
    [congruence|].
  rewrite (generate_itinerary_log e body parts fd Hr Hp Hfd). unfold demo_events.
  destruct (demo_mode e); [eexists _, _, _; now rewrite <- app_assoc|].
  destruct (aiPrompt (parse_request body)) as [ex|p]; [eexists _, _, _; now rewrite <- app_assoc|].
  destruct (generateContentStream p) as [|cs []];
    [eexists _, _, _; now rewrite <- app_assoc|eexists _, _, _; now rewrite <- app_assoc|].
  exists (cs ++ parts). eexists _, _. now rewrite token_events_app, <- !app_assoc.
Qed.

(** C1: Every request that passes validation and has an [interests]
    that is nullish or an array gets a complete stream, whatever the
    client does and whether a key is configured: the headers, token
    frames, one itinerary frame, one metrics frame and the end, followed
    by the listener registration outside demo mode. *)
Theorem stream_well_formed e body :
  rejected (parse_request body) = false ->
  request_renders (parse_request body) = true ->
  exists toks it m,
    generate_itinerary e body []
    = (Ok tt, stream_headers ++ token_events toks ++ finish_events it m
              ++ close_listener (demo_mode e)).
Proof. apply generate_itinerary_complete. Qed.

Lemma OnClose_not_in_stream toks it m :
  ~ In OnClose (stream_headers ++ token_events toks ++ finish_events it m).
Proof.
  intros H. apply in_app_or in H as [H|H]; [simpl in H; intuition discriminate|].
  apply in_app_or in H as [H|H].
  - unfold token_events in H. apply in_map_iff in H as (t & Ht & _). discriminate.
  - simpl in H. intuition discriminate.
Qed.

(** C2: Every request that passes validation and has an [interests]
    that is nullish or an array drives the specification's state machine
    from [Validating] to [Closed], and after [res.end()] nothing but the
    listener registration happens. *)
Theorem handler_runs_to_closed e body :
  rejected (parse_request body) = false ->
  request_renders (parse_request body) = true ->
  exists log, generate_itinerary e body [] = (Ok tt, log)
    /\ run Validating log Closed
    /\ forall pre post, log = pre ++ End :: post -> Forall (fun ev => ev = OnClose) post.
Proof.
  intros Hr Hi. destruct (generate_itinerary_complete e body Hr Hi) as (toks & it & m & E).
  eexists. split; [exact E|].
  assert (Hrun : run Validating (stream_headers ++ token_events toks ++ finish_events it m
                                 ++ close_listener (demo_mode e)) Closed).
  { eapply run_app; [apply run_headers|]. rewrite app_assoc. eapply run_app; [apply run_finish|].
    destruct (demo_mode e); [constructor|apply run_listen]. }
  split; [exact Hrun|]. intros pre post Hl. rewrite Hl in Hrun.
  eapply run_end_last; eauto.
Qed.

(** C13: The request's [close] listener, the only reaction of the code to
    a disconnection, is never registered in demo mode, and otherwise
    only after the response has ended: a disconnection during the
    stream cannot stop it. *)
Theorem close_listener_after_end e body :
  rejected (parse_request body) = false ->
  request_renders (parse_request body) = true ->
  exists log, generate_itinerary e body [] = (Ok tt, log)
    /\ (demo_mode e = true -> ~ In OnClose log)
    /\ forall pre post, log = pre ++ OnClose :: post -> In End pre.
Proof.
  intros Hr Hi. destruct (generate_itinerary_complete e body Hr Hi) as (toks & it & m & E).
  eexists. split; [exact E|]. pose proof (OnClose_not_in_stream toks it m) as Hn.
  unfold close_listener. split.
  - intros ->. now rewrite app_nil_r.
  - intros pre post Hl. destruct (demo_mode e).
    + exfalso. apply Hn. rewrite app_nil_r in Hl. rewrite Hl. apply in_elt.
    + rewrite !app_assoc in Hl. rewrite !app_assoc in Hn.
      destruct (prefix_before_absent _ _ _ _ _ Hn Hl) as [q ->].
      rewrite !in_app_iff. simpl. tauto.
Qed.

(** A request whose values do not render throws in the [try] body
    and again in the [catch]. *)
Lemma unrenderable_escape e body :
  rejected (parse_request body) = false ->
  request_renders (parse_request body) = false ->
  generate_itinerary e body [] = (Raise TypeError, stream_headers).
Proof.
  intros Hr Hb.
  destruct (to_js_string (finalDestination (parse_request body))) as [ex|fd] eqn:Hfd.
  { rewrite (generate_itinerary_log_throws _ _ _ _ Hr Hfd). f_equal.
    destruct (to_js_string_cases (finalDestination (parse_request body))) as [[_ [s E]]|[_ E]];
      congruence. }
  rewrite (generate_itinerary_accepted _ _ _ _ Hr Hfd). simpl app.
  assert (Hd : forall log, generateDemoItinerary (clock e) (parse_request body) log = (Raise TypeError, log)).
  { intros log. rewrite generateDemoItinerary_log.
    destruct (itineraryParts_result (parse_request body)) as [[_ ->]|[Hb' _]]; [reflexivity|congruence]. }
  unfold bind at 1, catch. destruct (demo_mode e).
  - rewrite then_ret, Hd. cbv beta. now rewrite then_ret, Hd.
  - rewrite then_ret, ai_generate_spec.
    destruct (aiPrompt_cases (parse_request body)) as [[_ ->]|[Hb' _]]; [|congruence].
    now rewrite then_ret, Hd.
Qed.

(** C11: An [interests] that is neither nullish nor an array (a string, a
    number, a boolean, an object), or an array with an element that
    does not render, makes [interests?.join] throw a [TypeError] in the
    [try] body and again in the [catch]: the exception escapes the
    handler after the headers are set, with no frame written, the
    response never ended and no listener. *)
Theorem bad_interests_escape e body :
  rejected (parse_request body) = false ->
  interests_ok (interests (parse_request body)) = false ->
  generate_itinerary e body [] = (Raise TypeError, stream_headers).
Proof.
  intros Hr Hi. apply unrenderable_escape; [exact Hr|].
  unfold request_renders. now rewrite Hi, andb_false_r.
Qed.

(** C12: A request that passes validation but whose final destination,
    [duration || '3'] or [budget || '1000'] does not render (an object
    with an own [toString], such as [{"toString": 1}], or an array
    holding one) makes the template literal of line 73 throw a
    [TypeError], and the fallback's of line 132 again: the exception
    escapes the handler after the headers are set, with no frame
    written and the response never ended. *)
Theorem unrenderable_value_escapes e body :
  rejected (parse_request body) = false ->
  renders (finalDestination (parse_request body)) && renders (duration_or_default (parse_request body))
  && renders (budget_or_default (parse_request body)) = false ->
  generate_itinerary e body [] = (Raise TypeError, stream_headers).
Proof.
  intros Hr Hv. apply unrenderable_escape; [exact Hr|].
  unfold request_renders. now rewrite Hv.
Qed.

(** What an itinerary frame must carry for request [r]: the values
    resolved by [||] once, at the validation boundary. *)
Definition fields_resolved (r : request) (ev : event) : Prop :=
  match ev with
  | Write (ItinerarySummary it) =>
      it_destination it = finalDestination r /\ it_duration it = duration_or_default r
      /\ it_budget it = budget_or_default r
  | _ => True
  end.

(** C17: Every itinerary frame the handler writes, on every path and for
    every client, carries [finalDestination], [duration || '3'] and
    [budget || '1000'] of the request: an omitted or falsy duration or
    budget appears as ["3"] or ["1000"]. *)
Theorem itinerary_fields_resolved e body :
  Forall (fields_resolved (parse_request body)) (snd (generate_itinerary e body [])).
Proof.
  enough (Hp : preserves (Forall (fields_resolved (parse_request body))) (generate_itinerary e body))
    by (apply Hp; constructor).
  unfold generate_itinerary, ai_generate, generateDemoItinerary, set_stream_headers, reject_400,
    res_end, sendToken, sendItinerary, sendMetrics, stream_headers; cbv zeta; simpl for_each.
  solve_preserves; apply emit_preserves; simpl; auto.
Qed.

End Properties.

(** ** A request with a prompt and no destination *)

(** C25: When [destination] is falsy and [prompt] is a truthy [p],
    [finalDestination] is [p], and [p] appears in the Gemini prompt and
    in the welcome, title, key-location and sign-off fragments of the
    fallback. *)
Theorem prompt_only_destination r p :
  truthy (destination r) = false -> prompt r = Some p -> truthy (Some p) = true ->
  finalDestination r = p
  /\ (forall s, aiPrompt r = inr s -> exists ps, to_js_string p = inr ps /\ contains s ps)
  /\ (forall parts, itineraryParts r = inr parts -> exists ps, to_js_string p = inr ps /\
        Forall (fun i => contains (nth i parts []) ps) [0; 1; 18; 19; 20; 21; 31]%nat).
Proof.
  intros Hd Hp Ht.
  assert (Hf : finalDestination r = p).
  { unfold finalDestination. rewrite js_or_falsy, Hp by exact Hd. now apply js_or_truthy. }
  split; [exact Hf|split].
  - intros s. unfold aiPrompt. rewrite Hf.
    destruct (to_js_string p) as [|ps]; [discriminate|]. cbn [bind_exn].
    destruct (to_js_string (duration_or_default r)); [discriminate|]. cbn [bind_exn].
    destruct (to_js_string (budget_or_default r)); [discriminate|]. cbn [bind_exn].
    destruct (interests_text _ _); intros E; inv E. exists ps. split; [reflexivity|].
    unfold aiPrompt_text. solve_contains.
  - intros parts. unfold itineraryParts. rewrite Hf.
    destruct (to_js_string p) as [|ps]; [discriminate|]. cbn [bind_exn].
    destruct (to_js_string (duration_or_default r)); [discriminate|]. cbn [bind_exn].
    destruct (to_js_string (budget_or_default r)); [discriminate|]. cbn [bind_exn].
    destruct (interests_text _ _); intros E; inv E. exists ps. split; [reflexivity|].
    apply itineraryParts_text_mentions.
Qed.

(** ** Metrics, the 400 path against the specification *)


(** ** Test doubles of the Gemini client and concrete scenarios *)

Definition scripted_client (script : jsstr -> ai_stream) : GeminiClient :=
  {| generateContentStream := script |}.

Definition paris_body : json :=
  JObj [(key_destination, JStr (js "Paris")); (key_duration, JStr (js "2"));
        (key_interests, JArr [JStr (js "food")])].

Definition no_key_env : env := MkEnv None 1700000000000.
Definition key_env : env := MkEnv (Some (js "AIza-test")) 1700000000000.

(** The end-to-end scenario of the specification: [Paris], two days,
    [food], no key: the 32 fallback tokens, an itinerary with
    destination [Paris], duration ["2"], the default budget ["1000"],
    the three hardcoded days and no [interests] field, the metrics
    50/300/350, and the end. *)
Example paris_without_key :
  @generate_itinerary (scripted_client (fun _ => AIThrows)) no_key_env paris_body []
  = (Ok tt, stream_headers
            ++ token_events (itineraryParts_text (js "Paris") (js "2") (js "1000") (js "food"))
            ++ finish_events
                 (MkItinerary 1700000000000 (JStr (js "Paris")) (JStr (js "2")) (JStr (js "1000"))
                    (js "A wonderful trip to Paris") None demo_days None)
                 (MkMetrics 50 300 350)).
Proof. vm_compute. reflexivity. Qed.

Lemma prompt_only_destination_witness :
  let r := parse_request (JObj [(key_prompt, JStr (js "Kyoto"))]) in
  truthy (destination r) = false /\ prompt r = Some (JStr (js "Kyoto"))
  /\ truthy (Some (JStr (js "Kyoto"))) = true /\ finalDestination r = JStr (js "Kyoto").
Proof.
  intros r. assert (Hd : truthy (destination r) = false) by reflexivity.
  assert (Hp : prompt r = Some (JStr (js "Kyoto"))) by reflexivity.
  assert (Ht : truthy (Some (JStr (js "Kyoto"))) = true) by reflexivity.
  refine (conj Hd (conj Hp (conj Ht _))). apply (prompt_only_destination r _ Hd Hp Ht).
Defined.

Lemma rejected_request_400_witness :
  @generate_itinerary (scripted_client (fun _ => AIThrows)) no_key_env (JObj []) []
  = (Ok tt, [] ++ stream_headers ++ rejection_events).
Proof. apply rejected_request_400. reflexivity. Defined.

Lemma stream_well_formed_witness :
  exists toks it m,
    @generate_itinerary (scripted_client (fun _ => AIChunks [js "Hi"] false)) key_env paris_body []
    = (Ok tt, stream_headers ++ token_events toks ++ finish_events it m ++ [OnClose]).
Proof. apply (stream_well_formed key_env paris_body); reflexivity. Defined.

Lemma handler_runs_to_closed_witness :
  exists log,
    @generate_itinerary (scripted_client (fun _ => AIChunks [js "**Day 1: Louvre**"] true))
      key_env paris_body [] = (Ok tt, log)
    /\ run Validating log Closed
    /\ forall pre post, log = pre ++ End :: post -> Forall (fun ev => ev = OnClose) post.
Proof. apply handler_runs_to_closed; reflexivity. Defined.

Lemma close_listener_after_end_witness :
  exists log,
    @generate_itinerary (scripted_client (fun _ => AIThrows)) no_key_env paris_body [] = (Ok tt, log)
    /\ (demo_mode no_key_env = true -> ~ In OnClose log)
    /\ forall pre post, log = pre ++ OnClose :: post -> In End pre.
Proof. apply close_listener_after_end; reflexivity. Defined.

Lemma bad_interests_escape_witness :
  @generate_itinerary (scripted_client (fun _ => AIThrows)) no_key_env
    (JObj [(key_destination, JStr (js "Paris")); (key_interests, JStr (js "food"))]) []
  = (Raise TypeError, stream_headers).
Proof. apply bad_interests_escape; reflexivity. Defined.

Lemma unrenderable_value_escapes_witness :
  let body := JObj [(key_destination, JObj [(key_toString, JNum 1)])] in
  rejected (parse_request body) = false
  /\ renders (finalDestination (parse_request body)) && renders (duration_or_default (parse_request body))
     && renders (budget_or_default (parse_request body)) = false
  /\ @generate_itinerary (scripted_client (fun _ => AIThrows)) key_env body []
     = (Raise TypeError, stream_headers).
Proof.
  intros body. assert (Hr : rejected (parse_request body) = false) by reflexivity.
  assert (Hv : renders (finalDestination (parse_request body)) && renders (duration_or_default (parse_request body))
               && renders (budget_or_default (parse_request body)) = false) by reflexivity.
  exact (conj Hr (conj Hv (unrenderable_value_escapes key_env body Hr Hv))).
Defined.

Lemma generate_itinerary_spec_witness :
  let c := scripted_client (fun _ => AIChunks [js "**Day 1: Louvre**"; js " and more"] false) in
  @generate_itinerary c key_env paris_body []
  = (Ok tt, stream_headers ++
      token_events [js "**Day 1: Louvre**"; js " and more"]
      ++ demo_events (clock key_env) (parse_request paris_body)
           (itineraryParts_text (js "Paris") (js "2") (js "1000") (js "food")) (js "Paris")
      ++ [OnClose]).
Proof.
  intros c. rewrite (@generate_itinerary_spec c key_env paris_body
                       (itineraryParts_text (js "Paris") (js "2") (js "1000") (js "food")) (js "Paris"));
    [vm_compute; reflexivity|reflexivity|vm_compute; reflexivity|vm_compute; reflexivity].
Defined.
