(* ===== verification/Schema.v ===== *)
(** * The data model of the specification as a JSON schema

    Section 3 and 6 of the specification give the shape of the request
    ([GenerationRequest]) and of the three frames of the stream: a
    token frame [{token: string}], an itinerary frame whose [Itinerary]
    has a number [id], a string [destination], a string or number
    [duration] and [budget], a string [description], an optional string
    [fullText], an array of [DayPlan] ([day] a number, [title] a string,
    [activities] an array of strings) and an array of strings
    [interests], and a metrics frame of three numbers.  [jtype] is a
    small language of JSON types (objects are open: other keys are
    allowed) and [has_typeb] its checker.  [interests] is optional in
    [itinerary_type]: the specification requires it, the fallback's
    itinerary omits it (a finding of the development).

    The theorem: when the request body has the request type, every frame
    the handler writes has the frame type, on every path and for every
    client.  It is proved as an invariant of the log preserved by every
    operation of the handler. *)

From Stdlib Require Import String List ZArith Lia Bool.
From S2P Require Import Prelude JsString JsNumber DayParser Request Stream JsonText Frames Fallback Orchestrator.
Import ListNotations.
Local Open Scope Z_scope.

(** ** Types of JSON values *)

Local Set Warnings "-register-all".

Inductive jtype :=
| TString
| TNumber
| TBool
| TNull
| TArray (t : jtype)
| TObject (fields : list (jsstr * bool * jtype))   (** key, required, type *)
| TUnion (a b : jtype).

Fixpoint has_typeb (t : jtype) (v : json) {struct t} : bool :=
  match t with
  | TString => match v with JStr _ => true | _ => false end
  | TNumber => match v with JNum _ | JDec _ _ => true | _ => false end
  | TBool => match v with JBool _ => true | _ => false end
  | TNull => match v with JNull => true | _ => false end
  | TArray u => match v with JArr l => forallb (has_typeb u) l | _ => false end
  | TObject fs =>
      match v with
      | JObj _ =>
          forallb (fun f => match get_field v (fst (fst f)) with
                            | Some w => has_typeb (snd f) w
                            | None => negb (snd (fst f))
                            end) fs
      | _ => false
      end
  | TUnion a b => has_typeb a v || has_typeb b v
  end.

(** ** The specification's types *)

Definition string_or_number : jtype := TUnion TString TNumber.

(** [GenerationRequest] (sections 3 and 6): every field optional. *)
Definition request_type : jtype :=
  TObject [(key_destination, false, TString); (key_duration, false, string_or_number);
           (key_budget, false, string_or_number); (key_interests, false, TArray TString);
           (key_prompt, false, TString)].

Definition dayplan_type : jtype :=
  TObject [(k_day, true, TNumber); (k_title, true, TString); (k_activities, true, TArray TString)].

Definition itinerary_type : jtype :=
  TObject [(k_id, true, TNumber); (key_destination, true, TString);
           (key_duration, true, string_or_number); (key_budget, true, string_or_number);
           (k_description, true, TString); (k_fullText, false, TString);
           (k_days, true, TArray dayplan_type); (key_interests, false, TArray TString)].

Definition metrics_type : jtype :=
  TObject [(k_promptTokens, true, TNumber); (k_completionTokens, true, TNumber);
           (k_totalTokens, true, TNumber)].

Definition frame_type : jtype :=
  TUnion (TObject [(k_token, true, TString)])
    (TUnion (TObject [(k_itinerary, true, itinerary_type)]) (TObject [(k_metrics, true, metrics_type)])).

(** ** Typing lemmas *)

Lemma js_or_typed u o d :
  has_typeb u d = true -> (forall w, o = Some w -> has_typeb u w = true) -> has_typeb u (js_or o d) = true.
Proof. intros Hd Ho. unfold js_or. destruct o as [w|]; [|exact Hd]. destruct (truthy (Some w)); auto. Qed.

Lemma field_typed fs v k req u w :
  has_typeb (TObject fs) v = true -> In (k, req, u) fs -> get_field v k = Some w -> has_typeb u w = true.
Proof.
  intros Ht Hin Hg. simpl in Ht. destruct v; try discriminate.
  apply (proj1 (forallb_forall _ _) Ht) in Hin. cbv beta in Hin. cbn [fst snd] in Hin.
  rewrite Hg in Hin. exact Hin.
Qed.

(** Membership in a literal list of fields. *)
Ltac in_list := cbn [In]; repeat (first [left; reflexivity | right]).

Section TypedRequest.
Variable body : json.
Hypothesis Hbody : has_typeb request_type body = true.
Let r := parse_request body.

Lemma request_field_typed k u :
  In (k, false, u) [(key_destination, false, TString); (key_duration, false, string_or_number);
                    (key_budget, false, string_or_number); (key_interests, false, TArray TString);
                    (key_prompt, false, TString)] ->
  forall w, get_field body k = Some w -> has_typeb u w = true.
Proof. intros Hin w. apply (field_typed _ _ _ _ _ _ Hbody Hin). Qed.

Lemma finalDestination_typed : has_typeb TString (finalDestination r) = true.
Proof.
  unfold finalDestination. apply js_or_typed; [apply js_or_typed; [reflexivity|]|].
  - intros w Hw. apply (request_field_typed key_prompt); [in_list|exact Hw].
  - intros w Hw. apply (request_field_typed key_destination); [in_list|exact Hw].
Qed.

Lemma duration_typed : has_typeb string_or_number (duration_or_default r) = true.
Proof.
  apply js_or_typed; [reflexivity|]. intros w Hw.
  apply (request_field_typed key_duration); [in_list|exact Hw].
Qed.

Lemma budget_typed : has_typeb string_or_number (budget_or_default r) = true.
Proof.
  apply js_or_typed; [reflexivity|]. intros w Hw.
  apply (request_field_typed key_budget); [in_list|exact Hw].
Qed.

Lemma interests_typed : has_typeb (TArray TString) (js_or (interests r) (JArr [])) = true.
Proof.
  apply js_or_typed; [reflexivity|]. intros w Hw.
  apply (request_field_typed key_interests); [in_list|exact Hw].
Qed.

End TypedRequest.

(** ** Frames of the handler *)

Lemma strings_typed l : forallb (has_typeb TString) (map JStr l) = true.
Proof. induction l; simpl; auto. Qed.

(** A finite day number: [JSON.stringify] writes [NaN] and [Infinity]
    as [null]. *)
Definition finite_day (d : DayPlan) : bool := match day d with NFin _ => true | _ => false end.

(** The AI texts whose day headers all have finite numbers (fewer than
    309 digits). *)
Definition finite_days (text : jsstr) : bool := forallb finite_day (extractDaysFromText text).

Lemma day_typed d : finite_day d = true -> has_typeb dayplan_type (day_json d) = true.
Proof.
  destruct d as [[|z|n] t acts]; cbn [finite_day day]; try discriminate. intros _.
  simpl. rewrite andb_true_r. exact (strings_typed acts).
Qed.

Lemma days_typed ds : forallb finite_day ds = true -> forallb (has_typeb dayplan_type) (map day_json ds) = true.
Proof.
  induction ds as [|d ds IH]; [reflexivity|]. cbn [map forallb]. intros H.
  apply andb_true_iff in H as [Hd Hds]. now rewrite day_typed, IH.
Qed.

Lemma has_typeb_object fs v :
  has_typeb (TObject fs) v =
  match v with
  | JObj _ => forallb (fun f => match get_field v (fst (fst f)) with
                                | Some w => has_typeb (snd f) w
                                | None => negb (snd (fst f))
                                end) fs
  | _ => false
  end.
Proof. reflexivity. Qed.

Lemma has_typeb_array u l : has_typeb (TArray u) (JArr l) = forallb (has_typeb u) l.
Proof. reflexivity. Qed.

(** From here on [simpl] computes the fields of an object but leaves the
    types of its values to the hypotheses. *)
#[local] Arguments has_typeb : simpl never.

Lemma itinerary_typed it :
  has_typeb TString (it_destination it) = true ->
  has_typeb string_or_number (it_duration it) = true ->
  has_typeb string_or_number (it_budget it) = true ->
  forallb finite_day (it_days it) = true ->
  (forall i, it_interests it = Some i -> has_typeb (TArray TString) i = true) ->
  has_typeb itinerary_type (itinerary_json it) = true.
Proof.
  destruct it as [id dst dur bud desc ft ds ints]; cbn [it_destination it_duration it_budget it_days it_interests].
  intros Hd Hdu Hb Hds Hi. apply days_typed in Hds.
  unfold itinerary_type. rewrite has_typeb_object.
  destruct ft, ints; simpl; try rewrite (Hi _ eq_refl);
    rewrite ?has_typeb_array, ?Hd, ?Hdu, ?Hb, ?Hds; reflexivity.
Qed.

Lemma has_typeb_union a b v : has_typeb (TUnion a b) v = has_typeb a v || has_typeb b v.
Proof. reflexivity. Qed.

(** A written frame has the frame type; other events are unconstrained. *)
Definition event_typed (ev : event) : Prop :=
  match ev with
  | Write f => has_typeb frame_type (frame_json f) = true
  | _ => True
  end.

Lemma frames_of_typed log :
  Forall event_typed log -> Forall (fun f => has_typeb frame_type (frame_json f) = true) (frames_of log).
Proof.
  induction 1 as [|ev log Hev _ IH]; [constructor|].
  destruct ev; simpl; auto.
Qed.

Lemma itinerary_event_typed it :
  has_typeb itinerary_type (itinerary_json it) = true -> event_typed (Write (ItinerarySummary it)).
Proof.
  intros Hit. unfold event_typed, frame_type, frame_json.
  rewrite !has_typeb_union, !has_typeb_object. simpl. rewrite Hit. reflexivity.
Qed.

Lemma token_event_typed t : event_typed (Write (Token t)).
Proof. reflexivity. Qed.

Lemma metrics_event_typed m : event_typed (Write (Metrics m)).
Proof. reflexivity. Qed.

Section TypedHandler.
Context {client : GeminiClient}.
Variable body : json.
Hypothesis Hbody : has_typeb request_type body = true.
Hypothesis Hclient : forall p cs b, generateContentStream p = AIChunks cs b -> finite_days (concat cs) = true.

Lemma ai_itinerary_typed now ft fd :
  finite_days ft = true ->
  event_typed (Write (ItinerarySummary (ai_itinerary now (parse_request body) ft fd))).
Proof.
  intros Hft.
  apply itinerary_event_typed, itinerary_typed; cbn [it_destination it_duration it_budget it_days it_interests ai_itinerary].
  - apply finalDestination_typed, Hbody.
  - apply duration_typed, Hbody.
  - apply budget_typed, Hbody.
  - assumption.
  - intros i [= <-]. apply interests_typed, Hbody.
Qed.

Lemma demo_itinerary_typed now fd :
  event_typed (Write (ItinerarySummary (demo_itinerary now (parse_request body) fd))).
Proof.
  apply itinerary_event_typed, itinerary_typed; cbn [it_destination it_duration it_budget it_days it_interests demo_itinerary].
  - apply finalDestination_typed, Hbody.
  - apply duration_typed, Hbody.
  - apply budget_typed, Hbody.
  - reflexivity.
  - discriminate.
Qed.

(** The writes of a handler step: tokens, metrics and the fallback's
    itinerary are typed; other events are unconstrained. *)
Ltac event_typed_step :=
  apply emit_preserves;
  lazymatch goal with
  | |- event_typed (Write (Token _)) => apply token_event_typed
  | |- event_typed (Write (Metrics _)) => apply metrics_event_typed
  | |- event_typed (Write (ItinerarySummary (demo_itinerary _ _ _))) => apply demo_itinerary_typed
  | |- _ => exact I
  end.

Lemma ai_generate_typed e :
  preserves (Forall event_typed) (ai_generate e (parse_request body)).
Proof.
  unfold ai_generate. destruct (aiPrompt (parse_request body)) as [ex|p]; [apply raise_preserves|].
  destruct (generateContentStream p) as [|cs b] eqn:Eg; [apply raise_preserves|].
  pose proof (Hclient _ _ _ Eg) as Hft.
  unfold res_end, sendToken, sendItinerary, sendMetrics.
  solve_preserves; try event_typed_step. apply emit_preserves. now apply ai_itinerary_typed.
Qed.

Lemma generate_itinerary_typed e :
  preserves (Forall event_typed) (generate_itinerary e body).
Proof.
  unfold generate_itinerary, generateDemoItinerary, set_stream_headers, reject_400,
    res_end, sendToken, sendItinerary, sendMetrics, stream_headers; cbv zeta; simpl for_each.
  solve_preserves; first [apply ai_generate_typed | event_typed_step].
Qed.

End TypedHandler.

(** C4: Conformance to the data model of the specification: when the
    request body has the request type of sections 3 and 6 (an object
    whose present fields have the documented types), every frame the
    handler writes, on every path (rejection, demo, AI, fallback after a
    failure) and for every client, is a token, itinerary or metrics
    frame of the documented shape, provided the AI text never numbers a
    day beyond the doubles (309 digits or more, which [parseInt] reads
    as [Infinity] and [JSON.stringify] writes [null]).  A number of the
    request type is finite: [JSON.parse] gives [Infinity] for a text
    beyond the doubles, which is not of the request type. *)
Theorem handler_frames_typed {client : GeminiClient} e body :
  has_typeb request_type body = true ->
  (forall p cs b, generateContentStream p = AIChunks cs b -> finite_days (concat cs) = true) ->
  Forall (fun f => has_typeb frame_type (frame_json f) = true)
         (frames_of (snd (generate_itinerary e body []))).
Proof.
  intros Hbody Hc. apply frames_of_typed, (generate_itinerary_typed body Hbody Hc e). constructor.
Qed.

Lemma handler_frames_typed_witness :
  let c := scripted_client (fun _ => AIChunks [js "**Day 1: Louvre**"; js " and more"] true) in
  has_typeb request_type paris_body = true /\
  (forall p cs b, @generateContentStream c p = AIChunks cs b -> finite_days (concat cs) = true) /\
  Forall (fun f => has_typeb frame_type (frame_json f) = true)
         (frames_of (snd (@generate_itinerary c key_env paris_body []))).
Proof.
  intros c. assert (Hb : has_typeb request_type paris_body = true) by reflexivity.
  assert (Hc : forall p cs b, @generateContentStream c p = AIChunks cs b -> finite_days (concat cs) = true).
  { intros p cs b E. injection E as <- <-. vm_compute. reflexivity. }
  exact (conj Hb (conj Hc (@handler_frames_typed c key_env paris_body Hb Hc))).
Defined.
