(* ===== verification/Router.v ===== *)
(** * The Express application: middleware and routing (server.js lines 12-14, 466-480)

    The application is a stack of layers in registration order:
    [cors()] (line 13), [express.json()] (line 14), the eight routes
    (lines 17, 27, 261, 277, 293, 337, 378, 422), the error handler
    (lines 466-472) and the 404 handler (lines 475-480).  [run_layers]
    is Express 4's [next] loop: without an error, a plain layer runs
    when its method and path match and the error handler is skipped;
    with an error (a body that is not valid JSON), only the error
    handler runs.  [cors()] answers an [OPTIONS] preflight itself.
    [express.json()] sets [req.body] to the parsed value, or to [{}]
    when the request has no JSON body (body-parser 1.x); a text its
    strict mode refuses (not an object or an array) is
    [BodyMalformed].  A route path
    matches the URL's pathname case-insensitively and with an optional
    trailing slash, as path-to-regexp 0.1 compiles it; the ASCII case
    fold [canon] is exact for ASCII route paths.

    Express 4 is the version the code is written for: [app.use('*')]
    is refused by the path syntax of Express 5.  The [GET /health]
    timestamp is the ISO text of the server's clock; headers set by
    [cors()] and the status line of the stream are not modelled.

    [app_spec] is the reference: preflight, then a malformed body gives
    500, then a lookup of the normalized path in the route table, else
    404.  The main theorem is that the layer-by-layer dispatch computes
    it. *)

From Stdlib Require Import String List ZArith Lia Bool.
From S2P Require Import Prelude JsString JsRegExp Request Stream Orchestrator Catalog.
Import ListNotations.
Local Open Scope Z_scope.

(** ** Requests and replies *)

Inductive http_method := GET | HEAD | POST | OPTIONS | OtherMethod (name : jsstr).

Definition method_eqb (a b : http_method) : bool :=
  match a, b with
  | GET, GET | HEAD, HEAD | POST, POST | OPTIONS, OPTIONS => true
  | OtherMethod x, OtherMethod y => jsstr_eqb x y
  | _, _ => false
  end.

(** What the client sent as body: nothing JSON (no body or another
    content type), a JSON text, or a text [JSON.parse] refuses (the
    error's message). *)
Inductive req_body := BodyAbsent | BodyParsed (v : json) | BodyMalformed (message : jsstr).

Record http_request := MkHttp { method : http_method; originalUrl : jsstr; raw_body : req_body }.

Inductive reply :=
| Preflight                                        (** [cors()]: 204 to [OPTIONS] *)
| JsonReply (status : Z) (body : json)             (** [res.status(s).json(body)] *)
| StreamReply (result : outcome exn unit) (log : list event)  (** the generation handler *)
| FinalHandler (err : option jsstr).               (** Express's default end of the stack *)

(** ** The stack *)

Inductive handler_id :=
| HHealth | HGenerate | HDestinations | HTips | HFlights | HHotels | HCars | HRestaurants.

Inductive layer :=
| LCors
| LJson
| LRoute (m : http_method) (path : jsstr) (h : handler_id)
| LError
| LNotFound.

Definition p_health : jsstr := Eval vm_compute in js "/health".
Definition p_generate : jsstr := Eval vm_compute in js "/generate-itinerary".
Definition p_destinations : jsstr := Eval vm_compute in js "/destinations".
Definition p_tips : jsstr := Eval vm_compute in js "/tips".
Definition p_flights : jsstr := Eval vm_compute in js "/search-flights".
Definition p_hotels : jsstr := Eval vm_compute in js "/search-hotels".
Definition p_cars : jsstr := Eval vm_compute in js "/search-cars".
Definition p_restaurants : jsstr := Eval vm_compute in js "/search-restaurants".

(** The routes in registration order. *)
Definition routes : list (http_method * jsstr * handler_id) :=
  [(GET, p_health, HHealth); (POST, p_generate, HGenerate);
   (GET, p_destinations, HDestinations); (GET, p_tips, HTips);
   (POST, p_flights, HFlights); (POST, p_hotels, HHotels);
   (POST, p_cars, HCars); (POST, p_restaurants, HRestaurants)].

Definition route_layer (r : http_method * jsstr * handler_id) : layer :=
  let '(m, p, h) := r in LRoute m p h.

(** [app.use(cors())], [app.use(express.json())], the routes, the
    error handler, [app.use('*', ...)]. *)
Definition app_stack : list layer := LCors :: LJson :: map route_layer routes ++ [LError; LNotFound].

(** ** Matching *)

(** [req.path]: the URL up to its query string. *)
Definition pathname (url : jsstr) : jsstr := take_while (fun c => negb (c =? 63)) url.

(** Equality up to the ASCII case fold of a case-insensitive pattern. *)
Definition ci_eqb (a b : jsstr) : bool := jsstr_eqb (map canon a) (map canon b).

(** The compiled route [^path\/?$] with flag [i]. *)
Definition path_matches (route p : jsstr) : bool := ci_eqb route p || ci_eqb (route ++ [47]) p.

(** A [GET] route also serves [HEAD]. *)
Definition method_matches (m r : http_method) : bool :=
  method_eqb m r || (method_eqb m GET && method_eqb r HEAD).

(** ** The handlers and the [next] loop *)

Record server_env := MkServer { gen_env : env; iso_now : jsstr }.

Definition k_message : jsstr := Eval vm_compute in js "message".
Definition k_path : jsstr := Eval vm_compute in js "path".
Definition something_went_wrong : jsstr := Eval vm_compute in js "Something went wrong!".
Definition endpoint_not_found : jsstr := Eval vm_compute in js "Endpoint not found".

(** Lines 466-472. *)
Definition error_handler (message : jsstr) : reply :=
  JsonReply 500 (JObj [(key_error, JStr something_went_wrong); (k_message, JStr message)]).

(** Lines 475-480. *)
Definition not_found_handler (url : jsstr) : reply :=
  JsonReply 404 (JObj [(key_error, JStr endpoint_not_found); (k_path, JStr url)]).

Section App.
Context {client : GeminiClient}.
Variable se : server_env.

Definition run_handler (h : handler_id) (body : json) : reply :=
  match h with
  | HHealth => JsonReply 200 (health_handler (iso_now se))
  | HGenerate => let '(o, log) := generate_itinerary (gen_env se) body [] in StreamReply o log
  | HDestinations => JsonReply 200 destinations_handler
  | HTips => JsonReply 200 tips_handler
  | HFlights => JsonReply 200 (search_flights body)
  | HHotels => JsonReply 200 (search_hotels body)
  | HCars => JsonReply 200 (search_cars body)
  | HRestaurants => JsonReply 200 (search_restaurants body)
  end.

(** Express's [next] loop over the stack, [req.body] and the pending
    error as its state. *)
Fixpoint run_layers (ls : list layer) (req : http_request) (body : json) (err : option jsstr) : reply :=
  match ls with
  | [] => FinalHandler err
  | l :: rest =>
      match l, err with
      | LCors, None =>
          if method_eqb (method req) OPTIONS then Preflight else run_layers rest req body None
      | LJson, None =>
          match raw_body req with
          | BodyAbsent => run_layers rest req (JObj []) None
          | BodyParsed v => run_layers rest req v None
          | BodyMalformed msg => run_layers rest req body (Some msg)
          end
      | LRoute m p h, None =>
          if method_matches m (method req) && path_matches p (pathname (originalUrl req))
          then run_handler h body else run_layers rest req body None
      | LError, Some msg => error_handler msg
      | LNotFound, None => not_found_handler (originalUrl req)
      | _, _ => run_layers rest req body err
      end
  end.

Definition app (req : http_request) : reply := run_layers app_stack req (JObj []) None.

(** ** The reference dispatch *)

Definition strip_slash (p : jsstr) : jsstr :=
  match rev p with c :: r => if c =? 47 then rev r else p | [] => p end.

Definition is_get (m : http_method) : bool := method_eqb m GET || method_eqb m HEAD.

(** The route table as a lookup on the normalized path. *)
Definition route_of (m : http_method) (p : jsstr) : option handler_id :=
  let q := map canon (strip_slash p) in
  if jsstr_eqb q (map canon p_health) then (if is_get m then Some HHealth else None)
  else if jsstr_eqb q (map canon p_generate) then (if method_eqb m POST then Some HGenerate else None)
  else if jsstr_eqb q (map canon p_destinations) then (if is_get m then Some HDestinations else None)
  else if jsstr_eqb q (map canon p_tips) then (if is_get m then Some HTips else None)
  else if jsstr_eqb q (map canon p_flights) then (if method_eqb m POST then Some HFlights else None)
  else if jsstr_eqb q (map canon p_hotels) then (if method_eqb m POST then Some HHotels else None)
  else if jsstr_eqb q (map canon p_cars) then (if method_eqb m POST then Some HCars else None)
  else if jsstr_eqb q (map canon p_restaurants) then (if method_eqb m POST then Some HRestaurants else None)
  else None.

Definition app_spec (req : http_request) : reply :=
  if method_eqb (method req) OPTIONS then Preflight
  else match raw_body req with
       | BodyMalformed msg => error_handler msg
       | b =>
           let body := match b with BodyParsed v => v | _ => JObj [] end in
           match route_of (method req) (pathname (originalUrl req)) with
           | Some h => run_handler h body
           | None => not_found_handler (originalUrl req)
           end
       end.

End App.

(** ** The layer scan equals the table lookup *)

(** The first route whose method and path match. *)
Fixpoint find_route (rs : list (http_method * jsstr * handler_id)) (m : http_method) (p : jsstr)
  : option handler_id :=
  match rs with
  | [] => None
  | (m', p', h) :: rest => if method_matches m' m && path_matches p' p then Some h else find_route rest m p
  end.

Section Facts.
Context {client : GeminiClient}.
Variable se : server_env.

Lemma run_routes rs tail req body :
  run_layers se (map route_layer rs ++ tail) req body None
  = match find_route rs (method req) (pathname (originalUrl req)) with
    | Some h => run_handler se h body
    | None => run_layers se tail req body None
    end.
Proof.
  induction rs as [|[[m p] h] rs IH]; [reflexivity|]. cbn [map Datatypes.app route_layer run_layers find_route].
  destruct (method_matches m (method req) && path_matches p (pathname (originalUrl req))); auto.
Qed.

Lemma run_routes_error rs tail req body msg :
  run_layers se (map route_layer rs ++ tail) req body (Some msg) = run_layers se tail req body (Some msg).
Proof. induction rs as [|[[m p] h] rs IH]; [reflexivity|]. exact IH. Qed.

End Facts.

Lemma canon_slash c : canon c = 47 <-> c = 47.
Proof. unfold canon. split; [|intros ->; reflexivity]. zbool; lia. Qed.

Lemma strip_slash_cases p :
  (exists k, p = k ++ [47] /\ strip_slash p = k) \/ (strip_slash p = p /\ forall k, p <> k ++ [47]).
Proof.
  unfold strip_slash. destruct (rev p) as [|c r] eqn:Er.
  - right. split; [reflexivity|]. intros k ->. rewrite rev_app_distr in Er. discriminate.
  - apply (f_equal (@rev Z)) in Er. rewrite rev_involutive in Er. simpl in Er. subst p.
    destruct (Z.eqb_spec c 47) as [->|Hc]; [left; eauto|].
    right. split; [reflexivity|]. intros k H. apply app_inj_tail in H as [_ H]. contradiction.
Qed.

(** Matching [^route\/?$] case-insensitively is comparing the path
    without its trailing slash, for a route that does not end with one. *)
Lemma path_matches_strip route p :
  last (map canon route) 0 <> 47 ->
  path_matches route p = jsstr_eqb (map canon (strip_slash p)) (map canon route).
Proof.
  intros Hl. apply eq_true_iff_eq. unfold path_matches, ci_eqb.
  rewrite orb_true_iff, !jsstr_eqb_spec, map_app.
  destruct (strip_slash_cases p) as [(k & -> & ->)|(-> & Hp)]; [rewrite map_app; split|split].
  - intros [H|H].
    + exfalso. apply Hl. rewrite H. apply last_last.
    + apply app_inj_tail in H as [H _]. now symmetry.
  - intros H. right. now rewrite H.
  - intros [H|H]; [now symmetry|exfalso].
    destruct (exists_last (l := p)) as (p' & c & Ep); [intros ->; now destruct (map canon route)|].
    subst p. rewrite map_app in H. apply app_inj_tail in H as [_ H].
    assert (c = 47) as -> by (apply canon_slash; rewrite <- H; reflexivity). now apply (Hp p').
  - intros H. left. now symmetry.
Qed.

(** Scanning the routes in order finds what the table lookup finds: the
    eight paths are distinct, so looking the path up first and checking
    the method after loses nothing. *)
Lemma find_route_table m p : find_route routes m p = route_of m p.
Proof.
  unfold routes. cbn [find_route].
  rewrite !path_matches_strip by (vm_compute; discriminate).
  unfold route_of. remember (map canon (strip_slash p)) as q eqn:Eq. clear Eq.
  repeat match goal with
  | |- context [jsstr_eqb q ?c] =>
      let E := fresh "E" in
      destruct (jsstr_eqb q c) eqn:E;
      [apply jsstr_eqb_spec in E; subst q; destruct m; vm_compute; reflexivity|]
  end.
  rewrite !andb_false_r. reflexivity.
Qed.

Section Dispatch.
Context {client : GeminiClient}.
Variable se : server_env.

(** The [next] loop over the stack computes the reference dispatch. *)
Lemma app_dispatch req : app se req = app_spec se req.
Proof.
  unfold app, app_spec, app_stack. cbn [run_layers].
  destruct (method_eqb (method req) OPTIONS); [reflexivity|].
  destruct (raw_body req) as [|v|msg].
  - rewrite run_routes, find_route_table. now destruct (route_of _ _).
  - rewrite run_routes, find_route_table. now destruct (route_of _ _).
  - now rewrite run_routes_error.
Qed.

(** C3: Express's dispatch of a request through the middleware stack,
    layer by layer with [next], computes the reference [app_spec]: a
    preflight is answered by [cors()], a body that is not JSON goes to
    the error handler, a request whose path and method match a route
    runs that route with the parsed body ([{}] without one), any other
    request gets the 404 handler. *)
Theorem app_dispatch_spec req : app se req = app_spec se req.
Proof. apply app_dispatch. Qed.

End Dispatch.

Section Properties.
Context {client : GeminiClient}.
Variable se : server_env.

Lemma run_handler_answers h body : forall e, run_handler se h body <> FinalHandler e.
Proof.
  intros e. destruct h; simpl; try discriminate.
  destruct (generate_itinerary (gen_env se) body []). discriminate.
Qed.

(** C19: No request falls through to Express's default final handler:
    the 404 handler catches every request without an error and the
    error handler every request with one. *)
Theorem app_never_final req e : app se req <> FinalHandler e.
Proof.
  rewrite app_dispatch. unfold app_spec.
  destruct (method_eqb (method req) OPTIONS); [discriminate|].
  destruct (raw_body req); [..|discriminate];
    (destruct (route_of _ _); [apply run_handler_answers|discriminate]).
Qed.

(** C9: A request whose body is not valid JSON gets status 500 with
    ["Something went wrong!"] and the parser's message, whatever its
    path and method (a preflight apart): also on [GET /health] and on
    paths no route serves. *)
Theorem malformed_body_500 req msg :
  method_eqb (method req) OPTIONS = false -> raw_body req = BodyMalformed msg ->
  app se req = JsonReply 500 (JObj [(key_error, JStr something_went_wrong); (k_message, JStr msg)]).
Proof. intros Hm Hb. rewrite app_dispatch. unfold app_spec. now rewrite Hm, Hb. Qed.


(** C20: A [POST] whose path is [/generate-itinerary] up to letter case,
    a trailing slash and the query string reaches the generation
    handler with its parsed body: its reply is the handler's log. *)
Theorem generate_route req v :
  method req = POST -> raw_body req = BodyParsed v ->
  map canon (strip_slash (pathname (originalUrl req))) = map canon p_generate ->
  app se req = let '(o, log) := generate_itinerary (gen_env se) v [] in StreamReply o log.
Proof.
  intros Hm Hb Hp. rewrite app_dispatch. unfold app_spec, route_of. rewrite Hm, Hb, Hp.
  reflexivity.
Qed.

End Properties.

(** ** Concrete requests *)

Definition demo_server : server_env := MkServer no_key_env (js "2023-11-14T22:13:20.000Z").
Definition throwing_client : GeminiClient := scripted_client (fun _ => AIThrows).

Lemma malformed_body_500_witness :
  let req := MkHttp GET (js "/health") (BodyMalformed (js "Unexpected token } in JSON at position 9")) in
  method_eqb (method req) OPTIONS = false
  /\ raw_body req = BodyMalformed (js "Unexpected token } in JSON at position 9")
  /\ @app throwing_client demo_server req
     = JsonReply 500 (JObj [(key_error, JStr something_went_wrong);
                            (k_message, JStr (js "Unexpected token } in JSON at position 9"))]).
Proof.
  intros req. assert (Hm : method_eqb (method req) OPTIONS = false) by reflexivity.
  assert (Hb : raw_body req = BodyMalformed (js "Unexpected token } in JSON at position 9")) by reflexivity.
  refine (conj Hm (conj Hb _)). apply (malformed_body_500 demo_server req _ Hm Hb).
Defined.


Lemma generate_route_witness :
  let req := MkHttp POST (js "/Generate-Itinerary/?lang=en") (BodyParsed paris_body) in
  method req = POST /\ raw_body req = BodyParsed paris_body
  /\ map canon (strip_slash (pathname (originalUrl req))) = map canon p_generate
  /\ @app throwing_client demo_server req
     = let '(o, log) := @generate_itinerary throwing_client no_key_env paris_body [] in StreamReply o log.
Proof.
  intros req. assert (Hm : method req = POST) by reflexivity.
  assert (Hb : raw_body req = BodyParsed paris_body) by reflexivity.
  assert (Hp : map canon (strip_slash (pathname (originalUrl req))) = map canon p_generate)
    by (vm_compute; reflexivity).
  refine (conj Hm (conj Hb (conj Hp _))). apply (generate_route demo_server req paris_body Hm Hb Hp).
Defined.

(** [HEAD /HEALTH/?probe=1] is served by the health route: routes
    ignore letter case, a trailing slash and the query string, and a
    [GET] route answers [HEAD]. *)
Example head_health_served :
  @app throwing_client demo_server (MkHttp HEAD (js "/HEALTH/?probe=1") BodyAbsent)
  = JsonReply 200 (health_body (js "2023-11-14T22:13:20.000Z")).
Proof. vm_compute. reflexivity. Qed.
