(* ===== verification/Startup.v ===== *)
(** * Server start-up (server.js lines 1-14 and 482-486)

    [require('dotenv').config()] (line 4) copies the variables of the
    [.env] file into [process.env], keeping a variable the process
    already has (dotenv's default, [override: false]); the file's
    parsed object keeps the last of duplicated keys.  [obj_set],
    [dotenv_parse] and [dotenv_populate] model that library, not code
    of the repository: they are what line 4 calls.  Line 7 takes
    [process.env.PORT || 8080], line 10 constructs the Gemini client with
    [process.env.GEMINI_API_KEY || 'demo-key'], and [app.listen]
    (lines 482-486) prints three lines naming the port.  [boot] builds
    the environment the handlers read ([GEMINI_API_KEY] of line 63 and
    the clock) from the populated [process.env].

    The theorem: composing start-up, the router and the orchestrator,
    a server started without a key in the process or in [.env] never
    calls the Gemini client: every reply is the same for every client.
    The lemmas: the process's variables take precedence over the file,
    and an unset or empty [PORT] gives 8080. *)

From Stdlib Require Import String List ZArith Lia Bool.
From S2P Require Import Prelude JsString Request Stream Orchestrator Catalog Router.
Import ListNotations.
Local Open Scope Z_scope.

(** ** [process.env] and dotenv *)

(** [process.env] as the list of its variables. *)
Definition process_env := list (jsstr * jsstr).

Definition env_get (pe : process_env) (k : jsstr) : option jsstr :=
  match find (fun kv => jsstr_eqb (fst kv) k) pe with Some kv => Some (snd kv) | None => None end.

(** [obj[key] = value] on the parsed object: replace in place or append. *)
Fixpoint obj_set (o : process_env) (k v : jsstr) : process_env :=
  match o with
  | [] => [(k, v)]
  | (k', v') :: rest => if jsstr_eqb k' k then (k', v) :: rest else (k', v') :: obj_set rest k v
  end.

(** dotenv's [parse]: the lines of the file, in order, assigned to an object. *)
Definition dotenv_parse (lines : list (jsstr * jsstr)) : process_env :=
  fold_left (fun o kv => obj_set o (fst kv) (snd kv)) lines [].

(** dotenv's [populate] without [override]: a key already in
    [process.env] keeps its value. *)
Definition dotenv_populate (parsed : process_env) (pe : process_env) : process_env :=
  fold_left (fun acc kv => match env_get acc (fst kv) with
                           | Some _ => acc
                           | None => acc ++ [kv]
                           end) parsed pe.

(** Line 4. *)
Definition dotenv_config (file : list (jsstr * jsstr)) (pe : process_env) : process_env :=
  dotenv_populate (dotenv_parse file) pe.

(** ** Lines 6-10 *)

Definition v_PORT : jsstr := Eval vm_compute in js "PORT".
Definition v_GEMINI_API_KEY : jsstr := Eval vm_compute in js "GEMINI_API_KEY".

Definition env_value (pe : process_env) (k : jsstr) : option json := option_map JStr (env_get pe k).

(** Line 7: [process.env.PORT || 8080]. *)
Definition PORT (pe : process_env) : json := js_or (env_value pe v_PORT) (JNum 8080).

(** Line 10: the key the Gemini client is constructed with. *)
Definition genAI_key (pe : process_env) : json := js_or (env_value pe v_GEMINI_API_KEY) (JStr demo_key).

(** ** [app.listen] (lines 482-486) *)

Definition listen_running : jsstr := Eval vm_compute in js "ğŸš€ Smart Trip Planner Backend running on port ".
Definition listen_health_a : jsstr := Eval vm_compute in js "ğŸ“ Health check: http://localhost:".
Definition listen_health_b : jsstr := Eval vm_compute in js "/health".
Definition listen_ready : jsstr := Eval vm_compute in js "ğŸ“± Ready to serve Flutter app!".

(** The three lines the listen callback prints: [${PORT}] is
    [String(PORT)]. *)
Definition listen_log (port : json) : exn + list jsstr :=
  let? p := to_js_string port in
  inr [listen_running ++ p; listen_health_a ++ p ++ listen_health_b; listen_ready].

(** ** The running server *)

(** What the handlers read: [process.env.GEMINI_API_KEY] at each request
    (line 63), the clock and its ISO text. *)
Definition boot (file : list (jsstr * jsstr)) (pe : process_env) (now : Z) (iso : jsstr) : server_env :=
  MkServer (MkEnv (env_get (dotenv_config file pe) v_GEMINI_API_KEY) now) iso.

(** The start-up: the populated environment, the port listened on and
    the lines printed. *)
Definition start (file : list (jsstr * jsstr)) (pe : process_env) : json * (exn + list jsstr) :=
  let pe' := dotenv_config file pe in (PORT pe', listen_log (PORT pe')).

(** ** Facts on the environment *)

(** The value a file's lines give a key: the last assignment. *)
Definition last_value (lines : list (jsstr * jsstr)) (k : jsstr) : option jsstr :=
  fold_left (fun o kv => if jsstr_eqb (fst kv) k then Some (snd kv) else o) lines None.

Lemma env_get_cons k' v pe k :
  env_get ((k', v) :: pe) k = if jsstr_eqb k' k then Some v else env_get pe k.
Proof. unfold env_get. simpl. now destruct (jsstr_eqb k' k). Qed.

Lemma env_get_snoc pe kv k :
  env_get (pe ++ [kv]) k =
  match env_get pe k with Some v => Some v | None => if jsstr_eqb (fst kv) k then Some (snd kv) else None end.
Proof.
  destruct kv as [k' v]. induction pe as [|[k0 v0] pe IH]; simpl Datatypes.app.
  - rewrite env_get_cons. reflexivity.
  - rewrite !env_get_cons. now destruct (jsstr_eqb k0 k).
Qed.

Lemma env_get_obj_set o k' v k :
  env_get (obj_set o k' v) k = if jsstr_eqb k' k then Some v else env_get o k.
Proof.
  induction o as [|[k0 v0] o IH]; cbn [obj_set].
  - rewrite env_get_cons. reflexivity.
  - destruct (jsstr_eqb k0 k') eqn:E.
    + apply jsstr_eqb_spec in E. subst k0. rewrite !env_get_cons. now destruct (jsstr_eqb k' k).
    + rewrite !env_get_cons, IH. destruct (jsstr_eqb k0 k) eqn:E0; [|reflexivity].
      destruct (jsstr_eqb k' k) eqn:E1; [|reflexivity].
      apply jsstr_eqb_spec in E0, E1. subst. now rewrite jsstr_eqb_refl in E.
Qed.

Lemma env_get_parse lines o k :
  env_get (fold_left (fun o kv => obj_set o (fst kv) (snd kv)) lines o) k
  = fold_left (fun o kv => if jsstr_eqb (fst kv) k then Some (snd kv) else o) lines (env_get o k).
Proof.
  revert o. induction lines as [|kv lines IH]; intros o; [reflexivity|].
  cbn [fold_left]. rewrite IH, env_get_obj_set. reflexivity.
Qed.

Lemma env_get_populate parsed acc k :
  env_get (dotenv_populate parsed acc) k
  = match env_get acc k with Some v => Some v | None => env_get parsed k end.
Proof.
  unfold dotenv_populate. revert acc.
  induction parsed as [|[k' v] parsed IH]; intros acc; cbn [fold_left fst].
  - now destruct (env_get acc k).
  - rewrite IH, env_get_cons.
    destruct (env_get acc k') as [w|] eqn:Ew;
      [|rewrite env_get_snoc; cbn [fst snd]; destruct (env_get acc k)]; 
      destruct (jsstr_eqb k' k) eqn:E; auto.
    apply jsstr_eqb_spec in E. subst k'. now rewrite Ew.
Qed.

Lemma env_get_config file pe k :
  env_get (dotenv_config file pe) k
  = match env_get pe k with Some v => Some v | None => last_value file k end.
Proof.
  unfold dotenv_config. rewrite env_get_populate. destruct (env_get pe k); [reflexivity|].
  apply env_get_parse.
Qed.

(** ** Properties *)

(** Line 7: [process.env.PORT] when it is a non-empty string, the
    number 8080 when it is unset or empty. *)
Lemma PORT_cases pe :
  PORT pe = match env_get pe v_PORT with
            | Some p => if Nat.eqb (length p) 0 then JNum 8080 else JStr p
            | None => JNum 8080
            end.
Proof.
  unfold PORT, env_value, js_or.
  destruct (env_get pe v_PORT) as [p|]; simpl; [|reflexivity].
  now destruct (Nat.eqb (length p) 0).
Qed.

(** Demo mode decides alone: with it, the handler does not call the
    client. *)
Lemma generate_itinerary_demo_client c1 c2 e body log :
  demo_mode e = true -> @generate_itinerary c1 e body log = @generate_itinerary c2 e body log.
Proof. intros Hd. unfold generate_itinerary. rewrite Hd. reflexivity. Qed.

Lemma run_handler_demo_client c1 c2 se h body :
  demo_mode (gen_env se) = true -> @run_handler c1 se h body = @run_handler c2 se h body.
Proof.
  intros Hd. destruct h; try reflexivity. cbn [run_handler].
  now rewrite (generate_itinerary_demo_client c1 c2 _ _ _ Hd).
Qed.

(** C18: Start-up, routing and generation composed: a server started
    with no [GEMINI_API_KEY] in the process nor in the [.env] file
    never calls the Gemini client: whatever client line 10 constructs,
    every request gets the same reply. *)
Theorem keyless_server_client_independent file pe now iso :
  env_get pe v_GEMINI_API_KEY = None -> last_value file v_GEMINI_API_KEY = None ->
  forall (c1 c2 : GeminiClient) req,
    @app c1 (boot file pe now iso) req = @app c2 (boot file pe now iso) req.
Proof.
  intros Hp Hf c1 c2 req.
  assert (Hd : demo_mode (gen_env (boot file pe now iso)) = true)
    by (unfold boot, demo_mode; cbn; now rewrite env_get_config, Hp, Hf).
  rewrite !app_dispatch. unfold app_spec.
  destruct (method_eqb (method req) OPTIONS); [reflexivity|].
  destruct (raw_body req); [..|reflexivity];
    (destruct (route_of _ _); [apply run_handler_demo_client, Hd|reflexivity]).
Qed.

(** An empty [PORT] in the process shadows the [.env] file's value
    (dotenv does not override a variable that exists, even empty) and is
    falsy for [||]: the server listens on 8080, not on the file's 3000,
    and prints so. *)
Example empty_PORT_shadows_file :
  start [(v_PORT, js "3000")] [(v_PORT, [])]
  = (JNum 8080, inr [listen_running ++ js "8080"; listen_health_a ++ js "8080" ++ listen_health_b; listen_ready]).
Proof. vm_compute. reflexivity. Qed.

Lemma keyless_server_client_independent_witness :
  env_get [(v_PORT, js "3000")] v_GEMINI_API_KEY = None
  /\ last_value [(v_PORT, js "3000")] v_GEMINI_API_KEY = None
  /\ forall (c1 c2 : GeminiClient) req,
       @app c1 (boot [(v_PORT, js "3000")] [(v_PORT, js "3000")] 0 []) req
       = @app c2 (boot [(v_PORT, js "3000")] [(v_PORT, js "3000")] 0 []) req.
Proof.
  assert (Hp : env_get [(v_PORT, js "3000")] v_GEMINI_API_KEY = None) by (vm_compute; reflexivity).
  assert (Hf : last_value [(v_PORT, js "3000")] v_GEMINI_API_KEY = None) by (vm_compute; reflexivity).
  exact (conj Hp (conj Hf (keyless_server_client_independent _ _ 0 [] Hp Hf))).
Defined.
